(** * Explanatory video generator: the generation / render / repair pipeline

    A shallow embedding of [app.py]: the three language-model request
    wrappers, [extract_class_name], [create_video_from_code] and
    [generate_video], over an explicit world (file system, open clip
    handles, event trace) and an environment of external collaborators
    (language-model backends, the [manim] child process, [tempfile], the
    video library).

    Python [str] is modelled as [string]: a character of the model is a
    code point below 256. The character classes [\s] and [\w] of the [re]
    module are Unicode-aware, so they are taken as a parameter of which
    only a few facts are used (see [Re.classes]); [Re.python] gives them
    as Python has them on these code points. Creating and writing the
    temporary file, reading the tool's output and writing the final video
    may each fail, and the write may return without leaving a file, as
    the environment decides. *)

From stdpp Require Import gmap strings list fin_maps pretty.
From Stdlib Require Import Ascii String ZArith Lia.

Open Scope string_scope.
Open Scope list_scope.
Open Scope Z_scope.
Open Scope nat_scope.

(* ===================================================================== *)
(** * Part I: definitions                                                 *)
(* ===================================================================== *)

(** ** The [re] fragment used by [extract_class_name] *)

Module Re.

Abbreviation text := (list ascii).

Definition in_range (lo hi : nat) (c : ascii) : bool :=
  let n := nat_of_ascii c in (lo <=? n) && (n <=? hi).

(** The ASCII part of [\s]: TAB..CR, FS..US and the blank. *)
Definition ascii_space (c : ascii) : bool :=
  in_range 9 13 c || in_range 28 32 c.

(** The ASCII part of [\w]: letters, digits and the underscore. *)
Definition ascii_word (c : ascii) : bool :=
  in_range 48 57 c || in_range 65 90 c || in_range 97 122 c
  || Ascii.eqb c "_"%char.

(** The punctuation of a class header, and the path separator. *)
Definition delimiter (c : ascii) : bool :=
  Ascii.eqb c "("%char || Ascii.eqb c ")"%char || Ascii.eqb c ":"%char
  || Ascii.eqb c "/"%char.

(** The classes [\s] and [\w] of a [str] pattern. Their extent beyond
    ASCII is the [re] module's business (Unicode white space; Unicode
    letters, digits and numbers); what is used of them is that they hold
    their ASCII parts, that white space is no word character, and that
    the delimiters are in neither class. *)
Record classes : Type :=
  { is_space : ascii -> bool;
    is_word : ascii -> bool;
    ascii_is_space : forall c, ascii_space c = true -> is_space c = true;
    ascii_is_word : forall c, ascii_word c = true -> is_word c = true;
    space_not_word : forall c, is_space c = true -> is_word c = false;
    delimiter_not_space : forall c, delimiter c = true -> is_space c = false;
    delimiter_not_word : forall c, delimiter c = true -> is_word c = false }.

(** The two classes as [re] has them on the code points a character can
    hold here, U+0000 to U+00FF: [\s] adds NEL and the no-break space,
    [\w] adds the letters and numbers of Latin-1. *)
Definition unicode_space (c : ascii) : bool :=
  let n := nat_of_ascii c in ascii_space c || (n =? 133) || (n =? 160).

Definition unicode_word (c : ascii) : bool :=
  let n := nat_of_ascii c in
  ascii_word c || (n =? 170) || in_range 178 179 c || (n =? 181)
  || in_range 185 186 c || in_range 188 190 c || in_range 192 214 c
  || in_range 216 246 c || in_range 248 255 c.

Definition python : classes.
Proof.
  refine {| is_space := unicode_space; is_word := unicode_word |};
    abstract (intros c; destruct c as [[] [] [] [] [] [] [] []];
              vm_compute; congruence).
Defined.

Inductive regex : Type :=
| Eps                                 (* the empty pattern *)
| Lit (c : ascii)                     (* a literal character *)
| Star (p : ascii -> bool)            (* [\s*], [\w*]: greedy *)
| Plus (p : ascii -> bool)            (* [\s+], [\w+]: greedy *)
| Cat (r1 r2 : regex)                 (* juxtaposition *)
| Group (r : regex).                  (* a capturing group *)

(** What a successful match leaves behind: the text captured by the
    group (if the group took part) and the unconsumed input. *)
Definition outcome : Type := option text * text.

(** Remainders after a greedy run of [p]-characters, longest run first:
    the order in which a backtracking matcher tries them. *)
Fixpoint greedy (p : ascii -> bool) (s : text) : list text :=
  match s with
  | c :: s' => if p c then greedy p s' ++ [s] else [s]
  | [] => [[]]
  end.

Definition later_group (g1 g2 : option text) : option text :=
  match g2 with Some _ => g2 | None => g1 end.

(** All the ways [r] matches a prefix of [s], in the matcher's priority
    order; the head of the list is the match [re] reports. *)
Fixpoint run (r : regex) (s : text) : list outcome :=
  match r with
  | Eps => [(None, s)]
  | Lit c =>
      match s with
      | x :: s' => if Ascii.eqb x c then [(None, s')] else []
      | [] => []
      end
  | Star p => map (pair None) (greedy p s)
  | Plus p =>
      match s with
      | x :: s' => if p x then map (pair None) (greedy p s') else []
      | [] => []
      end
  | Cat r1 r2 =>
      flat_map (fun o1 =>
                  map (fun o2 => (later_group (fst o1) (fst o2), snd o2))
                      (run r2 (snd o1)))
               (run r1 s)
  | Group r1 =>
      map (fun o => (Some (take (List.length s - List.length (snd o)) s), snd o))
          (run r1 s)
  end.

(** [re.search]: the first offset at which the pattern matches, scanning
    from the left, and the preferred match there. *)
Fixpoint search (r : regex) (s : text) : option outcome :=
  match run r s with
  | o :: _ => Some o
  | [] =>
      match s with
      | [] => None
      | _ :: s' => search r s'
      end
  end.

Definition lits (w : string) : regex :=
  fold_right (fun c r => Cat (Lit c) r) Eps (list_ascii_of_string w).

Definition seq (rs : list regex) : regex := fold_right Cat Eps rs.

(** Declarative reading of a pattern: [denote r s g rest] says that [r]
    matches a prefix of [s], leaving [rest], with group capture [g]. *)
Fixpoint denote (r : regex) (s : text) (g : option text) (rest : text) : Prop :=
  match r with
  | Eps => g = None /\ rest = s
  | Lit c => g = None /\ s = c :: rest
  | Star p => g = None /\ exists a, s = a ++ rest /\ forallb p a = true
  | Plus p =>
      g = None /\ exists a, s = a ++ rest /\ a <> [] /\ forallb p a = true
  | Cat r1 r2 =>
      exists g1 g2 mid,
        denote r1 s g1 mid /\ denote r2 mid g2 rest /\ g = later_group g1 g2
  | Group r1 =>
      exists g1 a, denote r1 s g1 rest /\ s = a ++ rest /\ g = Some a
  end.

End Re.

(** ** Exceptions *)

Inductive exn : Type :=
| TimeoutExpired (cmd : list string) (timeout : Z)
| CalledProcessError (returncode : Z) (cmd : list string) (output stderr : string)
| FileNotFoundError (msg : string)
| ValueError (msg : string)
| OtherError (cls msg : string).   (* any other subclass of [Exception] *)

(** ** [extract_class_name] *)

(** [class\s+(\w+)\s*\(\s*\w*Scene\s*\):] *)
Definition scene_pattern (cls : Re.classes) : Re.regex :=
  let s := Re.is_space cls in
  let w := Re.is_word cls in
  Re.seq [ Re.lits "class"; Re.Plus s; Re.Group (Re.Plus w);
           Re.Star s; Re.Lit "("%char; Re.Star s;
           Re.Star w; Re.lits "Scene"; Re.Star s;
           Re.Lit ")"%char; Re.Lit ":"%char ].

(** [match.group(1)]; a group that took no part reads as Python's [None],
    which the only consumer formats as the text "None". *)
Definition group1 (o : Re.outcome) : string :=
  match fst o with
  | Some name => string_of_list_ascii name
  | None => "None"
  end.

Definition extraction_error : exn :=
  ValueError "Could not extract class name from Manim code.".

Definition extract_class_name (cls : Re.classes) (code : string) : exn + string :=
  match Re.search (scene_pattern cls) (list_ascii_of_string code) with
  | Some m => inr (group1 m)
  | None => inl extraction_error
  end.

(** ** Data model *)

Record ChapterDescription : Type :=
  { chapter_title : string; explanation : string }.

Record VideoOutline : Type :=
  { title : string; chapters : list ChapterDescription }.

Record ManimCode : Type := { code : string }.

(** ** The world: files, open clip handles, and what has been observed *)

Inductive event : Type :=
| LogInfo (msg : string)
| LogError (msg : string)
| LogWarning (msg : string)
| StWarning (msg : string)
| StError (msg : string)
| StSuccess (msg : string)
| RunOutline (prompt : string)          (* outline_agent.run_sync *)
| RunManim (prompt : string)            (* manim_agent.run_sync *)
| RunFixer (prompt : string)            (* code_fixer_agent.run_sync *)
| TempCreate (path content : string)    (* NamedTemporaryFile + write *)
| Spawn (cmd : list string)             (* subprocess.Popen *)
| Communicate (timeout : Z)
| Kill
| Remove (path : string)                (* os.remove *)
| ClipOpen (path : string)              (* VideoFileClip(path) *)
| Concatenate (paths : list string)
| WriteVideo (path : string)
| FinalClose
| ClipClose (path : string).

Record World : Type :=
  { fs : gmap string string;      (* regular files: path to content *)
    open_clips : list string;     (* clips opened and not yet closed *)
    clock : nat;                  (* external interactions so far *)
    trace : list event }.

(** How a run of the rendering tool ends; the file system it leaves is
    the tool's business. [Exits] is an exit whose output [communicate]
    could hand back as text. *)
Inductive proc_outcome : Type :=
| SpawnFails (e : exn)                               (* Popen raises *)
| TimesOut (after : gmap string string)              (* no exit in time *)
| ReadFails (e : exn) (after : gmap string string)   (* communicate raises
                                       otherwise, as on undecodable output *)
| Exits (returncode : Z) (stdout stderr : string)
        (after : gmap string string).

(** How creating and writing the temporary file ends. *)
Inductive temp_outcome : Type :=
| TempFails (e : exn)            (* NamedTemporaryFile raises: no file *)
| WriteFails (e : exn) (part : string)
                                 (* write or close raises: the file stays,
                                    holding [part] *)
| Written.

(** How [write_videofile] ends. *)
Inductive write_outcome : Type :=
| WriteRaises (e : exn) (part : option string)
                                 (* it raises, having put [part] at the
                                    path, if anything *)
| WriteReturns (written : bool). (* it returns; the file is at the path
                                    when [written] *)

(** The external collaborators. Each answer may depend on the moment of
    the call ([clock]), so that a backend may answer the same request
    differently on a later call. [re_classes] are the character classes
    of the [re] module in use. *)
Record Env : Type :=
  { outline_agent : nat -> string -> exn + VideoOutline;
    manim_agent : nat -> string -> exn + ManimCode;
    code_fixer_agent : nat -> string -> exn + ManimCode;
    re_classes : Re.classes;
    temp_stem : nat -> string;
    temp_write : nat -> string -> temp_outcome;
    manim : nat -> list string -> gmap string string -> proc_outcome;
    video_open : nat -> string -> option exn;
    video_write : nat -> string -> write_outcome;
    signal_repr : Z -> option string }.

(** ** State and exceptions *)

Definition M (A : Type) : Type := World -> (exn + A) * World.

Definition ret {A} (a : A) : M A := fun w => (inr a, w).

Definition raise {A} (e : exn) : M A := fun w => (inl e, w).

Definition bind {A B} (m : M A) (k : A -> M B) : M B :=
  fun w =>
    match m w with
    | (inr a, w1) => k a w1
    | (inl e, w1) => (inl e, w1)
    end.

Notation "x <- m ;; k" := (bind m (fun x => k))
  (at level 100, m at next level, right associativity).
Notation "m ;;; k" := (bind m (fun _ => k))
  (at level 100, right associativity).

(** [try: body  except Exception as e: handler e] *)
Definition try_except {A} (body : M A) (handler : exn -> M A) : M A :=
  fun w =>
    match body w with
    | (inr a, w1) => (inr a, w1)
    | (inl e, w1) => handler e w1
    end.

(** [try: body  finally: cleanup]; an exception of [cleanup] replaces the
    pending outcome. *)
Definition try_finally {A} (body : M A) (cleanup : M unit) : M A :=
  fun w =>
    match body w with
    | (r, w1) =>
        match cleanup w1 with
        | (inr _, w2) => (r, w2)
        | (inl e, w2) => (inl e, w2)
        end
    end.

Definition emit (e : event) : M unit :=
  fun w => (inr tt, {| fs := fs w; open_clips := open_clips w;
                       clock := clock w; trace := trace w ++ [e] |}).

(** Read the moment of an external call and advance the clock. *)
Definition tick : M nat :=
  fun w => (inr (clock w), {| fs := fs w; open_clips := open_clips w;
                              clock := S (clock w); trace := trace w |}).

Definition get_fs : M (gmap string string) := fun w => (inr (fs w), w).

Definition set_fs (f : gmap string string) : M unit :=
  fun w => (inr tt, {| fs := f; open_clips := open_clips w;
                       clock := clock w; trace := trace w |}).

Definition get_clips : M (list string) := fun w => (inr (open_clips w), w).

Definition set_clips (l : list string) : M unit :=
  fun w => (inr tt, {| fs := fs w; open_clips := l;
                       clock := clock w; trace := trace w |}).

Definition lift {A} (r : exn + A) : M A :=
  match r with inl e => raise e | inr a => ret a end.

(** ** The library calls the program makes *)

Module Py.

Definition dquote : ascii := ascii_of_nat 34.
Definition squote : ascii := "'"%char.
Definition backslash : ascii := ascii_of_nat 92.

Definition hex_digit (n : nat) : ascii :=
  nth n (list_ascii_of_string "0123456789abcdef") "0"%char.

Definition escape_char (q c : ascii) : string :=
  let n := nat_of_ascii c in
  if Ascii.eqb c backslash then String backslash (String backslash "")
  else if Ascii.eqb c q then String backslash (String q "")
  else if n =? 10 then String backslash "n"
  else if n =? 13 then String backslash "r"
  else if n =? 9 then String backslash "t"
  else if (n <? 32) || (n =? 127) then
    String backslash
      (String "x" (String (hex_digit (n / 16)) (String (hex_digit (n mod 16)) "")))
  else String c "".

Definition has_char (c : ascii) (s : string) : bool :=
  existsb (Ascii.eqb c) (list_ascii_of_string s).

(** [repr] of a [str]. *)
Definition repr (s : string) : string :=
  let q := if has_char squote s && negb (has_char dquote s)
           then dquote else squote in
  String q (String.concat "" (map (escape_char q) (list_ascii_of_string s))
            +:+ String q "").

(** [str] of a list of [str]. *)
Definition list_str (l : list string) : string :=
  "[" +:+ String.concat ", " (map repr l) +:+ "]".

(** [str(e)]. *)
Definition str (env : Env) (e : exn) : string :=
  match e with
  | TimeoutExpired cmd t =>
      "Command '" +:+ list_str cmd +:+ "' timed out after " +:+ pretty t
      +:+ " seconds"
  | CalledProcessError rc cmd _ _ =>
      if (rc <? 0)%Z then
        match signal_repr env (- rc)%Z with
        | Some sig => "Command '" +:+ list_str cmd +:+ "' died with " +:+ sig +:+ "."
        | None => "Command '" +:+ list_str cmd +:+ "' died with unknown signal "
                  +:+ pretty (- rc)%Z +:+ "."
        end
      else "Command '" +:+ list_str cmd +:+ "' returned non-zero exit status "
           +:+ pretty rc +:+ "."
  | FileNotFoundError msg => msg
  | ValueError msg => msg
  | OtherError _ msg => msg
  end.

(** [os.path.exists] *)
Definition path_exists (p : string) : M bool :=
  f <- get_fs ;; ret (bool_decide (is_Some (f !! p))).

(** [os.remove] *)
Definition remove (p : string) : M unit :=
  f <- get_fs ;;
  match f !! p with
  | Some _ => set_fs (delete p f) ;;; emit (Remove p)
  | None =>
      raise (FileNotFoundError
               ("[Errno 2] No such file or directory: " +:+ repr p))
  end.

Definition starts_with_slash (s : string) : bool :=
  match s with String c _ => Ascii.eqb c "/"%char | EmptyString => false end.

Definition ends_with_slash (s : string) : bool :=
  match last (list_ascii_of_string s) with
  | Some c => Ascii.eqb c "/"%char
  | None => false
  end.

(** [os.path.join] of two components (POSIX). *)
Definition path_join (a b : string) : string :=
  if starts_with_slash b then b
  else if (String.eqb a "") || ends_with_slash a then a +:+ b
  else a +:+ "/" +:+ b.

(** [with tempfile.NamedTemporaryFile(delete=False, suffix=..., mode="w")
    as f: f.write(content)]: the file stays on disk after the block,
    also when the block is left by an exception of [write] or of the
    closing of the file. *)
Definition named_temporary_file (env : Env) (suffix content : string) : M string :=
  t <- tick ;;
  let name := temp_stem env t +:+ suffix in
  match temp_write env t content with
  | TempFails e => raise e
  | WriteFails e part =>
      f <- get_fs ;;
      set_fs (<[name := part]> f) ;;;
      emit (TempCreate name part) ;;;
      raise e
  | Written =>
      f <- get_fs ;;
      set_fs (<[name := content]> f) ;;;
      emit (TempCreate name content) ;;;
      ret name
  end.

Record Popen : Type := { args : list string; fate : proc_outcome }.

(** [subprocess.Popen(cmd, ...)] *)
Definition popen (env : Env) (cmd : list string) : M Popen :=
  t <- tick ;;
  emit (Spawn cmd) ;;;
  f <- get_fs ;;
  match manim env t cmd f with
  | SpawnFails e => raise e
  | o => ret {| args := cmd; fate := o |}
  end.

(** [process.communicate(timeout=...)] *)
Definition communicate (p : Popen) (timeout : Z) : M (string * string) :=
  emit (Communicate timeout) ;;;
  match fate p with
  | SpawnFails e => raise e
  | TimesOut after => set_fs after ;;; raise (TimeoutExpired (args p) timeout)
  | ReadFails e after => set_fs after ;;; raise e
  | Exits _ out err after => set_fs after ;;; ret (out, err)
  end.

(** [process.returncode], once [communicate] has returned. *)
Definition returncode (p : Popen) : Z :=
  match fate p with Exits rc _ _ _ => rc | _ => 0%Z end.

Definition kill (p : Popen) : M unit := emit Kill.

Record Clip : Type := { clip_path : string; clip_data : string }.

(** [VideoFileClip(path)] *)
Definition video_file_clip (env : Env) (p : string) : M Clip :=
  t <- tick ;;
  f <- get_fs ;;
  match video_open env t p, f !! p with
  | Some e, _ => raise e
  | None, None =>
      raise (OtherError "OSError" ("MoviePy error: the file " +:+ p
                                   +:+ " could not be found!"))
  | None, Some d =>
      l <- get_clips ;;
      set_clips (l ++ [p]) ;;;
      emit (ClipOpen p) ;;;
      ret {| clip_path := p; clip_data := d |}
  end.

(** [concatenate_videoclips(clips)] *)
Definition concatenate_videoclips (clips : list Clip) : M Clip :=
  emit (Concatenate (map clip_path clips)) ;;;
  ret {| clip_path := ""; clip_data := String.concat "" (map clip_data clips) |}.

(** [clip.write_videofile(path, ...)] *)
Definition write_videofile (env : Env) (c : Clip) (p : string) : M unit :=
  t <- tick ;;
  f <- get_fs ;;
  match video_write env t p with
  | WriteRaises e part =>
      match part with
      | Some d => set_fs (<[p := d]> f)
      | None => ret tt
      end ;;;
      raise e
  | WriteReturns written =>
      (if written then set_fs (<[p := clip_data c]> f) else ret tt) ;;;
      emit (WriteVideo p)
  end.

Fixpoint remove_first (p : string) (l : list string) : list string :=
  match l with
  | [] => []
  | x :: l' => if String.eqb x p then l' else x :: remove_first p l'
  end.

(** [clip.close()] on a clip obtained from [VideoFileClip]. *)
Definition close (c : Clip) : M unit :=
  l <- get_clips ;;
  set_clips (remove_first (clip_path c) l) ;;;
  emit (ClipClose (clip_path c)).

(** [final.close()] on the concatenation. *)
Definition close_final (c : Clip) : M unit := emit FinalClose.

End Py.

(** ** The program *)

Definition newline : string := String (ascii_of_nat 10) "".

(** [agent.run_sync(prompt)]: one request to a language-model backend. *)
Definition run_sync {A} (agent : nat -> string -> exn + A)
           (request : string -> event) (prompt : string) : M A :=
  t <- tick ;;
  emit (request prompt) ;;;
  lift (agent t prompt).

Definition codegen_prompt (chapter : ChapterDescription) : string :=
  "title: " +:+ chapter_title chapter +:+ ". Explanation: " +:+ explanation chapter.

Definition generate_manim_code (env : Env) (chapter : ChapterDescription) : M string :=
  emit (LogInfo ("Generating Manim code for: " +:+ chapter_title chapter)) ;;;
  result <- run_sync (manim_agent env) RunManim (codegen_prompt chapter) ;;
  ret (code result).

Definition fix_prompt (error source : string) : string :=
  "Error: " +:+ error +:+ newline +:+ "Current Code:" +:+ newline +:+ source.

Definition fix_manim_code (env : Env) (error source : string) : M string :=
  emit (LogInfo "Fixing Manim code after error...") ;;;
  result <- run_sync (code_fixer_agent env) RunFixer (fix_prompt error source) ;;
  ret (code result).

Definition generate_video_outline (env : Env) (concept : string) : M VideoOutline :=
  emit (LogInfo ("Generating outline for: " +:+ concept)) ;;;
  run_sync (outline_agent env) RunOutline concept.

Definition render_timeout : Z := 60.

Definition manim_command (temp_file_name : string) : list string :=
  ["manim"; temp_file_name; "-ql"; "--disable_caching"].

(** The two [except] clauses of [create_video_from_code]. They guard the
    whole [try] block, in which [process] is bound only once [Popen] has
    returned. *)
Definition render_handlers {A} (chapter_num : nat) (process : option Py.Popen)
           (e : exn) : M A :=
  match e with
  | TimeoutExpired _ _ =>
      emit (LogError ("Manim process timed out for chapter "
                      +:+ pretty chapter_num +:+ ".")) ;;;
      match process with
      | Some p => Py.kill p
      | None =>
          raise (OtherError "UnboundLocalError"
                   "cannot access local variable 'process' where it is not associated with a value")
      end ;;;
      raise e
  | FileNotFoundError _ =>
      raise (FileNotFoundError "Manim is not installed or not in PATH.")
  | _ => raise e
  end.

Definition media_dir : string := "./media/videos/temp/480p15/".

Definition create_video_from_code (env : Env) (source : string) (chapter_num : nat)
  : M string :=
  temp_file_name <- Py.named_temporary_file env ".py" source ;;
  try_finally
    (let command := manim_command temp_file_name in
     process <- try_except (Py.popen env command)
                           (render_handlers chapter_num None) ;;
     try_except
       (out <- Py.communicate process render_timeout ;;
        if negb (Py.returncode process =? 0)%Z then
          raise (CalledProcessError (Py.returncode process) command
                                    (fst out) (snd out))
        else ret tt)
       (render_handlers chapter_num (Some process)))
    (present <- Py.path_exists temp_file_name ;;
     if present then Py.remove temp_file_name else ret tt) ;;;
  class_name <- lift (extract_class_name (re_classes env) source) ;;
  ret (Py.path_join media_dir (class_name +:+ ".mp4")).

(** The variables of the retry loop of [generate_video]. *)
Record attempt_state : Type :=
  { manim_code : string;
    attempts : nat;
    success : bool;
    video_files : list string }.

(** [video_files.append(video_file); success = True] *)
Definition won (st : attempt_state) (video_file : string) : attempt_state :=
  {| manim_code := manim_code st; attempts := attempts st; success := true;
     video_files := video_files st ++ [video_file] |}.

(** [manim_code = fixed] *)
Definition refixed (st : attempt_state) (fixed : string) : attempt_state :=
  {| manim_code := fixed; attempts := attempts st; success := success st;
     video_files := video_files st |}.

(** [attempts += 1] *)
Definition bump (st : attempt_state) : attempt_state :=
  {| manim_code := manim_code st; attempts := attempts st + 1;
     success := success st; video_files := video_files st |}.

(** The [try] block of the retry loop: one render attempt. *)
Definition render_attempt (env : Env) (i : nat) (st : attempt_state)
  : M attempt_state :=
  video_file <- create_video_from_code env (manim_code st) (i + 1) ;;
  present <- Py.path_exists video_file ;;
  if present then ret (won st video_file)
  else raise (FileNotFoundError "Video file not created.").

Definition failure_log (env : Env) (st : attempt_state) (e : exn) : event :=
  LogError ("Attempt " +:+ pretty (attempts st + 1) +:+ " failed: "
            +:+ Py.str env e).

(** Its [except Exception as e] block. *)
Definition on_failure (env : Env) (st : attempt_state) (e : exn)
  : M attempt_state :=
  emit (failure_log env st e) ;;;
  if attempts st =? 0 then
    fixed <- fix_manim_code env (Py.str env e) (manim_code st) ;;
    ret (refixed st fixed)
  else ret st.

(** One iteration of [while attempts < 2 and not success]. *)
Definition attempt (env : Env) (i : nat) (st : attempt_state) : M attempt_state :=
  st1 <- try_except (render_attempt env i st) (on_failure env st) ;;
  ret (bump st1).

(** The [while] loop; [fuel] bounds the number of iterations, and
    [2 - attempts] iterations always suffice. *)
Fixpoint attempts_loop (env : Env) (i : nat) (fuel : nat) (st : attempt_state)
  : M attempt_state :=
  if (attempts st <? 2) && negb (success st) then
    match fuel with
    | 0 => ret st
    | S fuel' => st' <- attempt env i st ;; attempts_loop env i fuel' st'
    end
  else ret st.

Definition fresh_attempts (source : string) (files : list string) : attempt_state :=
  {| manim_code := source; attempts := 0; success := false;
     video_files := files |}.


(** The body of [for i, chapter in enumerate(outline.chapters)]; it
    yields [video_files] as the chapter leaves it. *)
Definition process_chapter (env : Env) (i : nat) (chapter : ChapterDescription)
           (files : list string) : M (list string) :=
  source <- generate_manim_code env chapter ;;
  st <- attempts_loop env i 2 (fresh_attempts source files) ;;
  (if success st then ret tt
   else
     emit (LogWarning ("Skipping chapter " +:+ pretty (i + 1) +:+ ": "
                       +:+ chapter_title chapter)) ;;;
     emit (StWarning ("Failed to generate chapter " +:+ pretty (i + 1)
                      +:+ ": " +:+ chapter_title chapter))) ;;;
  ret (video_files st).

(** The [for] loop, from index [i] on. *)
Fixpoint chapters_loop (env : Env) (i : nat) (chs : list ChapterDescription)
         (files : list string) : M (list string) :=
  match chs with
  | [] => ret files
  | chapter :: rest =>
      files' <- process_chapter env i chapter files ;;
      chapters_loop env (i + 1) rest files'
  end.

(** [[VideoFileClip(vf) for vf in video_files if os.path.exists(vf)]] *)
Fixpoint open_existing (env : Env) (files : list string) : M (list Py.Clip) :=
  match files with
  | [] => ret []
  | vf :: rest =>
      present <- Py.path_exists vf ;;
      if present then
        clip <- Py.video_file_clip env vf ;;
        clips <- open_existing env rest ;;
        ret (clip :: clips)
      else open_existing env rest
  end.

(** [for clip in clips: clip.close()] *)
Fixpoint close_all (clips : list Py.Clip) : M unit :=
  match clips with
  | [] => ret tt
  | clip :: rest => Py.close clip ;;; close_all rest
  end.

Definition final_path : string := "final_video.mp4".

Definition no_chapters_warning : event :=
  StWarning "No video chapters were successfully generated.".

(** The second half of [generate_video]: from the collected clip paths to
    the final video, or to Python's [None]. *)
Definition assemble (env : Env) (files : list string) : M (option string) :=
  match files with
  | _ :: _ =>
      try_except
        (clips <- open_existing env files ;;
         match clips with
         | _ :: _ =>
             final <- Py.concatenate_videoclips clips ;;
             Py.write_videofile env final final_path ;;;
             Py.close_final final ;;;
             close_all clips ;;;
             emit (StSuccess "Video generation complete!") ;;;
             ret (Some final_path)
         | [] => emit (StWarning "No clips to combine.") ;;; ret None
         end)
        (fun e =>
           emit (LogError ("Video combining error: " +:+ Py.str env e)) ;;;
           emit (StError ("Failed to combine video: " +:+ Py.str env e)) ;;;
           ret None)
  | [] => emit no_chapters_warning ;;; ret None
  end.

Definition generate_video (env : Env) (concept : string) : M (option string) :=
  outline <- generate_video_outline env concept ;;
  files <- chapters_loop env 0 (chapters outline) [] ;;
  assemble env files.

(** ** Reading a trace *)

Definition is_spawn (e : event) : bool :=
  match e with Spawn _ => true | _ => false end.

Definition is_fix (e : event) : bool :=
  match e with RunFixer _ => true | _ => false end.

Definition is_temp_create (e : event) : bool :=
  match e with TempCreate _ _ => true | _ => false end.

(** Render attempts: invocations of the rendering tool. *)
Definition renders (evs : list event) : nat :=
  List.length (List.filter is_spawn evs).

(** Invocations of the code fixer. *)
Definition fixes (evs : list event) : nat :=
  List.length (List.filter is_fix evs).

(** Temporary source files created. *)
Definition temp_files (evs : list event) : nat :=
  List.length (List.filter is_temp_create evs).

Definition is_clip_open (e : event) : bool :=
  match e with ClipOpen _ => true | _ => false end.

Definition is_clip_close (e : event) : bool :=
  match e with ClipClose _ => true | _ => false end.

Definition clips_opened (evs : list event) : nat :=
  List.length (List.filter is_clip_open evs).

Definition clips_closed (evs : list event) : nat :=
  List.length (List.filter is_clip_close evs).

Definition quiet (evs : list event) : Prop :=
  renders evs = 0 /\ fixes evs = 0 /\ temp_files evs = 0.

(** [since w w' evs]: going from [w] to [w'] appended exactly [evs]. *)
Definition since (w w' : World) (evs : list event) : Prop :=
  trace w' = trace w ++ evs.

Definition log_to (w : World) (evs : list event) : World :=
  {| fs := fs w; open_clips := open_clips w; clock := clock w;
     trace := trace w ++ evs |}.

(** ** The shape of a render call and of a fix *)

(** The name [tempfile] hands out in world [w]. *)
Definition temp_of (env : Env) (w : World) : string :=
  temp_stem env (clock w) +:+ ".py".

(** How creating and writing the temporary file of the render call made
    in [w] on [source] ends. *)
Definition temp_answer (env : Env) (source : string) (w : World) : temp_outcome :=
  temp_write env (clock w) source.

(** The world a render call leaves when [tempfile] could not create the
    file. *)
Definition no_temp (w : World) : World :=
  {| fs := fs w; open_clips := open_clips w; clock := S (clock w);
     trace := trace w |}.

(** The world it leaves when writing the file failed: the file stays,
    holding [part]. *)
Definition temp_left (env : Env) (w : World) (part : string) : World :=
  {| fs := <[temp_of env w := part]> (fs w); open_clips := open_clips w;
     clock := S (clock w);
     trace := trace w ++ [TempCreate (temp_of env w) part] |}.

(** What the [finally] block logs: the removal, when the file is still
    there. *)
Definition cleanup (name : string) (f : gmap string string) : list event :=
  if bool_decide (is_Some (f !! name)) then [Remove name] else [].

(** The world a render call leaves once the temporary file was written:
    the tool left the files [f], and the call logged [evs] between
    spawning the tool and cleaning up. *)
Definition rendered (env : Env) (source : string) (w : World)
           (f : gmap string string) (evs : list event) : World :=
  let name := temp_of env w in
  {| fs := delete name f; open_clips := open_clips w;
     clock := S (S (clock w));
     trace := trace w ++ TempCreate name source :: Spawn (manim_command name)
                      :: evs ++ cleanup name f |}.

Definition timeout_log (n : nat) : event :=
  LogError ("Manim process timed out for chapter " +:+ pretty n +:+ ".").

(** How the tool answers the render call made in [w] on [source], once
    the temporary file was written. *)
Definition tool_answer (env : Env) (source : string) (w : World) : proc_outcome :=
  manim env (S (clock w)) (manim_command (temp_of env w))
        (<[temp_of env w := source]> (fs w)).

(** The request the fixer receives after failure [e] of state [st]. *)
Definition fix_request (env : Env) (st : attempt_state) (e : exn) : string :=
  fix_prompt (Py.str env e) (manim_code st).

(** The world after the fixer was asked, whatever it answered. *)
Definition fix_world (env : Env) (st : attempt_state) (e : exn) (w : World)
  : World :=
  {| fs := fs w; open_clips := open_clips w; clock := S (clock w);
     trace := trace w ++ [failure_log env st e;
                          LogInfo "Fixing Manim code after error...";
                          RunFixer (fix_request env st e)] |}.

(** ** The per-chapter state machine

    The four paths through generate, render, fix, render of one chapter,
    from the freshly generated [source] to the state and world the retry
    loop ends in. *)
Inductive chapter_run (env : Env) (i : nat) (source : string)
          (files : list string) (w : World)
  : exn + attempt_state -> World -> Prop :=
| Run_first st1 w1 :
    render_attempt env i (fresh_attempts source files) w = (inr st1, w1) ->
    chapter_run env i source files w (inr (bump st1)) w1
| Run_fix_raises e1 w1 e2 w2 :
    render_attempt env i (fresh_attempts source files) w = (inl e1, w1) ->
    on_failure env (fresh_attempts source files) e1 w1 = (inl e2, w2) ->
    chapter_run env i source files w (inl e2) w2
| Run_second e1 w1 st1 w2 st2 w3 :
    render_attempt env i (fresh_attempts source files) w = (inl e1, w1) ->
    on_failure env (fresh_attempts source files) e1 w1 = (inr st1, w2) ->
    render_attempt env i (bump st1) w2 = (inr st2, w3) ->
    chapter_run env i source files w (inr (bump st2)) w3
| Run_exhausted e1 w1 st1 w2 e3 w3 :
    render_attempt env i (fresh_attempts source files) w = (inl e1, w1) ->
    on_failure env (fresh_attempts source files) e1 w1 = (inr st1, w2) ->
    render_attempt env i (bump st1) w2 = (inl e3, w3) ->
    chapter_run env i source files w (inr (bump (bump st1)))
                (log_to w3 [failure_log env (bump st1) e3]).

(** ** The shape of a chapter's turn and of the assembly *)

Definition codegen_world (chapter : ChapterDescription) (w : World) : World :=
  {| fs := fs w; open_clips := open_clips w; clock := S (clock w);
     trace := trace w ++ [LogInfo ("Generating Manim code for: " +:+ chapter_title chapter);
                          RunManim (codegen_prompt chapter)] |}.

Definition skip_log (i : nat) (chapter : ChapterDescription) : list event :=
  [LogWarning ("Skipping chapter " +:+ pretty (i + 1) +:+ ": " +:+ chapter_title chapter);
   StWarning ("Failed to generate chapter " +:+ pretty (i + 1) +:+ ": "
              +:+ chapter_title chapter)].

Definition prepend (files : list string) (st : attempt_state) : attempt_state :=
  {| manim_code := manim_code st; attempts := attempts st; success := success st;
     video_files := files ++ video_files st |}.

Definition chapter_result (env : Env) (i : nat) (chapter : ChapterDescription)
           (w : World) : option string :=
  match process_chapter env i chapter [] w with
  | (inr (p :: _), _) => Some p
  | _ => None
  end.

Definition after_chapter (env : Env) (i : nat) (chapter : ChapterDescription)
           (w : World) : World :=
  snd (process_chapter env i chapter [] w).

Fixpoint chapter_results (env : Env) (i : nat) (chs : list ChapterDescription)
         (w : World) : list (option string) :=
  match chs with
  | [] => []
  | chapter :: rest =>
      chapter_result env i chapter w
        :: chapter_results env (i + 1) rest (after_chapter env i chapter w)
  end.

Definition present_in (f : gmap string string) (p : string) : bool :=
  bool_decide (is_Some (f !! p)).

(** The clip paths the assembler keeps, in input order. *)
Definition kept (f : gmap string string) (files : list string) : list string :=
  List.filter (present_in f) files.

(** What the final video holds: the kept clips' contents, in input order. *)
Definition joined (f : gmap string string) (files : list string) : string :=
  String.concat "" (omap (fun p => f !! p) files).

Definition assembly_log (paths : list string) : list event :=
  map ClipOpen paths
  ++ [Concatenate paths; WriteVideo final_path; FinalClose]
  ++ map ClipClose paths ++ [StSuccess "Video generation complete!"].

Definition outline_world (concept : string) (w : World) : World :=
  {| fs := fs w; open_clips := open_clips w; clock := S (clock w);
     trace := trace w ++ [LogInfo ("Generating outline for: " +:+ concept);
                          RunOutline concept] |}.

(** ** Declarative reading of the entry-point pattern *)

Definition all_of (p : ascii -> bool) (s : string) : bool :=
  forallb p (list_ascii_of_string s).

(** [source] holds, right after the prefix [pre], the text the pattern
    recognises: "class", white space, a [name] of word characters,
    optional white space, and between parentheses one base whose name
    ends in [Scene], with optional white space around it; the colon
    follows the closing parenthesis at once. *)
Definition declares_scene_at (cls : Re.classes) (source pre name : string) : Prop :=
  exists ws1 ws2 ws3 base ws4 rest,
    source = pre +:+ "class" +:+ ws1 +:+ name +:+ ws2 +:+ "(" +:+ ws3 +:+ base
             +:+ "Scene" +:+ ws4 +:+ "):" +:+ rest
    /\ ws1 <> "" /\ all_of (Re.is_space cls) ws1 = true
    /\ name <> "" /\ all_of (Re.is_word cls) name = true
    /\ all_of (Re.is_space cls) ws2 = true /\ all_of (Re.is_space cls) ws3 = true
    /\ all_of (Re.is_word cls) base = true /\ all_of (Re.is_space cls) ws4 = true.

(** [name] is declared by the leftmost such text of [source]. *)
Definition first_scene_decl (cls : Re.classes) (source name : string) : Prop :=
  exists pre,
    declares_scene_at cls source pre name /\
    forall pre' name', declares_scene_at cls source pre' name' ->
                       String.length pre <= String.length pre'.

(** The same reading on character lists, from the start of [s]. *)
Definition kw_class : Re.text := list_ascii_of_string "class".
Definition kw_scene : Re.text := list_ascii_of_string "Scene".

Definition decl_parts (cls : Re.classes) (s name rest : Re.text) : Prop :=
  exists ws1 ws2 ws3 base ws4,
    s = kw_class ++ ws1 ++ name ++ ws2 ++ "("%char :: ws3 ++ base ++ kw_scene
        ++ ws4 ++ ")"%char :: ":"%char :: rest
    /\ ws1 <> [] /\ forallb (Re.is_space cls) ws1 = true
    /\ name <> [] /\ forallb (Re.is_word cls) name = true
    /\ forallb (Re.is_space cls) ws2 = true /\ forallb (Re.is_space cls) ws3 = true
    /\ forallb (Re.is_word cls) base = true /\ forallb (Re.is_space cls) ws4 = true.

Abbreviation l_of := list_ascii_of_string.
Abbreviation s_of := string_of_list_ascii.

(** ** Stubbed collaborators for concrete runs *)

Module Stub.

Definition w0 : World :=
  {| fs := ∅; open_clips := []; clock := 0; trace := [] |}.

Definition chapter (t : string) : ChapterDescription :=
  {| chapter_title := t; explanation := "show " +:+ t |}.

(** A code generator that names the scene after the chapter title's
    first letter (the prompt starts with "title: "). *)
Definition scene_for (prompt : string) : ManimCode :=
  {| code := "class " +:+ String.substring 7 1 prompt +:+ "(Scene):" |}.

Definition clip_of (name : string) : string := media_dir +:+ name +:+ ".mp4".

(** A rendering tool that writes the clip where the program looks for
    it, and exits with status 1 on the scenes [bad] rejects. *)
Definition tool (bad : string -> bool) (t : nat) (cmd : list string)
           (f : gmap string string) : proc_outcome :=
  match cmd with
  | [_; script; _; _] =>
      match f !! script with
      | Some src =>
          match extract_class_name Re.python src with
          | inr name =>
              if bad name then Exits 1 "" "render error" f
              else Exits 0 "" "" (<[clip_of name := name]> f)
          | inl _ => Exits 0 "" "" f
          end
      | None => Exits 2 "" "no such file" f
      end
  | _ => Exits 2 "" "usage" f
  end.

Definition base (chs : list ChapterDescription) (bad : string -> bool) : Env :=
  {| outline_agent := fun _ _ => inr {| title := "T"; chapters := chs |};
     manim_agent := fun _ p => inr (scene_for p);
     code_fixer_agent := fun _ _ => inr {| code := "class Fixed(Scene):" |};
     re_classes := Re.python;
     temp_stem := fun t => "/tmp/tmp" +:+ pretty t;
     temp_write := fun _ _ => Written;
     manim := tool bad;
     video_open := fun _ _ => None;
     video_write := fun _ _ => WriteReturns true;
     signal_repr := fun _ => None |}.

Definition set_manim (e : Env)
           (m : nat -> list string -> gmap string string -> proc_outcome) : Env :=
  {| outline_agent := outline_agent e; manim_agent := manim_agent e;
     code_fixer_agent := code_fixer_agent e; re_classes := re_classes e;
     temp_stem := temp_stem e; temp_write := temp_write e;
     manim := m; video_open := video_open e; video_write := video_write e;
     signal_repr := signal_repr e |}.

Definition set_manim_agent (e : Env) (a : nat -> string -> exn + ManimCode) : Env :=
  {| outline_agent := outline_agent e; manim_agent := a;
     code_fixer_agent := code_fixer_agent e; re_classes := re_classes e;
     temp_stem := temp_stem e; temp_write := temp_write e;
     manim := manim e; video_open := video_open e; video_write := video_write e;
     signal_repr := signal_repr e |}.

Definition set_fixer (e : Env) (a : nat -> string -> exn + ManimCode) : Env :=
  {| outline_agent := outline_agent e; manim_agent := manim_agent e;
     code_fixer_agent := a; re_classes := re_classes e;
     temp_stem := temp_stem e; temp_write := temp_write e;
     manim := manim e; video_open := video_open e; video_write := video_write e;
     signal_repr := signal_repr e |}.

Definition set_video_write (e : Env) (v : nat -> string -> write_outcome) : Env :=
  {| outline_agent := outline_agent e; manim_agent := manim_agent e;
     code_fixer_agent := code_fixer_agent e; re_classes := re_classes e;
     temp_stem := temp_stem e; temp_write := temp_write e;
     manim := manim e; video_open := video_open e; video_write := v;
     signal_repr := signal_repr e |}.

Definition set_temp_write (e : Env) (t : nat -> string -> temp_outcome) : Env :=
  {| outline_agent := outline_agent e; manim_agent := manim_agent e;
     code_fixer_agent := code_fixer_agent e; re_classes := re_classes e;
     temp_stem := temp_stem e; temp_write := t;
     manim := manim e; video_open := video_open e; video_write := video_write e;
     signal_repr := signal_repr e |}.

Definition backend_down : exn := OtherError "ModelHTTPError" "status_code: 503".

Definition disk_full : exn :=
  OtherError "OSError" "[Errno 28] No space left on device".

Definition abc : list ChapterDescription := [chapter "A"; chapter "B"; chapter "C"].

(** One chapter, and everything works. *)
Definition one (t : string) : Env := base [chapter t] (fun _ => false).


(** The tool never exits in time. *)
Definition hanging : Env :=
  set_manim (base [] (fun _ => false)) (fun _ _ f => TimesOut f).

(** The code-generation backend is down. *)
Definition codegen_down : Env :=
  set_manim_agent (base [chapter "A"; chapter "B"] (fun _ => false))
                  (fun _ _ => inl backend_down).

(** Chapter A fails to render, and the code-fix backend is down. *)
Definition fixer_down : Env :=
  set_fixer (base [chapter "A"; chapter "B"] (String.eqb "A"))
            (fun _ _ => inl backend_down).

(** Chapter B never renders: its scene and the fixer's replacement are
    both rejected by the tool. *)
Definition b_fails : Env :=
  base abc (fun name => String.eqb name "B" || String.eqb name "Fixed").

(** One chapter renders, then writing the final video fails. *)
Definition write_fails : Env :=
  set_video_write (one "A") (fun _ _ => WriteRaises disk_full None).

(** The outline backend is down. *)
Definition outline_down : Env :=
  {| outline_agent := fun _ _ => inl backend_down;
     manim_agent := manim_agent (one "A");
     code_fixer_agent := code_fixer_agent (one "A");
     re_classes := re_classes (one "A");
     temp_stem := temp_stem (one "A"); temp_write := temp_write (one "A");
     manim := manim (one "A");
     video_open := video_open (one "A"); video_write := video_write (one "A");
     signal_repr := signal_repr (one "A") |}.


(** A world in which the clips of A and C are on disk. *)
Definition clips_on_disk : World :=
  {| fs := <[clip_of "A" := "A"]> (<[clip_of "C" := "C"]> ∅);
     open_clips := []; clock := 0; trace := [] |}.

Definition three_paths : list string := [clip_of "A"; clip_of "B"; clip_of "C"].

(** A world in which [tempfile] hands out another name. *)
Definition later_world : World :=
  {| fs := ∅; open_clips := []; clock := 41; trace := [] |}.

End Stub.

(** ** More ways to read a trace *)

Definition count (p : event -> bool) (evs : list event) : nat :=
  List.length (List.filter p evs).

Definition is_codegen (e : event) : bool :=
  match e with RunManim _ => true | _ => false end.

Definition is_outline (e : event) : bool :=
  match e with RunOutline _ => true | _ => false end.

Definition is_st_warning (e : event) : bool :=
  match e with StWarning _ => true | _ => false end.

(** Requests to the code-generation backend, to the outline backend, and
    warnings shown to the user. *)
Definition codegens (evs : list event) : nat := count is_codegen evs.
Definition outlines (evs : list event) : nat := count is_outline evs.
Definition st_warnings (evs : list event) : nat := count is_st_warning evs.

(** The events a render call may log. *)
Definition render_kind (e : event) : bool :=
  match e with
  | TempCreate _ _ | Spawn _ | Communicate _ | Kill | Remove _ | LogError _ => true
  | _ => false
  end.

(** Those it may log after the tool was started. *)
Definition wait_kind (e : event) : bool :=
  match e with
  | Communicate _ | Kill | Remove _ | LogError _ => true
  | _ => false
  end.

(** The events the [except] block of the retry loop may log. *)
Definition fix_kind (e : event) : bool :=
  match e with
  | LogError _ | LogInfo _ | RunFixer _ => true
  | _ => false
  end.

Definition loop_kind (e : event) : bool := render_kind e || fix_kind e.


(** Every temporary file asked for gets written. *)
Definition always_written (env : Env) : Prop :=
  forall t source, temp_write env t source = Written.

(** The files a run of the tool leaves, [given] the files it started on. *)
Definition left_by (o : proc_outcome) (given : gmap string string)
  : gmap string string :=
  match o with
  | SpawnFails _ => given
  | TimesOut after => after
  | ReadFails _ after => after
  | Exits _ _ _ after => after
  end.

(** A path of the shape the render call returns: a name made of word
    characters, directly in the media directory. *)
Definition clip_shaped (cls : Re.classes) (p : string) : Prop :=
  exists name,
    p = media_dir +:+ name +:+ ".mp4" /\ name <> "" /\
    all_of (Re.is_word cls) name = true.

Definition no_clips_warning : event := StWarning "No clips to combine.".

Definition combine_error (env : Env) (e : exn) : event :=
  StError ("Failed to combine video: " +:+ Py.str env e).

Definition combine_log (env : Env) (e : exn) : list event :=
  [LogError ("Video combining error: " +:+ Py.str env e); combine_error env e].

(** What the video library answers to the write of the assembly made in
    [w] on [files], once the clips are open. *)
Definition write_answer (env : Env) (files : list string) (w : World)
  : write_outcome :=
  video_write env (clock (snd (open_existing env files w))) final_path.

(** The [try] block of the assembly made in [w] on [files] raises [e]:
    opening one of the clips does, or, all clips open, the write does. *)
Definition raised_in_assembly (env : Env) (files : list string) (w : World)
           (e : exn) : Prop :=
  (exists w1, open_existing env files w = (inl e, w1)) \/
  ((exists clips w1, open_existing env files w = (inr clips, w1)) /\
   exists part, write_answer env files w = WriteRaises e part).

(** All clips open, the write returns. *)
Definition written_in_assembly (env : Env) (files : list string) (w : World)
  : Prop :=
  (exists clips w1, open_existing env files w = (inr clips, w1)) /\
  exists written, write_answer env files w = WriteReturns written.

(** The world after the clips were opened (leaving [w1]) and writing the
    final video failed with [e], having put [part] at the path. *)
Definition write_failed (env : Env) (clips : list Py.Clip) (e : exn)
           (part : option string) (w1 : World) : World :=
  {| fs := match part with
           | Some d => <[final_path := d]> (fs w1)
           | None => fs w1
           end;
     open_clips := open_clips w1; clock := S (clock w1);
     trace := trace w1 ++ Concatenate (map Py.clip_path clips) :: combine_log env e |}.

(** The world after the clips were opened (leaving [w1]), joined, written
    (the file being there when [written]) and closed. *)
Definition assembled (clips : list Py.Clip) (written : bool) (w1 : World) : World :=
  {| fs := if written
           then <[final_path := String.concat "" (map Py.clip_data clips)]> (fs w1)
           else fs w1;
     open_clips := fold_left (fun l c => Py.remove_first (Py.clip_path c) l)
                             clips (open_clips w1);
     clock := S (clock w1);
     trace := trace w1
              ++ [Concatenate (map Py.clip_path clips); WriteVideo final_path;
                  FinalClose]
              ++ map ClipClose (map Py.clip_path clips)
              ++ [StSuccess "Video generation complete!"] |}.

(** The warning shown for a chapter that produced no clip, and the
    warnings owed for a list of chapters, given each one's result. *)
Definition failure_warning (i : nat) (chapter : ChapterDescription) : event :=
  StWarning ("Failed to generate chapter " +:+ pretty (i + 1) +:+ ": "
             +:+ chapter_title chapter).

Fixpoint failure_warnings (i : nat) (chs : list ChapterDescription)
         (results : list (option string)) : list event :=
  match chs, results with
  | chapter :: rest, r :: rs =>
      match r with
      | None => failure_warning i chapter :: failure_warnings (i + 1) rest rs
      | Some _ => failure_warnings (i + 1) rest rs
      end
  | _, _ => []
  end.

(** ** The caller: [main] *)

(** The widgets [main] puts on the page; [st.warning] goes to the trace
    like everywhere else. *)
Inductive widget : Type :=
| Title (text : string)
| TextInput (label : string)
| Button (label : string)
| Spinner (text : string)
| Video (path : string)
| Info (msg : string).

(** Python's truth value of a [str]. *)
Definition truthy (s : string) : bool := negb (String.eqb s "").

Definition page_head : list widget :=
  [Title "Explanatory Video Generator"; TextInput "Enter a concept:";
   Button "Generate Video"].

Definition spinner : widget := Spinner "Generating video... Please wait.".

Definition no_output_info : widget :=
  Info "Video generation completed but no output video found.".

(** [main], given what the user typed into the text input and whether the
    button was clicked in this script run. *)
Definition main (env : Env) (typed : string) (clicked : bool) : M (list widget) :=
  let concept := typed in
  if clicked then
    if truthy concept then
      final_video <- generate_video env concept ;;
      match final_video with
      | Some p =>
          if truthy p then
            present <- Py.path_exists p ;;
            if present then ret (page_head ++ [spinner; Video p])
            else ret (page_head ++ [spinner; no_output_info])
          else ret (page_head ++ [spinner; no_output_info])
      | None => ret (page_head ++ [spinner; no_output_info])
      end
    else emit (StWarning "Please enter a concept.") ;;; ret page_head
  else ret page_head.

(** ** More stubbed collaborators *)

Module Scenario.

Definition no_such_tool : exn :=
  FileNotFoundError "[Errno 2] No such file or directory: 'manim'".

(** The rendering tool is not installed. *)
Definition tool_missing : Env :=
  Stub.set_manim (Stub.one "A") (fun _ _ _ => SpawnFails no_such_tool).

Definition not_allowed : exn := OtherError "PermissionError" "[Errno 13] Permission denied: 'manim'".

(** The rendering tool may not be executed. *)
Definition tool_forbidden : Env :=
  Stub.set_manim (Stub.one "A") (fun _ _ _ => SpawnFails not_allowed).

(** The rendering tool prints a traceback and exits with status 1. *)
Definition tool_crashes : Env :=
  Stub.set_manim (Stub.one "A")
                 (fun _ _ f => Exits 1 "rendering" "Traceback: NameError" f).

(** The rendering tool exits with status 0 and writes nothing. *)
Definition tool_idle : Env :=
  Stub.set_manim (Stub.one "A") (fun _ _ f => Exits 0 "" "" f).

Definition not_text : exn :=
  OtherError "UnicodeDecodeError"
    "'utf-8' codec can't decode byte 0xff in position 0: invalid start byte".

(** The rendering tool writes the clip and exits with status 0, but what
    it printed is no text. *)
Definition tool_garbles : Env :=
  Stub.set_manim (Stub.one "A")
                 (fun _ _ f => ReadFails not_text (<[Stub.clip_of "A" := "A"]> f)).

Definition not_encodable : exn :=
  OtherError "UnicodeEncodeError"
    "'utf-8' codec can't encode character '\udcff' in position 6: surrogates not allowed".

(** The source cannot be written to the temporary file, which is left
    empty. *)
Definition script_unwritable : Env :=
  Stub.set_temp_write (Stub.one "A") (fun _ _ => WriteFails not_encodable "").

Definition no_temp_dir : exn :=
  FileNotFoundError "[Errno 2] No usable temporary directory found".

(** No temporary file can be created. *)
Definition no_temp_file : Env :=
  Stub.set_temp_write (Stub.one "A") (fun _ _ => TempFails no_temp_dir).

(** The video library returns from the write without leaving a file. *)
Definition write_is_silent : Env :=
  Stub.set_video_write (Stub.one "A") (fun _ _ => WriteReturns false).

(** Two characters beyond ASCII, U+00E9 (e with acute accent) and U+00A0
    (the no-break space), given by code point: a string literal would
    hold the bytes of their UTF-8 encoding instead. *)
Definition e_acute : string := String (ascii_of_nat 233) "".

Definition no_break_space : string := String (ascii_of_nat 160) "".

End Scenario.

(* ===================================================================== *)
(** * Part II: theorems                                                   *)
(* ===================================================================== *)

(** ** The matcher against the declarative reading *)

Module ReFacts.
Import Re.

Lemma greedy_spec p s rest :
  In rest (greedy p s) <-> exists a, s = a ++ rest /\ forallb p a = true.
Proof.
  revert rest. induction s as [|c s IH]; intros rest; simpl.
  - split.
    + intros [<-|[]]. exists []. auto.
    + intros (a & E & _). symmetry in E. apply app_eq_nil in E as [_ ->]. auto.
  - destruct (p c) eqn:Pc.
    + rewrite in_app_iff, IH. simpl. split.
      * intros [(a & -> & Ha)|[<-|[]]].
        -- exists (c :: a). simpl. rewrite Pc, Ha. auto.
        -- exists []. auto.
      * intros (a & E & Ha). destruct a as [|x a]; simpl in *.
        -- right. left. congruence.
        -- injection E as <- ->. apply andb_prop in Ha as [_ Ha].
           left. eauto.
    + simpl. split.
      * intros [<-|[]]. exists []. auto.
      * intros (a & E & Ha). destruct a as [|x a]; simpl in *.
        -- left. congruence.
        -- injection E as <- ->. rewrite Pc in Ha. discriminate.
Qed.

Lemma denote_suffix r : forall s g rest,
  denote r s g rest -> exists a, s = a ++ rest.
Proof.
  induction r; simpl; intros s g rest H.
  - destruct H as [_ ->]. exists []. reflexivity.
  - destruct H as [_ ->]. exists [c]. reflexivity.
  - destruct H as (_ & a & -> & _). eauto.
  - destruct H as (_ & a & -> & _). eauto.
  - destruct H as (g1 & g2 & mid & H1 & H2 & _).
    apply IHr1 in H1 as [a ->]. apply IHr2 in H2 as [b ->].
    exists (a ++ b). now rewrite <- app_assoc.
  - destruct H as (_ & a & _ & -> & _). eauto.
Qed.

Lemma run_spec r : forall s g rest,
  In (g, rest) (run r s) <-> denote r s g rest.
Proof.
  induction r; intros s g rest; simpl.
  - split.
    + intros [E|[]]. injection E as <- <-. auto.
    + intros [-> ->]. auto.
  - destruct s as [|x s]; simpl.
    + split; [tauto | intros [_ E]; discriminate].
    + destruct (Ascii.eqb_spec x c) as [->|Hne]; simpl.
      * split.
        -- intros [E|[]]. injection E as <- <-. auto.
        -- intros [-> E]. injection E as ->. auto.
      * split; [tauto | intros [_ E]; congruence].
  - rewrite in_map_iff. split.
    + intros (x & E & Hin). injection E as <- ->.
      apply greedy_spec in Hin. auto.
    + intros (-> & Ha). exists rest. split; [reflexivity|].
      now apply greedy_spec.
  - destruct s as [|x s]; simpl.
    + split; [tauto|]. intros (_ & a & E & Hne & _).
      symmetry in E. apply app_eq_nil in E as [-> _]. congruence.
    + destruct (p x) eqn:Px.
      * rewrite in_map_iff. split.
        -- intros (y & E & Hin). injection E as <- ->.
           apply greedy_spec in Hin as (a & -> & Ha).
           split; [reflexivity|]. exists (x :: a). simpl. rewrite Px, Ha.
           repeat split; congruence.
        -- intros (-> & a & E & Hne & Ha). destruct a as [|y a]; [congruence|].
           simpl in *. injection E as <- ->. apply andb_prop in Ha as [_ Ha].
           exists rest. split; [reflexivity|]. apply greedy_spec. eauto.
      * split; [simpl; tauto|]. intros (_ & a & E & Hne & Ha).
        destruct a as [|y a]; [congruence|]. simpl in *. injection E as <- ->.
        rewrite Px in Ha. discriminate.
  - rewrite in_flat_map. split.
    + intros ([g1 mid] & H1 & H2). apply in_map_iff in H2 as ([g2 r'] & E & H2).
      simpl in *. injection E as <- ->.
      exists g1, g2, mid. rewrite <- IHr1, <- IHr2. auto.
    + intros (g1 & g2 & mid & H1 & H2 & ->).
      exists (g1, mid). rewrite IHr1. split; [assumption|].
      apply in_map_iff. exists (g2, rest). rewrite IHr2. auto.
  - rewrite in_map_iff. split.
    + intros ([g1 r'] & E & H). simpl in *. injection E as <- ->.
      apply IHr in H. destruct (denote_suffix _ _ _ _ H) as [a ->].
      exists g1, a. repeat split; [assumption|].
      f_equal. apply take_app_length'. rewrite length_app. lia.
    + intros (g1 & a & H & -> & ->). exists (g1, rest). simpl. split.
      * f_equal. f_equal. apply take_app_length'. rewrite length_app. lia.
      * now apply IHr.
Qed.

Lemma search_some r : forall s o,
  search r s = Some o ->
  exists pre s', s = pre ++ s' /\ head (run r s') = Some o /\
    forall pre' s'', s = pre' ++ s'' -> List.length pre' < List.length pre ->
                     run r s'' = [].
Proof.
  induction s as [|c s IH]; intros o; simpl.
  - destruct (run r []) as [|o' l] eqn:E; [discriminate|].
    intros [= <-]. exists [], []. rewrite E. repeat split. simpl. lia.
  - destruct (run r (c :: s)) as [|o' l] eqn:E.
    + intros H. apply IH in H as (pre & s' & -> & Hh & Hmin).
      exists (c :: pre), s'. repeat split; [assumption|].
      intros [|x pre'] s'' E' Hlt; simpl in *.
      * now subst s''.
      * injection E' as <- E'. apply (Hmin pre'); [assumption | lia].
    + intros [= <-]. exists [], (c :: s). rewrite E. repeat split. simpl. lia.
Qed.

Lemma search_none r : forall s,
  search r s = None <-> forall pre s', s = pre ++ s' -> run r s' = [].
Proof.
  induction s as [|c s IH]; simpl.
  - destruct (run r []) as [|o' l] eqn:E.
    + split; [|reflexivity]. intros _ pre s' E'. symmetry in E'.
      apply app_eq_nil in E' as [_ ->]. assumption.
    + split; [discriminate|]. intros H. specialize (H [] [] eq_refl). congruence.
  - destruct (run r (c :: s)) as [|o' l] eqn:E.
    + rewrite IH. split.
      * intros H [|x pre] s' E'; simpl in *; [now subst s'|].
        injection E' as <- E'. eauto.
      * intros H pre s' ->. apply (H (c :: pre)). reflexivity.
    + split; [discriminate|]. intros H. specialize (H [] _ eq_refl). congruence.
Qed.

End ReFacts.

Import Re ReFacts.

(** ** The entry-point pattern *)

Lemma scene_pattern_denote cls s g rest :
  denote (scene_pattern cls) s g rest
  <-> exists name, g = Some name /\ decl_parts cls s name rest.
Proof.
  unfold scene_pattern, seq, lits, decl_parts. simpl. split.
  - intros H.
    repeat match goal with
           | H : exists _, _ |- _ => destruct H as [? H]
           | H : _ /\ _ |- _ => destruct H as [? ?]
           end.
    subst. simpl.
    match goal with H : ?a ++ ?r = ?b ++ ?r |- _ => apply app_inv_tail in H; subst end.
    eexists. split; [reflexivity|].
    do 5 eexists. split; [reflexivity|]. tauto.
  - intros (name & -> & ws1 & ws2 & ws3 & base & ws4 & -> & H).
    destruct H as (? & ? & ? & ? & ? & ? & ? & ?).
    repeat first [ reflexivity | eassumption | split | eexists ].
Qed.

Lemma span_unique (p : ascii -> bool) (a a' x x' : text) :
  a ++ x = a' ++ x' ->
  forallb p a = true -> forallb p a' = true ->
  (forall c t, x = c :: t -> p c = false) ->
  (forall c t, x' = c :: t -> p c = false) ->
  x <> [] -> x' <> [] ->
  a = a' /\ x = x'.
Proof.
  revert a'. induction a as [|c a IH]; intros [|c' a'] E Ha Ha' Hx Hx' Nx Nx'; simpl in *.
  - auto.
  - subst x. apply andb_prop in Ha' as [Hc _].
    rewrite (Hx c' _ eq_refl) in Hc. discriminate.
  - subst x'. apply andb_prop in Ha as [Hc _].
    rewrite (Hx' c _ eq_refl) in Hc. discriminate.
  - injection E as <- E. apply andb_prop in Ha as [_ Ha].
    apply andb_prop in Ha' as [_ Ha'].
    destruct (IH a' E Ha Ha' Hx Hx' Nx Nx') as [-> ->]. auto.
Qed.

Lemma decl_parts_name_unique cls s name name' rest rest' :
  decl_parts cls s name rest -> decl_parts cls s name' rest' -> name = name'.
Proof.
  intros (ws1 & ws2 & ws3 & base & ws4 & E & N1 & S1 & Nn & Wn & S2 & _)
         (ws1' & ws2' & ws3' & base' & ws4' & E' & N1' & S1' & Nn' & Wn' & S2' & _).
  rewrite E in E'. apply app_inv_head in E'.
  assert (Hhd : forall (n w k : text) c t,
             n <> [] -> forallb (is_word cls) n = true -> n ++ k = c :: t ->
             is_space cls c = false).
  { intros [|x n] w k c t Hn Hw Ek; [congruence|]. simpl in *. injection Ek as -> _.
    apply andb_prop in Hw as [Hx _]. destruct (is_space cls c) eqn:Es; [|reflexivity].
    apply space_not_word in Es. congruence. }
  destruct (span_unique (is_space cls) ws1 ws1' _ _ E' S1 S1') as [-> E2].
  - intros c t Ek. eapply (Hhd name ws2); eauto.
  - intros c t Ek. eapply (Hhd name' ws2'); eauto.
  - destruct name; [congruence | discriminate].
  - destruct name'; [congruence | discriminate].
  - assert (Hhd2 : forall (w k : text) c t,
               forallb (is_space cls) w = true -> w ++ "("%char :: k = c :: t ->
               is_word cls c = false).
    { intros [|x w] k c t Hw Ek; simpl in *.
      - injection Ek as <- _. now apply delimiter_not_word.
      - injection Ek as -> _. apply andb_prop in Hw as [Hx _].
        now apply space_not_word. }
    destruct (span_unique (is_word cls) name name' _ _ E2 Wn Wn') as [-> _]; eauto.
    + destruct ws2; discriminate.
    + destruct ws2'; discriminate.
Qed.

Lemma l_of_app a b : l_of (a +:+ b) = l_of a ++ l_of b.
Proof. induction a as [|c a IH]; simpl; [reflexivity | now rewrite IH]. Qed.

Lemma l_of_inj a b : l_of a = l_of b -> a = b.
Proof.
  intros E. rewrite <- (string_of_list_ascii_of_string a),
              <- (string_of_list_ascii_of_string b). now rewrite E.
Qed.

Lemma l_of_nil a : l_of a = [] <-> a = "".
Proof. destruct a; simpl; split; congruence. Qed.

Lemma l_of_length a : List.length (l_of a) = String.length a.
Proof. induction a; simpl; congruence. Qed.

Lemma declares_bridge cls source pre name :
  declares_scene_at cls source pre name <->
  exists s rest, l_of source = l_of pre ++ s /\ decl_parts cls s (l_of name) rest.
Proof.
  unfold declares_scene_at, decl_parts, all_of. split.
  - intros (ws1 & ws2 & ws3 & base & ws4 & rest & -> & H).
    destruct H as (N1 & ? & Nn & ? & ? & ? & ? & ?).
    eexists _, (l_of rest). split.
    + rewrite l_of_app. reflexivity.
    + exists (l_of ws1), (l_of ws2), (l_of ws3), (l_of base), (l_of ws4).
      rewrite !l_of_app, !l_of_nil. simpl. tauto.
  - intros (s & rest & E & ws1 & ws2 & ws3 & base & ws4 & -> & H).
    destruct H as (N1 & ? & Nn & ? & ? & ? & ? & ?).
    exists (s_of ws1), (s_of ws2), (s_of ws3), (s_of base), (s_of ws4), (s_of rest).
    rewrite <- !l_of_nil, !list_ascii_of_string_of_list_ascii.
    split; [|tauto]. apply l_of_inj. rewrite E, !l_of_app.
    rewrite !list_ascii_of_string_of_list_ascii. reflexivity.
Qed.

Lemma decl_parts_run cls s name rest :
  decl_parts cls s name rest -> run (scene_pattern cls) s <> [].
Proof.
  intros H E.
  assert (Hin : In (Some name, rest) (run (scene_pattern cls) s)).
  { apply run_spec, scene_pattern_denote. eauto. }
  rewrite E in Hin. destruct Hin.
Qed.

Lemma head_In {A} (l : list A) x : head l = Some x -> In x l.
Proof. destruct l; simpl; [discriminate | intros [= ->]; auto]. Qed.

Lemma app_same_length {A} (a b a' b' : list A) :
  a ++ b = a' ++ b' -> List.length a = List.length a' -> a = a' /\ b = b'.
Proof.
  revert a'. induction a as [|x a IH]; intros [|y a'] E L; simpl in *; try discriminate.
  - auto.
  - injection E as -> E. injection L as L. destruct (IH _ E L) as [-> ->]. auto.
Qed.

Lemma extract_ok_iff cls source name :
  extract_class_name cls source = inr name <-> first_scene_decl cls source name.
Proof.
  unfold extract_class_name, first_scene_decl. split.
  - destruct (search (scene_pattern cls) (l_of source)) as [m|] eqn:S; [|discriminate].
    intros [= <-].
    apply search_some in S as (pre & s & E & Hh & Hmin).
    apply head_In in Hh. destruct m as [g rest].
    apply run_spec, scene_pattern_denote in Hh as (nm & -> & Hd).
    unfold group1. simpl. exists (s_of pre). split.
    + apply declares_bridge. exists s, rest.
      rewrite !list_ascii_of_string_of_list_ascii. auto.
    + intros pre' name' (s' & rest' & E' & Hd')%declares_bridge.
      rewrite <- !l_of_length, list_ascii_of_string_of_list_ascii.
      destruct (le_lt_dec (List.length pre) (List.length (l_of pre'))) as [|Hlt];
        [assumption|].
      exfalso. apply (decl_parts_run _ _ _ _ Hd'). eapply Hmin; eauto.
  - intros (pre & (s & rest & E & Hd)%declares_bridge & Hfirst).
    destruct (search (scene_pattern cls) (l_of source)) as [m|] eqn:S.
    + apply search_some in S as (pre0 & s0 & E0 & Hh & Hmin).
      apply head_In in Hh. destruct m as [g rest0].
      apply run_spec, scene_pattern_denote in Hh as (nm & -> & Hd0).
      unfold group1. simpl.
      assert (L1 : String.length pre <= String.length (s_of pre0)).
      { apply (Hfirst _ (s_of nm)). apply declares_bridge. exists s0, rest0.
        rewrite !list_ascii_of_string_of_list_ascii. auto. }
      rewrite <- !l_of_length, list_ascii_of_string_of_list_ascii in L1.
      assert (L2 : List.length pre0 <= List.length (l_of pre)).
      { destruct (le_lt_dec (List.length pre0) (List.length (l_of pre))) as [|Hlt];
          [assumption|].
        exfalso. apply (decl_parts_run _ _ _ _ Hd). eapply Hmin; eauto. }
      rewrite E0 in E. destruct (app_same_length _ _ _ _ E) as [_ ->]; [lia|].
      rewrite (decl_parts_name_unique _ _ _ _ _ _ Hd0 Hd).
      now rewrite string_of_list_ascii_of_string.
    + exfalso. apply (decl_parts_run _ _ _ _ Hd).
      eapply search_none; eauto.
Qed.

Lemma extract_err_iff cls source :
  extract_class_name cls source =
    inl (ValueError "Could not extract class name from Manim code.")
  <-> forall pre name, ~ declares_scene_at cls source pre name.
Proof.
  unfold extract_class_name. split.
  - destruct (search (scene_pattern cls) (l_of source)) as [m|] eqn:S; [discriminate|].
    intros _ pre name (s & rest & E & Hd)%declares_bridge.
    apply (decl_parts_run _ _ _ _ Hd). eapply search_none; eauto.
  - intros H. destruct (search (scene_pattern cls) (l_of source)) as [m|] eqn:S;
      [|reflexivity].
    exfalso. apply search_some in S as (pre0 & s0 & E0 & Hh & _).
    apply head_In in Hh. destruct m as [g rest0].
    apply run_spec, scene_pattern_denote in Hh as (nm & -> & Hd0).
    apply (H (s_of pre0) (s_of nm)). apply declares_bridge. exists s0, rest0.
    rewrite !list_ascii_of_string_of_list_ascii. auto.
Qed.

Lemma extract_name_word cls source name :
  extract_class_name cls source = inr name ->
  name <> "" /\ all_of (is_word cls) name = true.
Proof.
  intros (pre & (ws1 & ws2 & ws3 & base & ws4 & rest & _ & H) & _)%extract_ok_iff.
  tauto.
Qed.

(** ** The render call *)

Lemma world_eq (w1 w2 : World) :
  fs w1 = fs w2 -> open_clips w1 = open_clips w2 -> clock w1 = clock w2 ->
  trace w1 = trace w2 -> w1 = w2.
Proof. destruct w1, w2; simpl; congruence. Qed.

(** The render call in closed form, by what [tempfile] and the tool
    answer. *)
Lemma create_video_from_code_eq env source n w :
  create_video_from_code env source n w =
  match temp_answer env source w with
  | TempFails e => (inl e, no_temp w)
  | WriteFails e part => (inl e, temp_left env w part)
  | Written =>
      match tool_answer env source w with
      | SpawnFails e =>
          match e with
          | TimeoutExpired _ _ =>
              (inl (OtherError "UnboundLocalError"
                      "cannot access local variable 'process' where it is not associated with a value"),
               rendered env source w (<[temp_of env w := source]> (fs w)) [timeout_log n])
          | FileNotFoundError _ =>
              (inl (FileNotFoundError "Manim is not installed or not in PATH."),
               rendered env source w (<[temp_of env w := source]> (fs w)) [])
          | _ => (inl e, rendered env source w (<[temp_of env w := source]> (fs w)) [])
          end
      | TimesOut after =>
          (inl (TimeoutExpired (manim_command (temp_of env w)) render_timeout),
           rendered env source w after [Communicate render_timeout; timeout_log n; Kill])
      | ReadFails e after =>
          match e with
          | TimeoutExpired _ _ =>
              (inl e, rendered env source w after
                               [Communicate render_timeout; timeout_log n; Kill])
          | FileNotFoundError _ =>
              (inl (FileNotFoundError "Manim is not installed or not in PATH."),
               rendered env source w after [Communicate render_timeout])
          | _ => (inl e, rendered env source w after [Communicate render_timeout])
          end
      | Exits rc out err after =>
          if (rc =? 0)%Z then
            match extract_class_name (re_classes env) source with
            | inr class_name =>
                (inr (Py.path_join media_dir (class_name +:+ ".mp4")),
                 rendered env source w after [Communicate render_timeout])
            | inl e => (inl e, rendered env source w after [Communicate render_timeout])
            end
          else (inl (CalledProcessError rc (manim_command (temp_of env w)) out err),
                rendered env source w after [Communicate render_timeout])
      end
  end.
Proof.
  unfold create_video_from_code, temp_answer, tool_answer, rendered, cleanup,
    timeout_log, temp_of, no_temp, temp_left.
  unfold Py.named_temporary_file, Py.popen, Py.communicate, Py.path_exists, Py.remove,
    Py.kill, Py.returncode,
    try_finally, try_except, bind, tick, get_fs, set_fs, emit, ret, raise. simpl.
  set (name := temp_stem env (clock w) +:+ ".py").
  destruct (temp_write env (clock w) source) as [e|e part|]; simpl; [reflexivity..|].
  set (cmd := manim_command name).
  set (f1 := <[name := source]> (fs w)).
  assert (Hf1 : f1 !! name = Some source) by apply lookup_insert_eq.
  destruct (manim env (S (clock w)) cmd f1) as [e|after|e after|rc out err after]; simpl.
  - destruct e; simpl; rewrite Hf1; simpl; rewrite ?Hf1; simpl;
      (f_equal; apply world_eq; simpl; [reflexivity..|]; rewrite <- ?app_assoc; reflexivity).
  - destruct (after !! name) eqn:Ha; simpl; rewrite ?Ha; simpl.
    + f_equal. apply world_eq; simpl; [reflexivity..|]. rewrite <- ?app_assoc. reflexivity.
    + f_equal. apply world_eq; simpl; [|reflexivity..|].
      * symmetry. now apply delete_id.
      * rewrite <- ?app_assoc. reflexivity.
  - destruct e; simpl;
      destruct (after !! name) eqn:Ha; simpl; rewrite ?Ha; simpl;
      (f_equal; apply world_eq; simpl;
       [try reflexivity; symmetry; now apply delete_id|reflexivity..|];
       rewrite <- ?app_assoc; reflexivity).
  - destruct (rc =? 0)%Z eqn:Hrc; simpl;
    destruct (after !! name) eqn:Ha; simpl; rewrite ?Ha; simpl;
    try destruct (extract_class_name (re_classes env) source); simpl;
    (f_equal; apply world_eq; simpl; [try reflexivity; symmetry; now apply delete_id|reflexivity..|];
      rewrite <- ?app_assoc; reflexivity).
Qed.

(** ** One attempt and the retry loop *)

Section Since.
Lemma since_refl w : since w w [].
Proof. unfold since. now rewrite app_nil_r. Qed.

Lemma since_trans w1 w2 w3 a b : since w1 w2 a -> since w2 w3 b -> since w1 w3 (a ++ b).
Proof. unfold since. intros -> ->. now rewrite app_assoc. Qed.

Lemma since_inj w w' a b : since w w' a -> since w w' b -> a = b.
Proof. unfold since. intros -> E. now apply app_inv_head in E. Qed.

Lemma renders_app a b : renders (a ++ b) = renders a + renders b.
Proof. unfold renders. now rewrite List.filter_app, length_app. Qed.

Lemma fixes_app a b : fixes (a ++ b) = fixes a + fixes b.
Proof. unfold fixes. now rewrite List.filter_app, length_app. Qed.

Lemma temp_files_app a b : temp_files (a ++ b) = temp_files a + temp_files b.
Proof. unfold temp_files. now rewrite List.filter_app, length_app. Qed.
End Since.

Lemma render_attempt_eq env i st w :
  render_attempt env i st w =
  match create_video_from_code env (manim_code st) (i + 1) w with
  | (inr p, w1) =>
      if bool_decide (is_Some (fs w1 !! p)) then (inr (won st p), w1)
      else (inl (FileNotFoundError "Video file not created."), w1)
  | (inl e, w1) => (inl e, w1)
  end.
Proof.
  unfold render_attempt, bind, Py.path_exists, get_fs, ret, raise, won.
  destruct (create_video_from_code _ _ _ _) as [[e|p] w1]; simpl; [reflexivity|].
  destruct (bool_decide _); reflexivity.
Qed.

Lemma on_failure_eq env st e w :
  on_failure env st e w =
  if attempts st =? 0 then
    match code_fixer_agent env (clock w) (fix_request env st e) with
    | inr c => (inr (refixed st (code c)), fix_world env st e w)
    | inl e2 => (inl e2, fix_world env st e w)
    end
  else (inr st, log_to w [failure_log env st e]).
Proof.
  unfold on_failure, fix_manim_code, run_sync, bind, emit, tick, lift, ret, raise,
    fix_world, log_to, failure_log, fix_request, refixed. simpl.
  destruct (attempts st =? 0); simpl; [|reflexivity].
  destruct (code_fixer_agent _ _ _); simpl;
    (f_equal; apply world_eq; simpl; [reflexivity..|]; rewrite <- ?app_assoc; reflexivity).
Qed.

Lemma attempt_eq env i st w :
  attempt env i st w =
  match render_attempt env i st w with
  | (inr st1, w1) => (inr (bump st1), w1)
  | (inl e, w1) =>
      match on_failure env st e w1 with
      | (inr st1, w2) => (inr (bump st1), w2)
      | (inl e2, w2) => (inl e2, w2)
      end
  end.
Proof.
  unfold attempt, bind, try_except, ret, bump.
  destruct (render_attempt env i st w) as [[e|st1] w1]; simpl; [|reflexivity].
  destruct (on_failure env st e w1) as [[e2|st1] w2]; reflexivity.
Qed.

Lemma cleanup_quiet name f : quiet (cleanup name f).
Proof. unfold cleanup. destruct (bool_decide _); repeat split. Qed.

Lemma rendered_since env source w f evs :
  since w (rendered env source w f evs)
        (TempCreate (temp_of env w) source :: Spawn (manim_command (temp_of env w))
           :: evs ++ cleanup (temp_of env w) f).
Proof. reflexivity. Qed.

Lemma rendered_counts env source w f evs :
  quiet evs ->
  exists evs', since w (rendered env source w f evs) evs' /\
               renders evs' = 1 /\ fixes evs' = 0 /\ temp_files evs' = 1.
Proof.
  intros (R & F & T). eexists. split; [apply rendered_since|].
  destruct (cleanup_quiet (temp_of env w) f) as (R' & F' & T').
  unfold renders, fixes, temp_files in *. simpl.
  rewrite !List.filter_app, !length_app. rewrite R, F, T, R', F', T'. auto.
Qed.

Lemma rendered_no_temp env source w f evs :
  fs (rendered env source w f evs) !! temp_of env w = None.
Proof. apply lookup_delete_eq. Qed.

(** *** Counting events by kind *)

Lemma count_app p a b : count p (a ++ b) = count p a + count p b.
Proof. unfold count. now rewrite List.filter_app, length_app. Qed.

Lemma count_none p q evs :
  forallb q evs = true -> (forall e, q e = true -> p e = false) -> count p evs = 0.
Proof.
  intros Hq Hd. induction evs as [|e evs IH]; [reflexivity|].
  simpl in Hq. apply andb_prop in Hq as [He Hq].
  unfold count in *. simpl. rewrite (Hd e He). now apply IH.
Qed.

Lemma forallb_weaken {A} (p q : A -> bool) l :
  forallb p l = true -> (forall x, p x = true -> q x = true) -> forallb q l = true.
Proof.
  intros H W. induction l as [|x l IH]; [reflexivity|].
  simpl in *. apply andb_prop in H as [Hx H]. now rewrite (W x Hx), IH.
Qed.

Lemma cleanup_kind name f : forallb wait_kind (cleanup name f) = true.
Proof. unfold cleanup. destruct (bool_decide _); reflexivity. Qed.

Lemma wait_kind_quiet evs : forallb wait_kind evs = true -> quiet evs.
Proof.
  intros K. repeat split;
    (apply (count_none _ wait_kind); [exact K|]; intros [] ?; simpl in *; congruence).
Qed.

Lemma render_kind_counts evs :
  forallb render_kind evs = true ->
  fixes evs = 0 /\ codegens evs = 0 /\ outlines evs = 0 /\ st_warnings evs = 0.
Proof.
  intros K. repeat split;
    (apply (count_none _ render_kind); [exact K|]; intros [] ?; simpl in *; congruence).
Qed.

(** *** The world and the log of a render call *)

(** Once the temporary file is written, every exit of a render call
    leaves a world of the [rendered] shape, on the files the tool left. *)
Lemma create_video_from_code_world env source n w :
  temp_answer env source w = Written ->
  exists evs,
    snd (create_video_from_code env source n w)
    = rendered env source w
               (left_by (tool_answer env source w) (<[temp_of env w := source]> (fs w)))
               evs /\
    forallb wait_kind evs = true /\
    forall t, In (Communicate t) evs -> t = render_timeout.
Proof.
  intros T. rewrite create_video_from_code_eq, T.
  destruct (tool_answer env source w) as [e|after|e after|rc out err after]; simpl.
  - destruct e; eexists; (split; [reflexivity|]); (split; [reflexivity|]);
      unfold timeout_log; simpl; intuition congruence.
  - eexists. split; [reflexivity|]. split; [reflexivity|].
    unfold timeout_log. simpl. intuition congruence.
  - destruct e; eexists; (split; [reflexivity|]); (split; [reflexivity|]);
      unfold timeout_log; simpl; intuition congruence.
  - exists [Communicate render_timeout]. split.
    + destruct (rc =? 0)%Z; [destruct (extract_class_name _ source)|]; reflexivity.
    + split; [reflexivity|]. simpl. intuition congruence.
Qed.

(** What a render call logs, whatever happens to it: its own kinds of
    events, at most one temporary file, and the tool run only on a
    temporary file it created. *)
Lemma render_call_log env source n w :
  exists evs,
    since w (snd (create_video_from_code env source n w)) evs /\
    forallb render_kind evs = true /\
    renders evs <= temp_files evs /\ temp_files evs <= 1 /\
    (forall t, In (Communicate t) evs -> t = render_timeout) /\
    (temp_answer env source w = Written ->
     renders evs = 1 /\ temp_files evs = 1 /\
     In (TempCreate (temp_of env w) source) evs).
Proof.
  destruct (temp_answer env source w) as [e|e part|] eqn:T.
  - exists []. rewrite create_video_from_code_eq, T. simpl.
    split; [unfold since; simpl; now rewrite app_nil_r|].
    split; [reflexivity|].
    split; [unfold renders, temp_files; simpl; lia|].
    split; [unfold temp_files; simpl; lia|].
    split; [intros t []|discriminate].
  - exists [TempCreate (temp_of env w) part]. rewrite create_video_from_code_eq, T. simpl.
    split; [reflexivity|]. split; [reflexivity|].
    split; [unfold renders, temp_files; simpl; lia|].
    split; [unfold temp_files; simpl; lia|].
    split; [|discriminate]. intros t [H|[]]. discriminate H.
  - destruct (create_video_from_code_world env source n w T) as (evs0 & -> & K & Ht).
    set (f := left_by (tool_answer env source w) (<[temp_of env w := source]> (fs w))).
    destruct (rendered_counts env source w f evs0 (wait_kind_quiet _ K))
      as (evs & S & R & _ & Tf).
    rewrite (since_inj _ _ _ _ S (rendered_since env source w f evs0)) in R, Tf.
    eexists. split; [apply rendered_since|].
    assert (K' : forallb wait_kind (evs0 ++ cleanup (temp_of env w) f) = true)
      by (rewrite forallb_app, K, cleanup_kind; reflexivity).
    split.
    { simpl. apply (forallb_weaken wait_kind); [exact K'|].
      intros [] ?; simpl in *; congruence. }
    split; [lia|]. split; [lia|]. split.
    { intros t [H|[H|Hin]]; [discriminate H..|].
      apply in_app_iff in Hin as [Hin|Hin]; [now apply Ht|].
      unfold cleanup in Hin. destruct (bool_decide _); [|destruct Hin].
      destruct Hin as [H|[]]. discriminate H. }
    intros _. split; [exact R|]. split; [exact Tf|]. now left.
Qed.

Lemma render_attempt_world env i st w :
  snd (render_attempt env i st w) =
  snd (create_video_from_code env (manim_code st) (i + 1) w).
Proof.
  rewrite render_attempt_eq.
  destruct (create_video_from_code _ _ _ _) as [[e|p] w1]; simpl; [reflexivity|].
  destruct (bool_decide _); reflexivity.
Qed.

Lemma render_attempt_log env i st w r w1 :
  render_attempt env i st w = (r, w1) ->
  exists evs,
    since w w1 evs /\ forallb render_kind evs = true /\
    renders evs <= temp_files evs /\ temp_files evs <= 1 /\
    (temp_answer env (manim_code st) w = Written ->
     renders evs = 1 /\ temp_files evs = 1 /\
     In (TempCreate (temp_of env w) (manim_code st)) evs).
Proof.
  intros E.
  destruct (render_call_log env (manim_code st) (i + 1) w) as (evs & S & K & H1 & H2 & _ & H3).
  rewrite <- render_attempt_world, E in S. eauto 8.
Qed.

(** A render attempt that succeeds wrote its temporary file, ran the
    tool, and found the clip. *)
Lemma render_attempt_ok env i st w st1 w1 :
  render_attempt env i st w = (inr st1, w1) ->
  exists name,
    extract_class_name (re_classes env) (manim_code st) = inr name /\
    st1 = won st (Py.path_join media_dir (name +:+ ".mp4")) /\
    is_Some (fs w1 !! Py.path_join media_dir (name +:+ ".mp4")) /\
    temp_answer env (manim_code st) w = Written.
Proof.
  rewrite render_attempt_eq, create_video_from_code_eq.
  destruct (temp_answer env _ w); [discriminate..|].
  destruct (tool_answer env _ w) as [e|after|e after|rc out err after].
  - destruct e; discriminate.
  - discriminate.
  - destruct e; discriminate.
  - simpl. destruct (rc =? 0)%Z; [|discriminate].
    destruct (extract_class_name _ (manim_code st)) as [e|name]; [discriminate|].
    destruct (bool_decide _) eqn:B; [|discriminate].
    intros [= <- <-]. exists name. apply bool_decide_eq_true in B. auto.
Qed.

Lemma on_failure_ok env st e w st1 w1 :
  on_failure env st e w = (inr st1, w1) ->
  success st1 = success st /\ attempts st1 = attempts st /\
  video_files st1 = video_files st /\ fs w1 = fs w /\ open_clips w1 = open_clips w.
Proof.
  rewrite on_failure_eq. destruct (attempts st =? 0).
  - destruct (code_fixer_agent _ _ _); [discriminate|]. intros [= <- <-]. auto.
  - intros [= <- <-]. auto.
Qed.

Lemma attempts_loop_done env i k st w :
  2 <= attempts st \/ success st = true ->
  attempts_loop env i k st w = (inr st, w).
Proof.
  intros H.
  assert (C : (attempts st <? 2) && negb (success st) = false).
  { destruct H as [H| ->].
    - apply Nat.ltb_ge in H. now rewrite H.
    - apply andb_false_r. }
  destruct k; simpl; now rewrite C.
Qed.

Lemma attempts_loop_run env i source files w k r w' :
  attempts_loop env i (2 + k) (fresh_attempts source files) w = (r, w') ->
  chapter_run env i source files w r w'.
Proof.
  simpl. unfold bind at 1. rewrite attempt_eq.
  destruct (render_attempt env i (fresh_attempts source files) w) as [[e1|st1] w1] eqn:R1.
  - destruct (on_failure env (fresh_attempts source files) e1 w1) as [[e2|st1] w2] eqn:F1.
    + intros [= <- <-]. eapply Run_fix_raises; eauto.
    + destruct (on_failure_ok _ _ _ _ _ _ F1) as (S1 & A1 & _).
      simpl in S1, A1. simpl. rewrite S1, A1. simpl.
      unfold bind at 1. rewrite attempt_eq.
      destruct (render_attempt env i (bump st1) w2) as [[e3|st2] w3] eqn:R2.
      * rewrite on_failure_eq. simpl. rewrite A1. simpl.
        rewrite attempts_loop_done by (left; simpl; lia).
        intros [= <- <-]. eapply Run_exhausted; eauto.
      * destruct (render_attempt_ok _ _ _ _ _ _ R2) as (name & _ & -> & _).
        rewrite attempts_loop_done by (right; reflexivity).
        intros [= <- <-]. eapply (Run_second _ _ _ _ _ e1 w1 st1 w2); eauto.
  - destruct (render_attempt_ok _ _ _ _ _ _ R1) as (name & _ & -> & _).
    simpl. intros [= <- <-]. eapply (Run_first); eauto.
Qed.

Lemma chapter_run_det env i source files w r1 w1 r2 w2 :
  chapter_run env i source files w r1 w1 ->
  chapter_run env i source files w r2 w2 -> r1 = r2 /\ w1 = w2.
Proof.
  intros H1 H2; destruct H1; destruct H2;
    repeat match goal with
           | H1 : ?x = _, H2 : ?x = _ |- _ =>
               rewrite H1 in H2; inversion H2; clear H2; subst
           end; auto.
Qed.


(** ** A chapter's turn and the chapter loop *)

Lemma generate_manim_code_eq env chapter w :
  generate_manim_code env chapter w =
  match manim_agent env (clock w) (codegen_prompt chapter) with
  | inr c => (inr (code c), codegen_world chapter w)
  | inl e => (inl e, codegen_world chapter w)
  end.
Proof.
  unfold generate_manim_code, run_sync, bind, emit, tick, lift, ret, raise,
    codegen_world. simpl.
  destruct (manim_agent _ _ _); simpl;
    (f_equal; apply world_eq; simpl; [reflexivity..|]; rewrite <- ?app_assoc; reflexivity).
Qed.

Lemma process_chapter_eq env i chapter files w :
  process_chapter env i chapter files w =
  match generate_manim_code env chapter w with
  | (inl e, w0) => (inl e, w0)
  | (inr source, w0) =>
      match attempts_loop env i 2 (fresh_attempts source files) w0 with
      | (inl e, w1) => (inl e, w1)
      | (inr st, w1) =>
          (inr (video_files st),
           if success st then w1 else log_to w1 (skip_log i chapter))
      end
  end.
Proof.
  unfold process_chapter, bind.
  destruct (generate_manim_code env chapter w) as [[e|source] w0]; [reflexivity|].
  destruct (attempts_loop _ _ _ _ _) as [[e|st] w1]; [reflexivity|].
  destruct (success st); simpl; [reflexivity|].
  unfold emit, ret, log_to, skip_log. simpl. f_equal.
  apply world_eq; simpl; [reflexivity..|]. now rewrite <- app_assoc.
Qed.

(** *** Framing: the files collected so far ride along untouched *)

Lemma prepend_bump files st : prepend files (bump st) = bump (prepend files st).
Proof. reflexivity. Qed.

Lemma render_attempt_frame env i st files w :
  render_attempt env i (prepend files st) w =
  match render_attempt env i st w with
  | (inr st1, w1) => (inr (prepend files st1), w1)
  | (inl e, w1) => (inl e, w1)
  end.
Proof.
  rewrite !render_attempt_eq. simpl.
  destruct (create_video_from_code _ _ _ _) as [[e|p] w1]; [reflexivity|].
  destruct (bool_decide _); [|reflexivity].
  unfold won, prepend. simpl. now rewrite app_assoc.
Qed.

Lemma on_failure_frame env st e files w :
  on_failure env (prepend files st) e w =
  match on_failure env st e w with
  | (inr st1, w1) => (inr (prepend files st1), w1)
  | (inl e2, w1) => (inl e2, w1)
  end.
Proof.
  rewrite !on_failure_eq. simpl. destruct (attempts st =? 0); [|reflexivity].
  unfold fix_request. simpl. destruct (code_fixer_agent _ _ _); reflexivity.
Qed.

Lemma fresh_prepend source files :
  fresh_attempts source files = prepend files (fresh_attempts source []).
Proof. unfold fresh_attempts, prepend. simpl. now rewrite app_nil_r. Qed.

Lemma chapter_run_frame env i source files w r w' :
  chapter_run env i source [] w r w' ->
  chapter_run env i source files w
    (match r with inr st => inr (prepend files st) | inl e => inl e end) w'.
Proof.
  intros H. destruct H as [st1 w1 R1|e1 w1 e2 w2 R1 F1|e1 w1 st1 w2 st2 w3 R1 F1 R2
                           |e1 w1 st1 w2 e3 w3 R1 F1 R2].
  - rewrite prepend_bump. apply Run_first.
    rewrite fresh_prepend, render_attempt_frame, R1. reflexivity.
  - eapply Run_fix_raises.
    + rewrite fresh_prepend, render_attempt_frame, R1. reflexivity.
    + rewrite fresh_prepend, on_failure_frame, F1. reflexivity.
  - rewrite prepend_bump. eapply (Run_second _ _ _ _ _ e1 w1 (prepend files st1) w2).
    + rewrite fresh_prepend, render_attempt_frame, R1. reflexivity.
    + rewrite fresh_prepend, on_failure_frame, F1. reflexivity.
    + rewrite <- prepend_bump, render_attempt_frame, R2. reflexivity.
  - rewrite !prepend_bump.
    change (failure_log env (bump st1) e3)
      with (failure_log env (bump (prepend files st1)) e3).
    eapply (Run_exhausted _ _ _ _ _ e1 w1 (prepend files st1) w2).
    + rewrite fresh_prepend, render_attempt_frame, R1. reflexivity.
    + rewrite fresh_prepend, on_failure_frame, F1. reflexivity.
    + rewrite <- prepend_bump, render_attempt_frame, R2. reflexivity.
Qed.

Lemma attempts_loop_frame env i source files w :
  attempts_loop env i 2 (fresh_attempts source files) w =
  match attempts_loop env i 2 (fresh_attempts source []) w with
  | (inr st, w1) => (inr (prepend files st), w1)
  | (inl e, w1) => (inl e, w1)
  end.
Proof.
  destruct (attempts_loop env i 2 (fresh_attempts source files) w) as [r1 w1] eqn:E1.
  destruct (attempts_loop env i 2 (fresh_attempts source []) w) as [r2 w2] eqn:E2.
  apply (attempts_loop_run _ _ _ _ _ 0) in E1.
  apply (attempts_loop_run _ _ _ _ _ 0), (chapter_run_frame _ _ _ files) in E2.
  destruct (chapter_run_det _ _ _ _ _ _ _ _ _ E1 E2) as [-> ->].
  destruct r2; reflexivity.
Qed.

(** What a chapter contributes when it starts from no files at all. *)
Lemma chapter_run_files env i source w st w' :
  chapter_run env i source [] w (inr st) w' ->
  (success st = false /\ video_files st = []) \/
  (success st = true /\ exists name src,
      extract_class_name (re_classes env) src = inr name /\
      video_files st = [Py.path_join media_dir (name +:+ ".mp4")]).
Proof.
  intros H. inversion H as [st1 w1 R1|e1 w1 e2 w2 R1 F1|e1 w1 st1 w2 st2 w3 R1 F1 R2
                            |e1 w1 st1 w2 e3 w3 R1 F1 R2]; subst.
  - apply render_attempt_ok in R1 as (name & E & -> & _). right. split; [reflexivity|].
    exists name, source. auto.
  - apply on_failure_ok in F1 as (_ & _ & F & _).
    apply render_attempt_ok in R2 as (name & E & -> & _). right. split; [reflexivity|].
    exists name, (manim_code st1). simpl in *. rewrite F. auto.
  - apply on_failure_ok in F1 as (S1 & _ & F & _). left. simpl in *. auto.
Qed.

Lemma process_chapter_frame env i chapter files w :
  process_chapter env i chapter files w =
  match process_chapter env i chapter [] w with
  | (inr l, w1) => (inr (files ++ l), w1)
  | (inl e, w1) => (inl e, w1)
  end.
Proof.
  rewrite !process_chapter_eq.
  destruct (generate_manim_code env chapter w) as [[e|source] w0]; [reflexivity|].
  rewrite attempts_loop_frame.
  destruct (attempts_loop env i 2 (fresh_attempts source []) w0) as [[e|st] w1];
    reflexivity.
Qed.

Lemma process_chapter_contribution env i chapter w l w1 :
  process_chapter env i chapter [] w = (inr l, w1) ->
  l = from_option (fun p => [p]) [] (chapter_result env i chapter w).
Proof.
  intros E. unfold chapter_result. rewrite E.
  rewrite process_chapter_eq in E.
  destruct (generate_manim_code env chapter w) as [[e|source] w0]; [discriminate|].
  destruct (attempts_loop env i 2 (fresh_attempts source []) w0) as [[e|st] w2] eqn:L;
    [discriminate|].
  injection E as <- _.
  apply (attempts_loop_run _ _ _ _ _ 0), chapter_run_files in L
      as [[_ ->]|(_ & name & src & _ & ->)]; reflexivity.
Qed.

Lemma chapters_loop_results env chs : forall i files w out w',
  chapters_loop env i chs files w = (inr out, w') ->
  out = files ++ omap id (chapter_results env i chs w).
Proof.
  induction chs as [|chapter rest IH]; intros i files w out w'; simpl.
  - intros [= <- <-]. now rewrite app_nil_r.
  - unfold bind. rewrite process_chapter_frame. unfold after_chapter.
    destruct (process_chapter env i chapter [] w) as [[e|l] w1] eqn:P; [discriminate|].
    intros H. apply IH in H. simpl. rewrite H, <- app_assoc. f_equal.
    rewrite (process_chapter_contribution _ _ _ _ _ _ P).
    destruct (chapter_result env i chapter w); reflexivity.
Qed.

Lemma chapter_results_length env chs : forall i w,
  List.length (chapter_results env i chs w) = List.length chs.
Proof. induction chs; intros; simpl; [reflexivity | now rewrite IHchs]. Qed.

(** ** Assembly *)

Lemma open_existing_ok env files : forall w clips w1,
  open_existing env files w = (inr clips, w1) ->
  fs w1 = fs w /\
  map Py.clip_path clips = kept (fs w) files /\
  map Py.clip_data clips = omap (fun p => fs w !! p) files /\
  open_clips w1 = open_clips w ++ kept (fs w) files /\
  since w w1 (map ClipOpen (kept (fs w) files)).
Proof.
  induction files as [|vf rest IH]; intros w clips w1; simpl.
  - intros [= <- <-]. unfold since. rewrite !app_nil_r. auto.
  - unfold bind at 1, Py.path_exists at 1, bind at 1, get_fs at 1, ret at 1.
    unfold kept, present_in in *. simpl.
    destruct (fs w !! vf) as [d|] eqn:L; simpl.
    + unfold bind at 1, Py.video_file_clip, bind at 1, tick at 1,
        bind at 1, get_fs at 1. simpl. rewrite L.
      destruct (video_open env (clock w) vf); [discriminate|].
      unfold bind, get_clips, set_clips, emit, ret. simpl.
      match goal with |- context [open_existing env rest ?w0] =>
        destruct (open_existing env rest w0) as [[e|cs] w2] eqn:O end;
        [discriminate|].
      intros [= <- <-]. apply IH in O as (F & P & D & C & T). simpl in *.
      rewrite F, P, D, C. repeat split; try reflexivity.
      * now rewrite <- app_assoc.
      * unfold since in *. simpl in *. rewrite T, <- app_assoc. reflexivity.
    + intros O. apply IH in O. exact O.
Qed.

Lemma close_all_eq clips : forall w,
  close_all clips w =
  (inr tt, {| fs := fs w;
              open_clips := fold_left (fun l c => Py.remove_first (Py.clip_path c) l)
                                      clips (open_clips w);
              clock := clock w;
              trace := trace w ++ map ClipClose (map Py.clip_path clips) |}).
Proof.
  induction clips as [|c rest IH]; intros w; simpl.
  - unfold ret. f_equal. apply world_eq; simpl; auto. now rewrite app_nil_r.
  - unfold bind at 1, Py.close, bind, get_clips, set_clips, emit, ret. simpl.
    rewrite IH. simpl. f_equal. apply world_eq; simpl; auto.
    now rewrite <- app_assoc.
Qed.

(** Opening the clips, whether or not it gets to the end: files are left
    alone, and the handles opened so far are those of a prefix of the
    clips still on disk. *)
Lemma open_existing_log env files : forall w r w1,
  open_existing env files w = (r, w1) ->
  exists opened,
    fs w1 = fs w /\
    open_clips w1 = open_clips w ++ opened /\
    since w w1 (map ClipOpen opened) /\
    match r with
    | inr clips => opened = kept (fs w) files /\ map Py.clip_path clips = opened
    | inl _ => List.length opened < List.length (kept (fs w) files)
    end.
Proof.
  induction files as [|vf rest IH]; intros w r w1; simpl.
  - intros [= <- <-]. exists []. unfold since. rewrite !app_nil_r. auto.
  - unfold bind at 1, Py.path_exists at 1, bind at 1, get_fs at 1, ret at 1.
    unfold kept, present_in in *. simpl.
    destruct (fs w !! vf) as [d|] eqn:L; simpl.
    + unfold bind at 1, Py.video_file_clip, bind at 1, tick at 1,
        bind at 1, get_fs at 1. simpl. rewrite L.
      destruct (video_open env (clock w) vf) as [e|].
      { unfold raise. intros [= <- <-]. exists []. simpl.
        unfold since. simpl. rewrite !app_nil_r. repeat split; lia. }
      unfold bind, get_clips, set_clips, emit, ret. simpl.
      match goal with |- context [open_existing env rest ?w0] =>
        destruct (open_existing env rest w0) as [r0 w2] eqn:O end.
      apply IH in O as (opened & F & C & T & R). simpl in *.
      assert (T' : since w w2 (map ClipOpen (vf :: opened))).
      { unfold since in *. simpl in *. rewrite T, <- app_assoc. reflexivity. }
      assert (C' : open_clips w2 = open_clips w ++ vf :: opened).
      { rewrite C. now rewrite <- app_assoc. }
      destruct r0 as [e|cs]; intros [= <- <-]; exists (vf :: opened);
        (split; [exact F|]); (split; [exact C'|]); (split; [exact T'|]).
      * simpl. lia.
      * destruct R as [-> R]. simpl. now rewrite R.
    + intros O. apply IH in O. exact O.
Qed.

(** The assembly in closed form. *)
Lemma assemble_eq env files w :
  assemble env files w =
  match files with
  | [] => (inr None, log_to w [no_chapters_warning])
  | _ :: _ =>
      match open_existing env files w with
      | (inl e, w1) => (inr None, log_to w1 (combine_log env e))
      | (inr [], w1) => (inr None, log_to w1 [no_clips_warning])
      | (inr clips, w1) =>
          match video_write env (clock w1) final_path with
          | WriteRaises e part => (inr None, write_failed env clips e part w1)
          | WriteReturns written =>
              (inr (Some final_path), assembled clips written w1)
          end
      end
  end.
Proof.
  unfold assemble. destruct files as [|vf rest].
  - unfold bind, emit, ret. reflexivity.
  - unfold try_except. unfold bind at 1.
    destruct (open_existing env (vf :: rest) w) as [[e|clips] w1].
    + unfold bind, emit, ret, log_to, combine_log, combine_error. simpl.
      f_equal. apply world_eq; simpl; auto. now rewrite <- app_assoc.
    + destruct clips as [|c cs].
      * unfold bind, emit, ret. reflexivity.
      * set (clips := c :: cs) in *.
        unfold bind at 1, Py.concatenate_videoclips, bind at 1, emit at 1, ret at 1.
        unfold bind at 1, Py.write_videofile, bind at 1, tick at 1.
        unfold bind at 1, get_fs at 1.
        cbn [clock fs].
        destruct (video_write env (clock w1) final_path) as [e part|written].
        { destruct part as [d|];
            unfold bind, set_fs, emit, ret, raise, write_failed, combine_log,
              combine_error;
            cbn [fs open_clips clock trace]; f_equal; apply world_eq; simpl; auto;
            rewrite <- !app_assoc; reflexivity. }
        destruct written;
          unfold bind at 1 2 3 4, set_fs, ret at 1, Py.close_final, emit at 1 2;
          rewrite close_all_eq;
          unfold bind, emit, ret, assembled;
          cbn [fs open_clips clock trace Py.clip_data]; f_equal;
          apply world_eq; cbn [fs open_clips clock trace]; auto;
          rewrite <- !app_assoc; reflexivity.
Qed.

Lemma assemble_total env files w :
  exists r w', assemble env files w = (inr r, w').
Proof.
  rewrite assemble_eq. destruct files as [|vf rest]; [eauto|].
  destruct (open_existing env (vf :: rest) w) as [[e|[|c cs]] w1]; eauto.
  destruct (video_write env (clock w1) final_path); eauto.
Qed.

Lemma write_answer_eq env files w r w1 :
  open_existing env files w = (r, w1) ->
  write_answer env files w = video_write env (clock w1) final_path.
Proof. unfold write_answer. now intros ->. Qed.

Lemma assemble_some env files w p w' :
  assemble env files w = (inr (Some p), w') ->
  p = final_path /\
  files <> [] /\ kept (fs w) files <> [] /\
  (exists written,
      write_answer env files w = WriteReturns written /\
      fs w' = if written then <[final_path := joined (fs w) files]> (fs w)
              else fs w) /\
  since w w' (assembly_log (kept (fs w) files)).
Proof.
  rewrite assemble_eq. destruct files as [|vf rest]; [discriminate|].
  destruct (open_existing env (vf :: rest) w) as [[e|clips] w1] eqn:O; [discriminate|].
  rewrite (write_answer_eq _ _ _ _ _ O).
  apply open_existing_ok in O as (F & P & D & C & T).
  destruct clips as [|c cs]; [discriminate|].
  set (clips := c :: cs) in *.
  destruct (video_write env (clock w1) final_path) as [e part|written]; [discriminate|].
  intros [= <- <-]. split; [reflexivity|]. split; [discriminate|].
  split; [rewrite <- P; discriminate|]. split.
  - exists written. split; [reflexivity|]. unfold assembled. cbn [fs].
    rewrite F. unfold joined. rewrite <- D. reflexivity.
  - unfold since, assembly_log, assembled in *. cbn [trace]. rewrite T, <- P.
    rewrite <- !app_assoc. reflexivity.
Qed.

Lemma generate_video_outline_eq env concept w :
  generate_video_outline env concept w =
  (outline_agent env (clock w) concept, outline_world concept w).
Proof.
  unfold generate_video_outline, run_sync, bind, emit, tick, lift, ret, raise,
    outline_world. simpl.
  destruct (outline_agent _ _ _); simpl;
    (f_equal; apply world_eq; simpl; [reflexivity..|]; rewrite <- ?app_assoc; reflexivity).
Qed.

Lemma generate_video_eq env concept w :
  generate_video env concept w =
  match outline_agent env (clock w) concept with
  | inl e => (inl e, outline_world concept w)
  | inr outline =>
      match chapters_loop env 0 (chapters outline) [] (outline_world concept w) with
      | (inl e, w1) => (inl e, w1)
      | (inr files, w1) => assemble env files w1
      end
  end.
Proof.
  unfold generate_video, bind. rewrite generate_video_outline_eq.
  destruct (outline_agent _ _ _); reflexivity.
Qed.

(** ** What a render call returns *)

Lemma word_not_slash cls c : is_word cls c = true -> Ascii.eqb c "/"%char = false.
Proof.
  intros W. destruct (Ascii.eqb_spec c "/"%char) as [->|]; [|reflexivity].
  rewrite (delimiter_not_word cls "/"%char eq_refl) in W. discriminate.
Qed.

Lemma clip_path_join cls name :
  name <> "" -> all_of (is_word cls) name = true ->
  Py.path_join media_dir (name +:+ ".mp4") = media_dir +:+ name +:+ ".mp4".
Proof.
  intros Hn Hw. unfold Py.path_join.
  destruct name as [|c name]; [congruence|].
  unfold all_of in Hw. simpl in Hw. apply andb_prop in Hw as [Hc _].
  simpl. now rewrite (word_not_slash _ _ Hc).
Qed.

Lemma create_video_from_code_ok env source n w p w' :
  create_video_from_code env source n w = (inr p, w') ->
  exists name out err after,
    extract_class_name (re_classes env) source = inr name /\
    p = media_dir +:+ name +:+ ".mp4" /\
    temp_answer env source w = Written /\
    tool_answer env source w = Exits 0 out err after /\
    w' = rendered env source w after [Communicate render_timeout].
Proof.
  rewrite create_video_from_code_eq.
  destruct (temp_answer env source w); [discriminate..|].
  destruct (tool_answer env source w) as [e|after|e after|rc out err after].
  - destruct e; discriminate.
  - discriminate.
  - destruct e; discriminate.
  - destruct (rc =? 0)%Z eqn:Hrc; [|discriminate].
    apply Z.eqb_eq in Hrc as ->.
    destruct (extract_class_name _ source) as [e|name] eqn:E; [discriminate|].
    intros [= <- <-]. exists name, out, err, after.
    destruct (extract_name_word _ _ _ E) as [Hn Hw].
    rewrite (clip_path_join _ _ Hn Hw). auto.
Qed.

Lemma attempt_raises_from_fixer env i st w e w' :
  attempt env i st w = (inl e, w') ->
  attempts st = 0 /\
  exists e1 w1, render_attempt env i st w = (inl e1, w1) /\
                code_fixer_agent env (clock w1) (fix_request env st e1) = inl e /\
                w' = fix_world env st e1 w1.
Proof.
  rewrite attempt_eq.
  destruct (render_attempt env i st w) as [[e1|st1] w1]; [|discriminate].
  rewrite on_failure_eq. destruct (attempts st =? 0) eqn:A; [|discriminate].
  apply Nat.eqb_eq in A.
  destruct (code_fixer_agent _ _ _) as [e2|c] eqn:F; [|discriminate].
  intros [= <- <-]. split; [assumption|]. exists e1, w1. auto.
Qed.

Lemma on_failure_first env source files e w :
  on_failure env (fresh_attempts source files) e w =
  (match code_fixer_agent env (clock w) (fix_prompt (Py.str env e) source) with
   | inr c => inr (refixed (fresh_attempts source files) (code c))
   | inl e2 => inl e2
   end, fix_world env (fresh_attempts source files) e w).
Proof.
  rewrite on_failure_eq. simpl. unfold fix_request. simpl.
  destruct (code_fixer_agent _ _ _); reflexivity.
Qed.

Lemma fix_world_since env st e w :
  since w (fix_world env st e w)
        [failure_log env st e; LogInfo "Fixing Manim code after error...";
         RunFixer (fix_request env st e)].
Proof. reflexivity. Qed.

Lemma no_fix_in evs p : fixes evs = 0 -> ~ In (RunFixer p) evs.
Proof.
  intros F Hin. unfold fixes in F.
  assert (Hf : In (RunFixer p) (List.filter is_fix evs)) by (apply filter_In; auto).
  destruct (List.filter is_fix evs); [destruct Hf | discriminate].
Qed.

Lemma fix_in_fix_log env st e p :
  In (RunFixer p) [failure_log env st e; LogInfo "Fixing Manim code after error...";
                   RunFixer (fix_request env st e)]
  <-> p = fix_request env st e.
Proof.
  unfold failure_log. simpl. split.
  - intros [H|[H|[H|[]]]]; try discriminate H. now injection H.
  - intros ->. auto.
Qed.

(** What a chapter's retry loop logs, path by path. *)
Lemma chapter_run_counts env i source files w r w' :
  chapter_run env i source files w r w' ->
  exists evs,
    since w w' evs /\
    renders evs <= 2 /\ temp_files evs <= 2 /\ renders evs <= temp_files evs /\
    ((exists st1, render_attempt env i (fresh_attempts source files) w = (inr st1, w')
                  /\ r = inr (bump st1))
     /\ renders evs = 1 /\ fixes evs = 0
     \/
     exists e1 w1,
       render_attempt env i (fresh_attempts source files) w = (inl e1, w1) /\
       fixes evs = 1 /\
       (forall p, In (RunFixer p) evs <-> p = fix_prompt (Py.str env e1) source) /\
       ((exists e2, r = inl e2 /\
                    code_fixer_agent env (clock w1) (fix_prompt (Py.str env e1) source)
                    = inl e2 /\
                    (temp_answer env source w = Written -> renders evs = 1))
        \/
        (exists st c, r = inr st /\ attempts st = 2 /\
                      code_fixer_agent env (clock w1)
                        (fix_prompt (Py.str env e1) source) = inr c /\
                      (temp_answer env source w = Written ->
                       temp_answer env (code c)
                         (fix_world env (fresh_attempts source files) e1 w1) = Written ->
                       renders evs = 2)))).
Proof.
  set (fix_log := fun e1 =>
         [failure_log env (fresh_attempts source files) e1;
          LogInfo "Fixing Manim code after error...";
          RunFixer (fix_request env (fresh_attempts source files) e1)]).
  assert (Q : forall e1, renders (fix_log e1) = 0 /\ temp_files (fix_log e1) = 0
                         /\ fixes (fix_log e1) = 1) by (intros; repeat split).
  intros H. destruct H as [st1 w1 R1|e1 w1 e2 w2 R1 F1|e1 w1 st1 w2 st2 w3 R1 F1 R2
                           |e1 w1 st1 w2 e3 w3 R1 F1 R2].
  - destruct (render_attempt_log _ _ _ _ _ _ R1) as (evs & S & K & Le & T1 & W).
    destruct (render_kind_counts evs K) as (F & _).
    apply render_attempt_ok in R1 as R1'. destruct R1' as (_ & _ & _ & _ & Wr).
    destruct (W Wr) as (R & T & _).
    exists evs. split; [assumption|]. repeat split; try lia. left. eauto.
  - destruct (render_attempt_log _ _ _ _ _ _ R1) as (evs & S & K & Le & T1 & W).
    destruct (render_kind_counts evs K) as (F & _).
    rewrite on_failure_first in F1. injection F1 as F1 <-.
    destruct (Q e1) as (Q1 & Q2 & Q3).
    exists (evs ++ fix_log e1). split; [eapply since_trans; [exact S | apply fix_world_since]|].
    rewrite fixes_app, renders_app, temp_files_app, Q1, Q2, Q3, F.
    repeat split; try lia.
    right. exists e1, w1. split; [assumption|]. split; [reflexivity|]. split.
    + intros p. unfold fix_log. rewrite in_app_iff, fix_in_fix_log.
      pose proof (no_fix_in evs p F). unfold fix_request. simpl. tauto.
    + left. exists e2. split; [reflexivity|]. split.
      * destruct (code_fixer_agent _ _ _); congruence.
      * intros Wr. destruct (W Wr) as (R & _). lia.
  - destruct (render_attempt_log _ _ _ _ _ _ R1) as (evs & S & K & Le & T1 & W).
    destruct (render_attempt_log _ _ _ _ _ _ R2) as (evs2 & S2 & K2 & Le2 & T2 & W2).
    destruct (render_kind_counts evs K) as (F & _).
    destruct (render_kind_counts evs2 K2) as (Fb & _).
    rewrite on_failure_first in F1. injection F1 as F1 <-.
    destruct (Q e1) as (Q1 & Q2 & Q3).
    exists ((evs ++ fix_log e1) ++ evs2). split.
    { eapply since_trans; [eapply since_trans; [exact S | apply fix_world_since]|exact S2]. }
    rewrite !fixes_app, !renders_app, !temp_files_app, Q1, Q2, Q3, F, Fb.
    repeat split; try lia.
    right. exists e1, w1. split; [assumption|]. split; [reflexivity|]. split.
    + intros p. unfold fix_log. rewrite !in_app_iff, fix_in_fix_log.
      pose proof (no_fix_in evs p F). pose proof (no_fix_in evs2 p Fb).
      unfold fix_request. simpl. tauto.
    + right. destruct (code_fixer_agent _ _ _) as [|c] eqn:Fx; [discriminate|].
      injection F1 as <-.
      apply render_attempt_ok in R2 as R2'. destruct R2' as (name & _ & -> & _ & Wr2).
      eexists _, c. split; [reflexivity|]. split; [reflexivity|]. split; [reflexivity|].
      intros Wr _. destruct (W Wr) as (R & _). destruct (W2 Wr2) as (Rb & _). lia.
  - destruct (render_attempt_log _ _ _ _ _ _ R1) as (evs & S & K & Le & T1 & W).
    destruct (render_attempt_log _ _ _ _ _ _ R2) as (evs2 & S2 & K2 & Le2 & T2 & W2).
    destruct (render_kind_counts evs K) as (F & _).
    destruct (render_kind_counts evs2 K2) as (Fb & _).
    rewrite on_failure_first in F1. injection F1 as F1 <-.
    destruct (Q e1) as (Q1 & Q2 & Q3).
    exists (((evs ++ fix_log e1) ++ evs2) ++ [failure_log env (bump st1) e3]). split.
    { eapply since_trans;
        [eapply since_trans; [eapply since_trans; [exact S | apply fix_world_since]|exact S2]|].
      unfold since, log_to. simpl. reflexivity. }
    assert (Z1 : renders [failure_log env (bump st1) e3] = 0) by reflexivity.
    assert (Z2 : temp_files [failure_log env (bump st1) e3] = 0) by reflexivity.
    assert (Z3 : fixes [failure_log env (bump st1) e3] = 0) by reflexivity.
    rewrite !fixes_app, !renders_app, !temp_files_app, Q1, Q2, Q3, F, Fb, Z1, Z2, Z3.
    repeat split; try lia.
    right. exists e1, w1. split; [assumption|]. split; [reflexivity|]. split.
    + intros p. unfold fix_log. rewrite !in_app_iff, fix_in_fix_log.
      pose proof (no_fix_in evs p F). pose proof (no_fix_in evs2 p Fb).
      unfold fix_request, failure_log. simpl.
      split; [|tauto]. intros [[[?|?]|?]|[Hin|[]]]; try tauto. discriminate Hin.
    + right. destruct (code_fixer_agent _ _ _) as [|c] eqn:Fx; [discriminate|].
      injection F1 as <-.
      eexists _, c. split; [reflexivity|]. split; [reflexivity|]. split; [reflexivity|].
      intros Wr Wr2. destruct (W Wr) as (R & _). destruct (W2 Wr2) as (Rb & _). lia.
Qed.

Lemma attempts_loop_returns env i source files w :
  (forall t p, exists c, code_fixer_agent env t p = inr c) ->
  exists st w', attempts_loop env i 2 (fresh_attempts source files) w = (inr st, w').
Proof.
  intros Fix.
  destruct (attempts_loop env i 2 (fresh_attempts source files) w) as [r w'] eqn:L.
  pose proof (attempts_loop_run _ _ _ _ _ 0 _ _ L) as H.
  destruct H as [st1 w1 R1|e1 w1 e2 w2 R1 F1|e1 w1 st1 w2 st2 w3 R1 F1 R2
                 |e1 w1 st1 w2 e3 w3 R1 F1 R2]; eauto.
  rewrite on_failure_first in F1.
  destruct (Fix (clock w1) (fix_prompt (Py.str env e1) source)) as [c Hc].
  rewrite Hc in F1. discriminate.
Qed.

Lemma process_chapter_returns env i chapter files w :
  (forall t p, exists c, manim_agent env t p = inr c) ->
  (forall t p, exists c, code_fixer_agent env t p = inr c) ->
  exists out w', process_chapter env i chapter files w = (inr out, w').
Proof.
  intros Gen Fix. rewrite process_chapter_eq, generate_manim_code_eq.
  destruct (Gen (clock w) (codegen_prompt chapter)) as [c ->].
  destruct (attempts_loop_returns env i (code c) files (codegen_world chapter w) Fix)
    as (st & w' & ->).
  eauto.
Qed.

Lemma chapters_loop_returns env chs :
  (forall t p, exists c, manim_agent env t p = inr c) ->
  (forall t p, exists c, code_fixer_agent env t p = inr c) ->
  forall i files w, exists out w', chapters_loop env i chs files w = (inr out, w').
Proof.
  intros Gen Fix. induction chs as [|chapter rest IH]; intros i files w; simpl.
  - unfold ret. eauto.
  - unfold bind.
    destruct (process_chapter_returns env i chapter files w Gen Fix) as (out & w1 & ->).
    apply IH.
Qed.

(** Every chapter's turn only appends to the trace, and asks for its code. *)
Lemma process_chapter_since env i chapter files w :
  exists evs, since w (snd (process_chapter env i chapter files w)) evs /\
              In (RunManim (codegen_prompt chapter)) evs.
Proof.
  rewrite process_chapter_eq, generate_manim_code_eq.
  assert (S0 : since w (codegen_world chapter w)
                 [LogInfo ("Generating Manim code for: " +:+ chapter_title chapter);
                  RunManim (codegen_prompt chapter)]) by reflexivity.
  destruct (manim_agent env (clock w) (codegen_prompt chapter)) as [e|c].
  - eexists. split; [exact S0|]. simpl. auto.
  - destruct (attempts_loop env i 2 _ (codegen_world chapter w)) as [r w1] eqn:L.
    apply (attempts_loop_run _ _ _ _ _ 0), chapter_run_counts in L as (evs & S & _).
    destruct r as [e|st]; simpl.
    + eexists. split; [eapply since_trans; eauto|]. simpl. auto.
    + destruct (success st).
      * eexists. split; [eapply since_trans; eauto|]. simpl. auto.
      * eexists. split.
        { eapply since_trans; [eapply since_trans; eauto|].
          unfold since, log_to. simpl. reflexivity. }
        simpl. auto.
Qed.

Lemma chapters_loop_visits env chs : forall i files w out w',
  chapters_loop env i chs files w = (inr out, w') ->
  exists evs, since w w' evs /\
              forall chapter, In chapter chs -> In (RunManim (codegen_prompt chapter)) evs.
Proof.
  induction chs as [|chapter rest IH]; intros i files w out w'; simpl.
  - intros [= <- <-]. exists []. split; [apply since_refl | tauto].
  - unfold bind.
    destruct (process_chapter_since env i chapter files w) as (evs1 & S1 & V1).
    destruct (process_chapter env i chapter files w) as [[e|files1] w1]; [discriminate|].
    intros L. apply IH in L as (evs2 & S2 & V2).
    exists (evs1 ++ evs2). split; [eapply since_trans; eauto|].
    intros c [<-|Hin]; apply in_app_iff; auto.
Qed.

Lemma generate_video_propagates env concept w outline e w' :
  outline_agent env (clock w) concept = inr outline ->
  chapters_loop env 0 (chapters outline) [] (outline_world concept w) = (inl e, w') ->
  generate_video env concept w = (inl e, w').
Proof. intros O L. now rewrite generate_video_eq, O, L. Qed.

(* ===================================================================== *)
(** * Part III: the claims                                                *)
(* ===================================================================== *)

(** Name the outcome of a concrete run and evaluate it: afterwards [E]
    equates the run with its value and final world. *)
Ltac evaluate t E :=
  let r := fresh "r" in
  let w := fresh "w" in
  let E' := fresh "E" in
  destruct t as [r w] eqn:E;
  pose proof E as E'; vm_compute in E'; injection E' as <- <-.

(** C1, as the code has it. Failures of a render attempt never leave
    [generate_video]: when the code-generation and code-fix backends
    answer, every chapter is visited and a result is returned. A failure
    of scene-code generation is not caught: the exception leaves the
    chapter loop at once, with no render attempt made for the chapter and
    no later chapter visited; so does a failure of the code-fix step,
    after the one failed render; and what leaves the chapter loop leaves
    [generate_video]. *)
Theorem render_failures_contained_backend_failures_escape :
  (forall env,
      (forall t p, exists c, manim_agent env t p = inr c) ->
      (forall t p, exists c, code_fixer_agent env t p = inr c) ->
      (forall chs i files w,
          exists out w' evs,
            chapters_loop env i chs files w = (inr out, w') /\
            since w w' evs /\
            forall chapter, In chapter chs ->
                            In (RunManim (codegen_prompt chapter)) evs) /\
      (forall concept w outline,
          outline_agent env (clock w) concept = inr outline ->
          exists r w', generate_video env concept w = (inr r, w'))) /\
  (forall env i chapter rest files w e,
      manim_agent env (clock w) (codegen_prompt chapter) = inl e ->
      chapters_loop env i (chapter :: rest) files w
      = (inl e, codegen_world chapter w)) /\
  (forall env i chapter rest files w source e1 w1 e2,
      manim_agent env (clock w) (codegen_prompt chapter) = inr source ->
      render_attempt env i (fresh_attempts (code source) files)
                     (codegen_world chapter w) = (inl e1, w1) ->
      code_fixer_agent env (clock w1) (fix_prompt (Py.str env e1) (code source))
      = inl e2 ->
      chapters_loop env i (chapter :: rest) files w
      = (inl e2, fix_world env (fresh_attempts (code source) files) e1 w1)) /\
  (forall env concept w outline e w',
      outline_agent env (clock w) concept = inr outline ->
      chapters_loop env 0 (chapters outline) [] (outline_world concept w)
      = (inl e, w') ->
      generate_video env concept w = (inl e, w')).
Proof.
  split; [|split; [|split]].
  - intros env Gen Fix. split.
    + intros chs i files w.
      destruct (chapters_loop_returns env chs Gen Fix i files w) as (out & w' & L).
      destruct (chapters_loop_visits _ _ _ _ _ _ _ L) as (evs & S & V).
      exists out, w', evs. auto.
    + intros concept w outline O. rewrite generate_video_eq, O.
      destruct (chapters_loop_returns env (chapters outline) Gen Fix 0 []
                  (outline_world concept w)) as (out & w1 & ->).
      apply assemble_total.
  - intros env i chapter rest files w e G. simpl. unfold bind.
    now rewrite process_chapter_eq, generate_manim_code_eq, G.
  - intros env i chapter rest files w source e1 w1 e2 G R F. simpl. unfold bind.
    rewrite process_chapter_eq, generate_manim_code_eq, G.
    destruct (attempts_loop env i 2 _ (codegen_world chapter w)) as [r w'] eqn:L.
    apply (attempts_loop_run _ _ _ _ _ 0) in L.
    assert (H' : chapter_run env i (code source) files (codegen_world chapter w)
                   (inl e2) (fix_world env (fresh_attempts (code source) files) e1 w1)).
    { eapply Run_fix_raises; [exact R|]. now rewrite on_failure_first, F. }
    destruct (chapter_run_det _ _ _ _ _ _ _ _ _ L H') as [-> ->]. reflexivity.
  - apply generate_video_propagates.
Qed.

Lemma render_failures_contained_backend_failures_escape_witness :
  (exists r w',
      generate_video (Stub.base [Stub.chapter "A"; Stub.chapter "B"] (String.eqb "B"))
                     "concept" Stub.w0 = (inr r, w')) /\
  chapters_loop Stub.codegen_down 0 [Stub.chapter "A"; Stub.chapter "B"] [] Stub.w0
  = (inl Stub.backend_down, codegen_world (Stub.chapter "A") Stub.w0) /\
  (exists w',
      chapters_loop Stub.fixer_down 0 [Stub.chapter "A"; Stub.chapter "B"] [] Stub.w0
      = (inl Stub.backend_down, w')) /\
  generate_video Stub.codegen_down "concept" Stub.w0
  = (inl Stub.backend_down,
     codegen_world (Stub.chapter "A") (outline_world "concept" Stub.w0)).
Proof.
  split; [|split; [|split]].
  - apply (proj2 (proj1 render_failures_contained_backend_failures_escape
                        (Stub.base [Stub.chapter "A"; Stub.chapter "B"] (String.eqb "B"))
                        (fun t p => ex_intro _ (Stub.scene_for p) eq_refl)
                        (fun t p => ex_intro _ {| code := "class Fixed(Scene):" |} eq_refl))
                 "concept" Stub.w0
                 {| title := "T"; chapters := [Stub.chapter "A"; Stub.chapter "B"] |}
                 eq_refl).
  - apply (proj1 (proj2 render_failures_contained_backend_failures_escape)
                 Stub.codegen_down 0 (Stub.chapter "A") [Stub.chapter "B"] [] Stub.w0
                 Stub.backend_down eq_refl).
  - evaluate (render_attempt Stub.fixer_down 0
                (fresh_attempts (code (Stub.scene_for (codegen_prompt (Stub.chapter "A")))) [])
                (codegen_world (Stub.chapter "A") Stub.w0)) R.
    eexists.
    apply (proj1 (proj2 (proj2 render_failures_contained_backend_failures_escape))
                 Stub.fixer_down 0 (Stub.chapter "A") [Stub.chapter "B"] [] Stub.w0
                 (Stub.scene_for (codegen_prompt (Stub.chapter "A"))) _ _
                 Stub.backend_down eq_refl R eq_refl).
  - apply (proj2 (proj2 (proj2 render_failures_contained_backend_failures_escape))
                 Stub.codegen_down "concept" Stub.w0
                 {| title := "T"; chapters := [Stub.chapter "A"; Stub.chapter "B"] |}
                 Stub.backend_down _ eq_refl).
    apply (proj1 (proj2 render_failures_contained_backend_failures_escape)
                 Stub.codegen_down 0 (Stub.chapter "A") [Stub.chapter "B"] []
                 (outline_world "concept" Stub.w0) Stub.backend_down eq_refl).
Defined.

(** C1 as stated fails: a backend failure during scene-code generation,
    or during the fix, leaves [generate_video] as an exception. *)
Lemma backend_failure_escapes :
  fst (generate_video Stub.codegen_down "concept" Stub.w0) = inl Stub.backend_down /\
  renders (trace (snd (generate_video Stub.codegen_down "concept" Stub.w0))) = 0 /\
  fst (generate_video Stub.fixer_down "concept" Stub.w0) = inl Stub.backend_down /\
  renders (trace (snd (generate_video Stub.fixer_down "concept" Stub.w0))) = 1.
Proof. vm_compute. repeat split. Qed.

(** C2, as the code has it. The outline operation hands back the
    backend's answer unchanged, whatever its chapter count, and fails
    exactly when the backend fails; that failure leaves [generate_video]
    as an exception. Nothing validates the chapter count: an outline with
    no chapters makes [generate_video] return no video, with the warning
    that no chapter was generated. *)
Theorem outline_is_the_backend_answer :
  (forall env concept w,
      generate_video_outline env concept w
      = (outline_agent env (clock w) concept, outline_world concept w)) /\
  (forall env concept w e,
      outline_agent env (clock w) concept = inl e ->
      generate_video env concept w = (inl e, outline_world concept w)) /\
  (forall env concept w outline,
      outline_agent env (clock w) concept = inr outline ->
      chapters outline = [] ->
      generate_video env concept w
      = (inr None, log_to (outline_world concept w) [no_chapters_warning])).
Proof.
  split; [|split].
  - apply generate_video_outline_eq.
  - intros env concept w e O. now rewrite generate_video_eq, O.
  - intros env concept w outline O C. rewrite generate_video_eq, O, C. reflexivity.
Qed.

Lemma outline_is_the_backend_answer_witness :
  generate_video (Stub.base [] (fun _ => false)) "concept" Stub.w0
  = (inr None, log_to (outline_world "concept" Stub.w0) [no_chapters_warning]) /\
  generate_video Stub.outline_down "concept" Stub.w0
  = (inl Stub.backend_down, outline_world "concept" Stub.w0).
Proof.
  split.
  - apply (proj2 (proj2 outline_is_the_backend_answer)
                 (Stub.base [] (fun _ => false)) "concept" Stub.w0
                 {| title := "T"; chapters := [] |} eq_refl eq_refl).
  - apply (proj1 (proj2 outline_is_the_backend_answer)
                 Stub.outline_down "concept" Stub.w0 Stub.backend_down eq_refl).
Defined.

(** C2 as stated fails: outlines of zero and of four chapters are
    returned as they are, with no error. *)
Lemma outline_count_not_validated :
  (exists outline,
      fst (generate_video_outline (Stub.base [] (fun _ => false)) "concept" Stub.w0)
      = inr outline /\ List.length (chapters outline) = 0) /\
  (exists outline,
      fst (generate_video_outline
             (Stub.base [Stub.chapter "A"; Stub.chapter "B"; Stub.chapter "C";
                         Stub.chapter "D"] (fun _ => false)) "concept" Stub.w0)
      = inr outline /\ List.length (chapters outline) = 4).
Proof. split; eexists; split; reflexivity. Qed.



(** C4, at the failing input. One chapter renders, and writing the final
    video then fails: [generate_video] reports the failure and returns no
    video, but the clip it opened is never closed. On the same input with
    a write that succeeds, the clip is closed. *)
Theorem clip_left_open_when_write_fails :
  let failed := generate_video Stub.write_fails "concept" Stub.w0 in
  let fine := generate_video (Stub.one "A") "concept" Stub.w0 in
  fst failed = inr None /\
  clips_opened (trace (snd failed)) = 1 /\
  clips_closed (trace (snd failed)) = 0 /\
  open_clips (snd failed) = [Stub.clip_of "A"] /\
  last (trace (snd failed))
  = Some (StError "Failed to combine video: [Errno 28] No space left on device") /\
  fst fine = inr (Some "final_video.mp4") /\
  clips_opened (trace (snd fine)) = 1 /\
  clips_closed (trace (snd fine)) = 1 /\
  open_clips (snd fine) = [].
Proof. vm_compute. repeat split. Qed.

(** C5, as the code has it. Entry-point extraction returns the class name
    at the leftmost place where the source reads as the pattern has it:
    "class", white space, the name, and in parentheses one base whose
    name ends in [Scene], the colon following at once ("class
    FooScene(Scene):" gives "FooScene", whatever the extent of the two
    character classes); when the source reads so nowhere it raises the
    extraction error. In a render call that error makes the call fail;
    the retry loop receives it as a failed attempt and, on the first
    attempt, asks the fixer with that very message; no exception leaves
    an attempt unless the fixer itself raised it. With the character
    classes as Python has them, a name may hold letters beyond ASCII and
    a no-break space separates as a blank does. *)
Theorem entry_point_extraction :
  (forall cls, extract_class_name cls "class FooScene(Scene):" = inr "FooScene") /\
  (forall cls source name,
      extract_class_name cls source = inr name <-> first_scene_decl cls source name) /\
  (forall cls source,
      (forall pre name, ~ declares_scene_at cls source pre name) <->
      extract_class_name cls source = inl extraction_error) /\
  (forall env source n w,
      (forall pre name, ~ declares_scene_at (re_classes env) source pre name) ->
      exists e w',
        create_video_from_code env source n w = (inl e, w') /\
        forall out err after,
          temp_answer env source w = Written ->
          tool_answer env source w = Exits 0 out err after -> e = extraction_error) /\
  (forall env i source files w out err after,
      (forall pre name, ~ declares_scene_at (re_classes env) source pre name) ->
      temp_answer env source w = Written ->
      tool_answer env source w = Exits 0 out err after ->
      render_attempt env i (fresh_attempts source files) w
      = (inl extraction_error,
         rendered env source w after [Communicate render_timeout]) /\
      exists evs,
        since w (snd (attempts_loop env i 2 (fresh_attempts source files) w)) evs /\
        In (RunFixer (fix_prompt "Could not extract class name from Manim code." source))
           evs) /\
  (forall env i st w e w',
      attempt env i st w = (inl e, w') ->
      exists t p, code_fixer_agent env t p = inl e) /\
  (extract_class_name python ("class Caf" +:+ Scenario.e_acute +:+ "(Scene):")
   = inr ("Caf" +:+ Scenario.e_acute) /\
   extract_class_name python ("class" +:+ Scenario.no_break_space +:+ "Foo(Scene):")
   = inr "Foo").
Proof.
  split.
  { intros cls. apply extract_ok_iff. exists "". split.
    - exists " ", "", "", "", "", "". split; [reflexivity|].
      assert (Sp : all_of (is_space cls) " " = true).
      { unfold all_of. simpl. now rewrite (ascii_is_space cls " "%char eq_refl). }
      assert (Wd : all_of (is_word cls) "FooScene" = true).
      { unfold all_of. simpl.
        rewrite (ascii_is_word cls "F"%char eq_refl), (ascii_is_word cls "o"%char eq_refl),
          (ascii_is_word cls "S"%char eq_refl), (ascii_is_word cls "c"%char eq_refl),
          (ascii_is_word cls "e"%char eq_refl), (ascii_is_word cls "n"%char eq_refl).
        reflexivity. }
      repeat split; try assumption; discriminate.
    - intros pre' name' _. simpl. lia. }
  split; [apply extract_ok_iff|].
  split; [intros cls source; symmetry; apply extract_err_iff|].
  split; [|split; [|split]]; [| | |vm_compute; split; reflexivity].
  - intros env source n w H. apply extract_err_iff in H.
    rewrite create_video_from_code_eq, H.
    destruct (temp_answer env source w) as [e|e part|];
      [eexists _, _; (split; [reflexivity|]); discriminate..|].
    destruct (tool_answer env source w) as [e|after|e after|rc out err after].
    + destruct e; eexists _, _; (split; [reflexivity|]); discriminate.
    + eexists _, _. split; [reflexivity|]. discriminate.
    + destruct e; eexists _, _; (split; [reflexivity|]); discriminate.
    + destruct (rc =? 0)%Z eqn:Hrc; eexists _, _; (split; [reflexivity|]).
      * reflexivity.
      * intros out' err' after' _ [= -> _ _ _]. discriminate.
  - intros env i source files w out err after H Hw Ht.
    apply extract_err_iff in H.
    assert (R : render_attempt env i (fresh_attempts source files) w
                = (inl extraction_error,
                   rendered env source w after [Communicate render_timeout])).
    { rewrite render_attempt_eq, create_video_from_code_eq. simpl.
      rewrite Hw, Ht. simpl. rewrite H. reflexivity. }
    split; [exact R|].
    destruct (attempts_loop env i 2 (fresh_attempts source files) w) as [r w'] eqn:L.
    apply (attempts_loop_run _ _ _ _ _ 0), chapter_run_counts in L
        as (evs & S & _ & _ & _ & [((st1 & R' & _) & _)|(e1 & w1 & R' & _ & Hp & _)]);
      [congruence|].
    rewrite R in R'. injection R' as <- <-.
    exists evs. split; [exact S|]. now apply Hp.
  - intros env i st w e w' H.
    apply attempt_raises_from_fixer in H as (_ & e1 & w1 & _ & F & _). eauto.
Qed.

Lemma entry_point_extraction_witness :
  first_scene_decl python "class FooScene(Scene):" "FooScene" /\
  (exists e w',
      create_video_from_code (Stub.one "A") "x = 1" 1 Stub.w0 = (inl e, w')) /\
  (exists evs,
      since Stub.w0
            (snd (attempts_loop (Stub.one "A") 0 2 (fresh_attempts "x = 1" []) Stub.w0))
            evs /\
      In (RunFixer (fix_prompt "Could not extract class name from Manim code." "x = 1"))
         evs) /\
  (exists t p, code_fixer_agent Stub.fixer_down t p = inl Stub.backend_down).
Proof.
  assert (NoDecl : forall pre name, ~ declares_scene_at python "x = 1" pre name).
  { apply (proj2 (proj1 (proj2 (proj2 entry_point_extraction)) python "x = 1")).
    vm_compute. reflexivity. }
  split; [|split; [|split]].
  - apply (proj1 (proj1 (proj2 entry_point_extraction)
                        python "class FooScene(Scene):" "FooScene")).
    exact (proj1 entry_point_extraction python).
  - destruct (proj1 (proj2 (proj2 (proj2 entry_point_extraction)))
                    (Stub.one "A") "x = 1" 1 Stub.w0 NoDecl) as (e & w' & E & _).
    exists e, w'. exact E.
  - apply (proj1 (proj2 (proj2 (proj2 (proj2 entry_point_extraction))))
                 (Stub.one "A") 0 "x = 1" [] Stub.w0 "" ""
                 (<[temp_of (Stub.one "A") Stub.w0 := "x = 1"]> (fs Stub.w0)) NoDecl
                 eq_refl).
    vm_compute. reflexivity.
  - evaluate (attempt Stub.fixer_down 0 (fresh_attempts "class A(Scene):" []) Stub.w0) A.
    exact (proj1 (proj2 (proj2 (proj2 (proj2 (proj2 entry_point_extraction)))))
                 _ _ _ _ _ _ A).
Defined.

(** C5 as stated fails: a class that subclasses a Scene base is passed
    over when it names a second base, and the name of a later class is
    returned in its place; alone in the source, such a class, or one
    whose header has a blank before the colon, makes extraction fail. *)
Lemma scene_subclass_passed_over :
  extract_class_name python
    ("class First(Scene, Mixin):" +:+ newline +:+ "class Second(Scene):")
  = inr "Second" /\
  extract_class_name python "class Only(Mixin, Scene):" = inl extraction_error /\
  extract_class_name python "class Late(Scene) :" = inl extraction_error.
Proof. vm_compute. repeat split. Qed.

(** C6, at the failing input. The temporary file is written before the
    [try] whose [finally] removes it. When the source cannot be written
    (here: it cannot be encoded), the render call raises with the file
    left on disk, and whenever the write fails it does so. The rest of
    the claim holds: once the file is written, the call creates that one
    file, holding the source, runs the tool on it, and on every exit the
    file is no longer on disk; and when no file can be created, none is
    left. *)
Theorem temp_file_left_when_write_fails :
  (let failed :=
     create_video_from_code Scenario.script_unwritable "class A(Scene):" 1 Stub.w0 in
   fst failed = inl Scenario.not_encodable /\
   temp_files (trace (snd failed)) = 1 /\
   renders (trace (snd failed)) = 0 /\
   fs (snd failed) !! temp_of Scenario.script_unwritable Stub.w0 = Some "") /\
  (forall env source n w e part,
      temp_answer env source w = WriteFails e part ->
      create_video_from_code env source n w = (inl e, temp_left env w part) /\
      fs (temp_left env w part) !! temp_of env w = Some part) /\
  (forall env source n w,
      temp_answer env source w = Written ->
      let w' := snd (create_video_from_code env source n w) in
      exists evs,
        since w w' evs /\
        temp_files evs = 1 /\
        In (TempCreate (temp_of env w) source) evs /\
        fs w' = delete (temp_of env w)
                       (left_by (tool_answer env source w)
                                (<[temp_of env w := source]> (fs w))) /\
        fs w' !! temp_of env w = None) /\
  (forall env source n w e,
      temp_answer env source w = TempFails e ->
      create_video_from_code env source n w = (inl e, no_temp w) /\
      fs (no_temp w) = fs w).
Proof.
  split; [vm_compute; repeat split|]. split; [|split].
  - intros env source n w e part T. rewrite create_video_from_code_eq, T.
    split; [reflexivity|]. apply lookup_insert_eq.
  - intros env source n w T w'. subst w'.
    destruct (render_call_log env source n w) as (evs & S & _ & _ & _ & _ & W).
    destruct (W T) as (_ & Tf & Hin).
    destruct (create_video_from_code_world env source n w T) as (evs0 & E & _).
    exists evs. rewrite E in *. repeat split; try assumption.
    apply rendered_no_temp.
  - intros env source n w e T. rewrite create_video_from_code_eq, T. auto.
Qed.

Lemma temp_file_left_when_write_fails_witness :
  (exists w',
      create_video_from_code Scenario.script_unwritable "class A(Scene):" 1 Stub.w0
      = (inl Scenario.not_encodable, w') /\
      fs w' !! temp_of Scenario.script_unwritable Stub.w0 = Some "") /\
  fs (snd (create_video_from_code (Stub.one "A") "class A(Scene):" 1 Stub.w0))
     !! temp_of (Stub.one "A") Stub.w0 = None /\
  fst (create_video_from_code Scenario.no_temp_file "class A(Scene):" 1 Stub.w0)
  = inl Scenario.no_temp_dir.
Proof.
  split; [|split].
  - eexists.
    exact (proj1 (proj2 temp_file_left_when_write_fails)
                 Scenario.script_unwritable "class A(Scene):" 1 Stub.w0
                 Scenario.not_encodable "" eq_refl).
  - destruct (proj1 (proj2 (proj2 temp_file_left_when_write_fails))
                    (Stub.one "A") "class A(Scene):" 1 Stub.w0 eq_refl)
      as (evs & _ & _ & _ & _ & F).
    exact F.
  - rewrite (proj1 (proj2 (proj2 (proj2 temp_file_left_when_write_fails))
                          Scenario.no_temp_file "class A(Scene):" 1 Stub.w0
                          Scenario.no_temp_dir eq_refl)).
    reflexivity.
Defined.

(** C7. The render call waits for the tool with the fixed timeout 60.
    When the wait times out, the child is killed, the temporary file is
    gone afterwards, and the call raises [TimeoutExpired]; the retry loop
    catches it as a failed attempt, and no exception of the attempt
    escapes unless the code fixer itself raises. (The tool is waited for
    once the temporary file is written.) *)
Theorem render_timeout_is_chapter_failure :
  (forall env source n w evs t,
      since w (snd (create_video_from_code env source n w)) evs ->
      In (Communicate t) evs -> t = 60%Z) /\
  (forall env source n w after,
      temp_answer env source w = Written ->
      tool_answer env source w = TimesOut after ->
      let cmd := manim_command (temp_of env w) in
      let w' := rendered env source w after [Communicate 60; timeout_log n; Kill] in
      create_video_from_code env source n w = (inl (TimeoutExpired cmd 60), w') /\
      since w w' ([TempCreate (temp_of env w) source; Spawn cmd; Communicate 60;
                   timeout_log n; Kill] ++ cleanup (temp_of env w) after) /\
      fs w' !! temp_of env w = None) /\
  (forall env i st w after,
      temp_answer env (manim_code st) w = Written ->
      tool_answer env (manim_code st) w = TimesOut after ->
      let cmd := manim_command (temp_of env w) in
      let w1 := rendered env (manim_code st) w after
                         [Communicate 60; timeout_log (i + 1); Kill] in
      render_attempt env i st w = (inl (TimeoutExpired cmd 60), w1) /\
      (attempts st <> 0 ->
       attempt env i st w
       = (inr (bump st), log_to w1 [failure_log env st (TimeoutExpired cmd 60)])) /\
      (forall fixed,
          attempts st = 0 ->
          code_fixer_agent env (clock w1) (fix_request env st (TimeoutExpired cmd 60))
          = inr fixed ->
          attempt env i st w
          = (inr (bump (refixed st (code fixed))),
             fix_world env st (TimeoutExpired cmd 60) w1)) /\
      (forall e' w', attempt env i st w = (inl e', w') ->
                     exists t p, code_fixer_agent env t p = inl e')).
Proof.
  split; [|split].
  - intros env source n w evs t S Hin.
    destruct (render_call_log env source n w) as (evs0 & S0 & _ & _ & _ & Ht & _).
    rewrite (since_inj _ _ _ _ S S0) in Hin. now apply Ht.
  - intros env source n w after Hw Ht cmd w'. split; [|split].
    + rewrite create_video_from_code_eq, Hw, Ht. reflexivity.
    + apply rendered_since.
    + apply rendered_no_temp.
  - intros env i st w after Hw Ht cmd w1.
    assert (R : render_attempt env i st w = (inl (TimeoutExpired cmd 60), w1)).
    { rewrite render_attempt_eq, create_video_from_code_eq, Hw, Ht. reflexivity. }
    split; [exact R|]. split; [|split].
    + intros A. rewrite attempt_eq, R, on_failure_eq.
      apply Nat.eqb_neq in A. now rewrite A.
    + intros fixed A F. apply Nat.eqb_eq in A.
      rewrite attempt_eq, R, on_failure_eq, A, F. reflexivity.
    + intros e' w' H. apply attempt_raises_from_fixer in H as (_ & e1 & w2 & _ & F & _).
      eauto.
Qed.

Lemma render_timeout_is_chapter_failure_witness :
  (fst (create_video_from_code Stub.hanging "class A(Scene):" 1 Stub.w0)
   = inl (TimeoutExpired (manim_command (temp_of Stub.hanging Stub.w0)) 60)
   /\ fs (snd (create_video_from_code Stub.hanging "class A(Scene):" 1 Stub.w0))
         !! temp_of Stub.hanging Stub.w0 = None) /\
  (exists w1,
      render_attempt Stub.hanging 0 (fresh_attempts "class A(Scene):" []) Stub.w0
      = (inl (TimeoutExpired (manim_command (temp_of Stub.hanging Stub.w0)) 60), w1) /\
      exists st' w', attempt Stub.hanging 0 (fresh_attempts "class A(Scene):" []) Stub.w0
                     = (inr st', w')) /\
  (forall evs t,
      since Stub.w0 (snd (create_video_from_code Stub.hanging "class A(Scene):" 1 Stub.w0))
            evs ->
      In (Communicate t) evs -> t = 60%Z).
Proof.
  split; [|split].
  - destruct (proj1 (proj2 render_timeout_is_chapter_failure)
                    Stub.hanging "class A(Scene):" 1 Stub.w0
                    (<[temp_of Stub.hanging Stub.w0 := "class A(Scene):"]> (fs Stub.w0))
                    eq_refl eq_refl)
      as (E & _ & F).
    rewrite E. split; [reflexivity | exact F].
  - destruct (proj2 (proj2 render_timeout_is_chapter_failure)
                    Stub.hanging 0 (fresh_attempts "class A(Scene):" []) Stub.w0
                    (<[temp_of Stub.hanging Stub.w0 := "class A(Scene):"]> (fs Stub.w0))
                    eq_refl eq_refl)
      as (R & _ & Hfix & _).
    eexists. split; [exact R|].
    eexists _, _. exact (Hfix {| code := "class Fixed(Scene):" |} eq_refl eq_refl).
  - intros evs t. apply (proj1 render_timeout_is_chapter_failure).
Defined.

(** C8. The clip paths handed to assembly are the chapters' results in
    outline order, failed chapters left out; the assembler opens the
    clips still on disk in that order and concatenates them in that
    order, so that the final video, where the library leaves one, holds
    their contents in that order. With chapters A, B, C of which B fails,
    the list is A's clip then C's clip. *)
Theorem clips_in_chapter_order :
  (forall env i chs files w out w',
      chapters_loop env i chs files w = (inr out, w') ->
      out = files ++ omap id (chapter_results env i chs w) /\
      List.length (chapter_results env i chs w) = List.length chs) /\
  (forall env files w clips w1,
      open_existing env files w = (inr clips, w1) ->
      map Py.clip_path clips = kept (fs w) files /\
      since w w1 (map ClipOpen (kept (fs w) files))) /\
  (forall env files w p w',
      assemble env files w = (inr (Some p), w') ->
      since w w' (assembly_log (kept (fs w) files)) /\
      (write_answer env files w = WriteReturns true ->
       fs w' !! final_path = Some (joined (fs w) files))) /\
  (chapter_results Stub.b_fails 0 Stub.abc (outline_world "concept" Stub.w0)
   = [Some (Stub.clip_of "A"); None; Some (Stub.clip_of "C")] /\
   fst (chapters_loop Stub.b_fails 0 Stub.abc [] (outline_world "concept" Stub.w0))
   = inr [Stub.clip_of "A"; Stub.clip_of "C"] /\
   In (Concatenate [Stub.clip_of "A"; Stub.clip_of "C"])
      (trace (snd (generate_video Stub.b_fails "concept" Stub.w0)))).
Proof.
  split; [|split; [|split]].
  - intros env i chs files w out w' L. split.
    + eapply chapters_loop_results; eauto.
    + apply chapter_results_length.
  - intros env files w clips w1 O.
    apply open_existing_ok in O as (_ & P & _ & _ & T). auto.
  - intros env files w p w' A.
    apply assemble_some in A as (_ & _ & _ & (written & Wa & F) & T).
    split; [exact T|]. intros Wt. rewrite Wt in Wa. injection Wa as <-.
    rewrite F. apply lookup_insert_eq.
  - vm_compute. repeat split.
    repeat match goal with |- _ \/ _ => first [left; reflexivity | right] end.
Qed.

Lemma clips_in_chapter_order_witness :
  [Stub.clip_of "A"; Stub.clip_of "C"]
  = [] ++ omap id (chapter_results Stub.b_fails 0 Stub.abc
                     (outline_world "concept" Stub.w0)) /\
  (exists clips w1,
      open_existing (Stub.one "A") Stub.three_paths Stub.clips_on_disk = (inr clips, w1) /\
      map Py.clip_path clips = kept (fs Stub.clips_on_disk) Stub.three_paths) /\
  (exists w',
      since Stub.clips_on_disk w' (assembly_log (kept (fs Stub.clips_on_disk) Stub.three_paths)) /\
      fs w' !! final_path = Some (joined (fs Stub.clips_on_disk) Stub.three_paths)).
Proof.
  split; [|split].
  - evaluate (chapters_loop Stub.b_fails 0 Stub.abc [] (outline_world "concept" Stub.w0)) L.
    exact (proj1 (proj1 clips_in_chapter_order _ _ _ _ _ _ _ L)).
  - evaluate (open_existing (Stub.one "A") Stub.three_paths Stub.clips_on_disk) Op.
    eexists _, _. split; [exact Op|].
    exact (proj1 (proj1 (proj2 clips_in_chapter_order) _ _ _ _ _ Op)).
  - evaluate (assemble (Stub.one "A") Stub.three_paths Stub.clips_on_disk) A.
    eexists.
    destruct (proj1 (proj2 (proj2 clips_in_chapter_order)) _ _ _ _ _ A) as [T F].
    split; [exact T|]. apply F. reflexivity.
Defined.

(** C9. A successful render call returns exactly
    "./media/videos/temp/480p15/<ClassName>.mp4" for the class name
    extracted from the source text; the path is a function of the source
    text alone (under one and the same [re] module), whatever temporary
    file name the tool was run on. *)
Theorem clip_path_depends_on_source_only :
  (forall env source n w p w',
      create_video_from_code env source n w = (inr p, w') ->
      exists name,
        extract_class_name (re_classes env) source = inr name /\
        p = "./media/videos/temp/480p15/" +:+ name +:+ ".mp4") /\
  (forall env1 env2 source n1 n2 w1 w2 p1 p2 w1' w2',
      re_classes env1 = re_classes env2 ->
      create_video_from_code env1 source n1 w1 = (inr p1, w1') ->
      create_video_from_code env2 source n2 w2 = (inr p2, w2') ->
      p1 = p2).
Proof.
  split.
  - intros env source n w p w' H.
    apply create_video_from_code_ok in H as (name & _ & _ & _ & E & -> & _).
    exists name. auto.
  - intros env1 env2 source n1 n2 w1 w2 p1 p2 w1' w2' C H1 H2.
    apply create_video_from_code_ok in H1 as (name1 & _ & _ & _ & E1 & -> & _).
    apply create_video_from_code_ok in H2 as (name2 & _ & _ & _ & E2 & -> & _).
    rewrite C in E1. congruence.
Qed.

Lemma clip_path_depends_on_source_only_witness :
  (exists name,
      extract_class_name python "class FooScene(Scene):" = inr name /\
      "./media/videos/temp/480p15/FooScene.mp4"
      = "./media/videos/temp/480p15/" +:+ name +:+ ".mp4") /\
  temp_of (Stub.one "A") Stub.w0 <> temp_of (Stub.one "A") Stub.later_world /\
  fst (create_video_from_code (Stub.one "A") "class FooScene(Scene):" 1 Stub.w0)
  = fst (create_video_from_code (Stub.one "A") "class FooScene(Scene):" 2 Stub.later_world).
Proof.
  evaluate (create_video_from_code (Stub.one "A") "class FooScene(Scene):" 1 Stub.w0) R1.
  evaluate (create_video_from_code (Stub.one "A") "class FooScene(Scene):" 2 Stub.later_world) R2.
  split; [|split].
  - exact (proj1 clip_path_depends_on_source_only _ _ _ _ _ _ R1).
  - vm_compute. discriminate.
  - exact (f_equal inr
                    (proj2 clip_path_depends_on_source_only _ _ _ _ _ _ _ _ _ _ _
                           eq_refl R1 R2)).
Defined.

(** C10. Whenever [generate_video] produces a final video, the path it
    returns is "final_video.mp4", and the file at that path, where the
    library leaves one, then holds the concatenation made by this run; a
    second successful run, in the world the first one left, returns the
    same path and replaces what the first run had written there. *)
Theorem final_video_path_is_constant :
  (forall env concept w p w',
      generate_video env concept w = (inr (Some p), w') ->
      p = "final_video.mp4" /\
      exists outline files w1 written,
        outline_agent env (clock w) concept = inr outline /\
        chapters_loop env 0 (chapters outline) [] (outline_world concept w)
        = (inr files, w1) /\
        write_answer env files w1 = WriteReturns written /\
        fs w' = (if written
                 then <["final_video.mp4" := joined (fs w1) files]> (fs w1)
                 else fs w1) /\
        since w1 w' (assembly_log (kept (fs w1) files))) /\
  (forall env1 env2 concept1 concept2 w p1 w1 p2 w2,
      generate_video env1 concept1 w = (inr (Some p1), w1) ->
      generate_video env2 concept2 w1 = (inr (Some p2), w2) ->
      p1 = p2 /\
      (exists outline files wa,
          outline_agent env1 (clock w) concept1 = inr outline /\
          chapters_loop env1 0 (chapters outline) [] (outline_world concept1 w)
          = (inr files, wa) /\
          (write_answer env1 files wa = WriteReturns true ->
           is_Some (fs w1 !! p1))) /\
      exists outline files wm,
        outline_agent env2 (clock w1) concept2 = inr outline /\
        chapters_loop env2 0 (chapters outline) [] (outline_world concept2 w1)
        = (inr files, wm) /\
        (write_answer env2 files wm = WriteReturns true ->
         fs w2 !! p1 = Some (joined (fs wm) files))) /\
  (let first := generate_video (Stub.one "A") "first" Stub.w0 in
   let second := generate_video (Stub.one "C") "second" (snd first) in
   fst first = inr (Some "final_video.mp4") /\
   fs (snd first) !! "final_video.mp4" = Some "A" /\
   fst second = inr (Some "final_video.mp4") /\
   fs (snd second) !! "final_video.mp4" = Some "C").
Proof.
  assert (One : forall env concept w p w',
             generate_video env concept w = (inr (Some p), w') ->
             p = "final_video.mp4" /\
             exists outline files w1 written,
               outline_agent env (clock w) concept = inr outline /\
               chapters_loop env 0 (chapters outline) [] (outline_world concept w)
               = (inr files, w1) /\
               write_answer env files w1 = WriteReturns written /\
               fs w' = (if written
                        then <["final_video.mp4" := joined (fs w1) files]> (fs w1)
                        else fs w1) /\
               since w1 w' (assembly_log (kept (fs w1) files))).
  { intros env concept w p w'. rewrite generate_video_eq.
    destruct (outline_agent env (clock w) concept) as [e|outline] eqn:O; [discriminate|].
    destruct (chapters_loop env 0 (chapters outline) [] (outline_world concept w))
      as [[e|files] w1] eqn:L; [discriminate|].
    intros A. apply assemble_some in A as (-> & _ & _ & (written & Wa & F) & T).
    split; [reflexivity|]. exists outline, files, w1, written. auto. }
  split; [exact One|]. split.
  - intros env1 env2 concept1 concept2 w p1 w1 p2 w2 G1 G2.
    apply One in G1 as (-> & outline1 & files1 & w0 & wr1 & O1 & L1 & W1 & F1 & _).
    apply One in G2 as (-> & outline & files & wm & wr2 & O & L & W2 & F2 & _).
    split; [reflexivity|]. split.
    + exists outline1, files1, w0. repeat split; try assumption.
      intros Wt. rewrite Wt in W1. injection W1 as <-.
      rewrite F1, lookup_insert_eq. eauto.
    + exists outline, files, wm. repeat split; try assumption.
      intros Wt. rewrite Wt in W2. injection W2 as <-.
      rewrite F2. apply lookup_insert_eq.
  - vm_compute. repeat split.
Qed.

Lemma final_video_path_is_constant_witness :
  ("final_video.mp4" = "final_video.mp4" /\
   exists outline files w1 written,
     outline_agent (Stub.one "A") (clock Stub.w0) "first" = inr outline /\
     chapters_loop (Stub.one "A") 0 (chapters outline) [] (outline_world "first" Stub.w0)
     = (inr files, w1) /\
     write_answer (Stub.one "A") files w1 = WriteReturns written /\
     fs (snd (generate_video (Stub.one "A") "first" Stub.w0))
     = (if written then <["final_video.mp4" := joined (fs w1) files]> (fs w1)
        else fs w1) /\
     since w1 (snd (generate_video (Stub.one "A") "first" Stub.w0))
           (assembly_log (kept (fs w1) files))) /\
  (exists w1 w2,
      generate_video (Stub.one "A") "first" Stub.w0 = (inr (Some "final_video.mp4"), w1) /\
      generate_video (Stub.one "C") "second" w1 = (inr (Some "final_video.mp4"), w2) /\
      exists outline files wm,
        outline_agent (Stub.one "C") (clock w1) "second" = inr outline /\
        chapters_loop (Stub.one "C") 0 (chapters outline) [] (outline_world "second" w1)
        = (inr files, wm) /\
        (write_answer (Stub.one "C") files wm = WriteReturns true ->
         fs w2 !! "final_video.mp4" = Some (joined (fs wm) files))).
Proof.
  evaluate (generate_video (Stub.one "A") "first" Stub.w0) G1.
  split.
  - exact (proj1 final_video_path_is_constant _ _ _ _ _ G1).
  - match type of G1 with _ = (_, ?w1) =>
      evaluate (generate_video (Stub.one "C") "second" w1) G2
    end.
    eexists _, _. split; [reflexivity|]. split; [exact G2|].
    exact (proj2 (proj2 (proj1 (proj2 final_video_path_is_constant)
                               _ _ _ _ _ _ _ _ _ G1 G2))).
Defined.

(* ===================================================================== *)
(** * Part IV: further properties                                         *)
(* ===================================================================== *)

(** ** The render call, further *)

(** X1. The render call changes no file of its own accord, but for a
    temporary file it could not finish writing. When no temporary file
    can be created the files are as before; when writing it fails they
    are as before plus that file; otherwise they are those the tool left
    (those it was started on, when the tool could not be started), minus
    the temporary file. Open clips are untouched. So, when the temporary
    file was written under a name that was free and the tool left the
    files as it found them, the call leaves the file system exactly as it
    was. *)
Theorem render_call_leaves_files_alone :
  (forall env source n w,
      let w' := snd (create_video_from_code env source n w) in
      open_clips w' = open_clips w /\
      fs w' = match temp_answer env source w with
              | TempFails _ => fs w
              | WriteFails _ part => <[temp_of env w := part]> (fs w)
              | Written =>
                  delete (temp_of env w)
                         (left_by (tool_answer env source w)
                                  (<[temp_of env w := source]> (fs w)))
              end) /\
  (forall env source n w,
      temp_answer env source w = Written ->
      fs w !! temp_of env w = None ->
      left_by (tool_answer env source w) (<[temp_of env w := source]> (fs w))
      = <[temp_of env w := source]> (fs w) ->
      fs (snd (create_video_from_code env source n w)) = fs w).
Proof.
  split.
  - intros env source n w w'. subst w'.
    destruct (temp_answer env source w) as [e|e part|] eqn:T.
    + rewrite create_video_from_code_eq, T. auto.
    + rewrite create_video_from_code_eq, T. auto.
    + destruct (create_video_from_code_world env source n w T) as (evs0 & -> & _). auto.
  - intros env source n w T Fresh Left.
    destruct (create_video_from_code_world env source n w T) as (evs0 & -> & _).
    simpl. rewrite Left, delete_insert_eq. now apply delete_id.
Qed.

Lemma render_call_leaves_files_alone_witness :
  fs (snd (create_video_from_code Stub.hanging "class A(Scene):" 1 Stub.w0))
  = fs Stub.w0.
Proof.
  apply (proj2 render_call_leaves_files_alone Stub.hanging "class A(Scene):" 1 Stub.w0).
  - reflexivity.
  - apply lookup_empty.
  - reflexivity.
Defined.

(** X2. How the render call fails. An exception of creating or writing
    the temporary file is passed on as it is. Once the file is written:
    when the tool cannot be found, the caller sees "Manim is not
    installed or not in PATH." whatever the system's message was; any
    other failure to start the tool, but a timeout, is passed on
    unchanged, and so is a failure to read the tool's output, whatever
    the tool's exit status; and an exit status other than 0 is reported
    as [CalledProcessError] with the status and the captured output,
    whether or not the source declares a scene: extraction is not
    consulted. *)
Theorem render_call_failures :
  forall env source n w,
    (forall e, temp_answer env source w = TempFails e ->
               fst (create_video_from_code env source n w) = inl e) /\
    (forall e part, temp_answer env source w = WriteFails e part ->
                    fst (create_video_from_code env source n w) = inl e) /\
    (temp_answer env source w = Written ->
     (forall msg,
         tool_answer env source w = SpawnFails (FileNotFoundError msg) ->
         fst (create_video_from_code env source n w)
         = inl (FileNotFoundError "Manim is not installed or not in PATH.")) /\
     (forall e,
         tool_answer env source w = SpawnFails e ->
         (forall msg, e <> FileNotFoundError msg) ->
         (forall cmd t, e <> TimeoutExpired cmd t) ->
         fst (create_video_from_code env source n w) = inl e) /\
     (forall e after,
         tool_answer env source w = ReadFails e after ->
         (forall msg, e <> FileNotFoundError msg) ->
         fst (create_video_from_code env source n w) = inl e) /\
     (forall rc out err after,
         tool_answer env source w = Exits rc out err after -> rc <> 0%Z ->
         fst (create_video_from_code env source n w)
         = inl (CalledProcessError rc (manim_command (temp_of env w)) out err))).
Proof.
  intros env source n w. rewrite create_video_from_code_eq.
  split; [intros e ->; reflexivity|]. split; [intros e part ->; reflexivity|].
  intros ->. repeat split.
  - intros msg ->. reflexivity.
  - intros e -> N1 N2. destruct e; try reflexivity.
    + now destruct (N2 cmd timeout).
    + now destruct (N1 msg).
  - intros e after -> N1. destruct e; try reflexivity. now destruct (N1 msg).
  - intros rc out err after -> Hrc. apply Z.eqb_neq in Hrc. now rewrite Hrc.
Qed.

Lemma render_call_failures_witness :
  fst (create_video_from_code Scenario.tool_missing "class A(Scene):" 1 Stub.w0)
  = inl (FileNotFoundError "Manim is not installed or not in PATH.") /\
  fst (create_video_from_code Scenario.tool_forbidden "class A(Scene):" 1 Stub.w0)
  = inl Scenario.not_allowed /\
  fst (create_video_from_code Scenario.tool_garbles "class A(Scene):" 1 Stub.w0)
  = inl Scenario.not_text /\
  fst (create_video_from_code Scenario.tool_crashes "no scene here" 1 Stub.w0)
  = inl (CalledProcessError 1 (manim_command (temp_of Scenario.tool_crashes Stub.w0))
                            "rendering" "Traceback: NameError") /\
  fst (create_video_from_code Scenario.script_unwritable "class A(Scene):" 1 Stub.w0)
  = inl Scenario.not_encodable.
Proof.
  split; [|split; [|split; [|split]]].
  - apply (proj1 (proj2 (proj2 (render_call_failures Scenario.tool_missing
                                  "class A(Scene):" 1 Stub.w0)) eq_refl)
                 "[Errno 2] No such file or directory: 'manim'" eq_refl).
  - apply (proj1 (proj2 (proj2 (proj2 (render_call_failures Scenario.tool_forbidden
                                         "class A(Scene):" 1 Stub.w0)) eq_refl))
                 Scenario.not_allowed eq_refl); discriminate.
  - apply (proj1 (proj2 (proj2 (proj2 (proj2 (render_call_failures Scenario.tool_garbles
                                                "class A(Scene):" 1 Stub.w0)) eq_refl)))
                 Scenario.not_text
                 (<[Stub.clip_of "A" := "A"]>
                    (<[temp_of Scenario.tool_garbles Stub.w0 := "class A(Scene):"]>
                       (fs Stub.w0)))
                 eq_refl); discriminate.
  - apply (proj2 (proj2 (proj2 (proj2 (proj2 (render_call_failures Scenario.tool_crashes
                                                "no scene here" 1 Stub.w0)) eq_refl)))
                 1%Z "rendering" "Traceback: NameError"
                 (<[temp_of Scenario.tool_crashes Stub.w0 := "no scene here"]> (fs Stub.w0))
                 eq_refl).
    discriminate.
  - apply (proj1 (proj2 (render_call_failures Scenario.script_unwritable
                           "class A(Scene):" 1 Stub.w0))
                 Scenario.not_encodable "" eq_refl).
Defined.

(** ** What the retry loop and a chapter's turn log *)

Lemma on_failure_log env st e w r w1 :
  on_failure env st e w = (r, w1) ->
  exists evs,
    since w w1 evs /\ forallb fix_kind evs = true /\
    fixes evs = (if attempts st =? 0 then 1 else 0).
Proof.
  rewrite on_failure_eq. destruct (attempts st =? 0).
  - intros E.
    assert (W : w1 = fix_world env st e w)
      by (destruct (code_fixer_agent _ _ _); now injection E).
    subst w1. eexists. split; [apply fix_world_since|]. split; reflexivity.
  - intros [= <- <-]. exists [failure_log env st e]. repeat split.
Qed.

Lemma fix_kind_counts evs :
  forallb fix_kind evs = true ->
  renders evs = 0 /\ temp_files evs = 0 /\ codegens evs = 0 /\ outlines evs = 0 /\
  st_warnings evs = 0.
Proof.
  intros K. repeat split;
    (apply (count_none _ fix_kind); [exact K|]; intros [] ?; simpl in *; congruence).
Qed.

Lemma loop_kind_counts evs :
  forallb loop_kind evs = true ->
  codegens evs = 0 /\ outlines evs = 0 /\ st_warnings evs = 0.
Proof.
  intros K. repeat split;
    (apply (count_none _ loop_kind); [exact K|];
     intros [] ?; unfold loop_kind in *; simpl in *; congruence).
Qed.

Lemma render_is_loop_kind evs :
  forallb render_kind evs = true -> forallb loop_kind evs = true.
Proof.
  intros K. apply (forallb_weaken render_kind); [exact K|].
  intros e H. unfold loop_kind. now rewrite H.
Qed.

Lemma fix_is_loop_kind evs :
  forallb fix_kind evs = true -> forallb loop_kind evs = true.
Proof.
  intros K. apply (forallb_weaken fix_kind); [exact K|].
  intros e H. unfold loop_kind. rewrite H. apply orb_true_r.
Qed.

(** The tally of one chapter's retry loop, whichever path it takes. *)
Lemma chapter_run_log env i source files w r w' :
  chapter_run env i source files w r w' ->
  exists evs,
    since w w' evs /\ forallb loop_kind evs = true /\
    temp_files evs <= 2 /\ renders evs <= temp_files evs /\ fixes evs <= 1 /\
    (always_written env -> temp_files evs = renders evs /\ fixes evs <= renders evs).
Proof.
  intros H. destruct H as [st1 w1 R1|e1 w1 e2 w2 R1 F1|e1 w1 st1 w2 st2 w3 R1 F1 R2
                           |e1 w1 st1 w2 e3 w3 R1 F1 R2].
  - destruct (render_attempt_log _ _ _ _ _ _ R1) as (a & Sa & Ka & La & Ta & Wa).
    destruct (render_kind_counts a Ka) as (Fa & _).
    exists a. split; [exact Sa|]. split; [now apply render_is_loop_kind|].
    repeat split; try lia; destruct (Wa (H _ _)) as (? & ? & _); lia.
  - destruct (render_attempt_log _ _ _ _ _ _ R1) as (a & Sa & Ka & La & Ta & Wa).
    destruct (on_failure_log _ _ _ _ _ _ F1) as (b & Sb & Kb & Fb).
    destruct (render_kind_counts a Ka) as (Fa & _).
    destruct (fix_kind_counts b Kb) as (Rb & Tb & _).
    exists (a ++ b). split; [eapply since_trans; eauto|].
    rewrite forallb_app, (render_is_loop_kind a Ka), (fix_is_loop_kind b Kb).
    rewrite renders_app, fixes_app, temp_files_app. simpl in Fb.
    split; [reflexivity|].
    repeat split; try lia; destruct (Wa (H _ _)) as (? & ? & _); lia.
  - destruct (render_attempt_log _ _ _ _ _ _ R1) as (a & Sa & Ka & La & Ta & Wa).
    destruct (on_failure_log _ _ _ _ _ _ F1) as (b & Sb & Kb & Fb).
    destruct (render_attempt_log _ _ _ _ _ _ R2) as (c & Sc & Kc & Lc & Tc & Wc).
    destruct (render_kind_counts a Ka) as (Fa & _).
    destruct (fix_kind_counts b Kb) as (Rb & Tb & _).
    destruct (render_kind_counts c Kc) as (Fc & _).
    exists ((a ++ b) ++ c). split; [eapply since_trans; [eapply since_trans|]; eauto|].
    rewrite !forallb_app, (render_is_loop_kind a Ka), (fix_is_loop_kind b Kb),
      (render_is_loop_kind c Kc).
    rewrite !renders_app, !fixes_app, !temp_files_app. simpl in Fb.
    split; [reflexivity|].
    repeat split; try lia;
      destruct (Wa (H _ _)) as (? & ? & _); destruct (Wc (H _ _)) as (? & ? & _); lia.
  - destruct (render_attempt_log _ _ _ _ _ _ R1) as (a & Sa & Ka & La & Ta & Wa).
    destruct (on_failure_log _ _ _ _ _ _ F1) as (b & Sb & Kb & Fb).
    destruct (render_attempt_log _ _ _ _ _ _ R2) as (c & Sc & Kc & Lc & Tc & Wc).
    destruct (render_kind_counts a Ka) as (Fa & _).
    destruct (fix_kind_counts b Kb) as (Rb & Tb & _).
    destruct (render_kind_counts c Kc) as (Fc & _).
    exists (((a ++ b) ++ c) ++ [failure_log env (bump st1) e3]). split.
    { eapply since_trans; [eapply since_trans; [eapply since_trans|]; eauto|].
      reflexivity. }
    assert (Rd : renders [failure_log env (bump st1) e3] = 0) by reflexivity.
    assert (Fd : fixes [failure_log env (bump st1) e3] = 0) by reflexivity.
    assert (Td : temp_files [failure_log env (bump st1) e3] = 0) by reflexivity.
    rewrite !forallb_app, (render_is_loop_kind a Ka), (fix_is_loop_kind b Kb),
      (render_is_loop_kind c Kc).
    rewrite !renders_app, !fixes_app, !temp_files_app. simpl in Fb.
    split; [reflexivity|].
    repeat split; try lia;
      destruct (Wa (H _ _)) as (? & ? & _); destruct (Wc (H _ _)) as (? & ? & _); lia.
Qed.

Lemma attempts_loop_success env i source files w st w' :
  attempts_loop env i 2 (fresh_attempts source files) w = (inr st, w') ->
  List.length (video_files st)
  = List.length files + (if success st then 1 else 0).
Proof.
  rewrite attempts_loop_frame.
  destruct (attempts_loop env i 2 (fresh_attempts source []) w) as [[e|st0] w1] eqn:L;
    [discriminate|].
  intros [= <- <-]. simpl. rewrite length_app.
  apply (attempts_loop_run _ _ _ _ _ 0), chapter_run_files in L
      as [[-> ->]|(-> & name & src & _ & ->)]; reflexivity.
Qed.

Lemma codegens_app a b : codegens (a ++ b) = codegens a + codegens b.
Proof. apply count_app. Qed.

Lemma outlines_app a b : outlines (a ++ b) = outlines a + outlines b.
Proof. apply count_app. Qed.

Lemma st_warnings_app a b : st_warnings (a ++ b) = st_warnings a + st_warnings b.
Proof. apply count_app. Qed.

Ltac split_tally :=
  rewrite ?codegens_app, ?outlines_app, ?st_warnings_app,
    ?renders_app, ?fixes_app, ?temp_files_app.

(** The tally of one chapter's turn. *)
Lemma process_chapter_log env i chapter files w r w' :
  process_chapter env i chapter files w = (r, w') ->
  exists evs,
    since w w' evs /\
    codegens evs = 1 /\ outlines evs = 0 /\
    temp_files evs <= 2 /\ renders evs <= temp_files evs /\ fixes evs <= 1 /\
    (always_written env -> temp_files evs = renders evs /\ fixes evs <= renders evs) /\
    match r with
    | inr out => List.length out + st_warnings evs = List.length files + 1
    | inl _ => True
    end.
Proof.
  rewrite process_chapter_eq, generate_manim_code_eq.
  set (head := [LogInfo ("Generating Manim code for: " +:+ chapter_title chapter);
                RunManim (codegen_prompt chapter)]).
  assert (S0 : since w (codegen_world chapter w) head) by reflexivity.
  assert (H1 : codegens head = 1) by reflexivity.
  assert (H2 : outlines head = 0) by reflexivity.
  assert (H3 : renders head = 0) by reflexivity.
  assert (H4 : fixes head = 0) by reflexivity.
  assert (H5 : temp_files head = 0) by reflexivity.
  assert (H6 : st_warnings head = 0) by reflexivity.
  assert (K1 : codegens (skip_log i chapter) = 0) by reflexivity.
  assert (K2 : outlines (skip_log i chapter) = 0) by reflexivity.
  assert (K3 : renders (skip_log i chapter) = 0) by reflexivity.
  assert (K4 : fixes (skip_log i chapter) = 0) by reflexivity.
  assert (K5 : temp_files (skip_log i chapter) = 0) by reflexivity.
  assert (K6 : st_warnings (skip_log i chapter) = 1) by reflexivity.
  destruct (manim_agent env (clock w) (codegen_prompt chapter)) as [e|c].
  - intros [= <- <-]. exists head. split; [exact S0|]. repeat split; lia.
  - destruct (attempts_loop env i 2 _ (codegen_world chapter w)) as [r1 w1] eqn:L.
    pose proof (attempts_loop_run _ _ _ _ _ 0 _ _ L) as Run.
    destruct (chapter_run_log _ _ _ _ _ _ _ Run) as (evs & S & K & T & R & F & A).
    destruct (loop_kind_counts evs K) as (C & O & W).
    destruct r1 as [e|st].
    + intros [= <- <-]. exists (head ++ evs). split; [eapply since_trans; eauto|].
      split_tally. repeat split; try lia; destruct (A H); lia.
    + pose proof (attempts_loop_success _ _ _ _ _ _ _ L) as Len.
      destruct (success st).
      * intros [= <- <-]. exists (head ++ evs). split; [eapply since_trans; eauto|].
        split_tally. repeat split; try lia; destruct (A H); lia.
      * intros [= <- <-]. exists ((head ++ evs) ++ skip_log i chapter). split.
        { eapply since_trans; [eapply since_trans; eauto|]. reflexivity. }
        split_tally. repeat split; try lia; destruct (A H); lia.
Qed.

(** The tally of the chapter loop, whether it returns or raises. *)
Lemma chapters_loop_log env chs : forall i files w r w',
  chapters_loop env i chs files w = (r, w') ->
  exists evs,
    since w w' evs /\
    codegens evs <= List.length chs /\ outlines evs = 0 /\
    temp_files evs <= 2 * codegens evs /\ renders evs <= temp_files evs /\
    fixes evs <= codegens evs /\
    (always_written env -> temp_files evs = renders evs /\ fixes evs <= renders evs) /\
    match r with
    | inr out =>
        codegens evs = List.length chs /\
        List.length out + st_warnings evs = List.length files + List.length chs
    | inl _ => True
    end.
Proof.
  induction chs as [|chapter rest IH]; intros i files w r w'; simpl.
  - intros [= <- <-]. exists []. split; [apply since_refl|].
    change (codegens []) with 0. change (outlines []) with 0.
    change (renders []) with 0. change (fixes []) with 0.
    change (temp_files []) with 0. change (st_warnings []) with 0.
    repeat split; lia.
  - unfold bind.
    destruct (process_chapter env i chapter files w) as [r1 w1] eqn:P.
    destruct (process_chapter_log _ _ _ _ _ _ _ P)
      as (a & Sa & Ca & Oa & Ta & Ra & Fa & Aa & La).
    destruct r1 as [e|files1].
    + intros [= <- <-]. exists a. split; [exact Sa|].
      repeat split; try lia; destruct (Aa H); lia.
    + intros L. destruct (IH _ _ _ _ _ L) as (b & Sb & Cb & Ob & Tb & Rb & Fb & Ab & Lb).
      exists (a ++ b). split; [eapply since_trans; eauto|].
      split_tally.
      repeat split; try lia; try (destruct (Aa H); destruct (Ab H); lia).
      destruct r as [e|out]; [exact I|]. destruct Lb as [Cb' Lb]. split; lia.
Qed.

(** ** Closing what was opened *)

Lemma remove_first_perm p l : In p l -> p :: Py.remove_first p l ≡ₚ l.
Proof.
  induction l as [|x l IH]; simpl; [tauto|].
  destruct (String.eqb_spec x p) as [->|Hne]; [reflexivity|].
  intros [->|Hin]; [congruence|].
  rewrite perm_swap. now rewrite IH.
Qed.

Lemma close_all_perm clips : forall X L,
  X ≡ₚ L ++ map Py.clip_path clips ->
  fold_left (fun l c => Py.remove_first (Py.clip_path c) l) clips X ≡ₚ L.
Proof.
  induction clips as [|c cs IH]; intros X L HX; simpl in *.
  - now rewrite app_nil_r in HX.
  - apply IH. apply (Permutation_cons_inv (a := Py.clip_path c)).
    rewrite remove_first_perm.
    + rewrite HX. symmetry. apply Permutation_middle.
    + apply (Permutation_in (l := L ++ Py.clip_path c :: map Py.clip_path cs));
        [now symmetry|]. apply in_app_iff. right. now left.
Qed.

Lemma opened_in_assembly_log ps :
  clips_opened (assembly_log ps) = List.length ps /\
  clips_closed (assembly_log ps) = List.length ps.
Proof.
  unfold assembly_log, clips_opened, clips_closed.
  rewrite !List.filter_app, !length_app. simpl.
  assert (A : forall l, List.filter is_clip_open (map ClipOpen l) = map ClipOpen l
                        /\ List.filter is_clip_close (map ClipOpen l) = []
                        /\ List.filter is_clip_open (map ClipClose l) = []
                        /\ List.filter is_clip_close (map ClipClose l) = map ClipClose l).
  { induction l as [|x l (I1 & I2 & I3 & I4)]; simpl; [auto|].
    rewrite I1, I2, I3, I4. auto. }
  destruct (A ps) as (-> & -> & -> & ->). rewrite !length_map. simpl. lia.
Qed.

(** X4. A successful assembly closes every clip it opened: the clips open
    afterwards are those open before, and the run logged as many closings
    as openings, one per clip still on disk. *)
Theorem successful_assembly_closes_every_clip :
  forall env files w p w',
    assemble env files w = (inr (Some p), w') ->
    open_clips w' ≡ₚ open_clips w /\
    exists evs,
      since w w' evs /\
      clips_opened evs = List.length (kept (fs w) files) /\
      clips_closed evs = clips_opened evs.
Proof.
  intros env files w p w' A. split.
  - rewrite assemble_eq in A. destruct files as [|vf rest]; [discriminate|].
    destruct (open_existing env (vf :: rest) w) as [[e|clips] w1] eqn:O; [discriminate|].
    apply open_existing_log in O as (opened & _ & C & _ & -> & P).
    destruct clips as [|c cs]; [discriminate|].
    set (clips := c :: cs) in *.
    destruct (video_write env (clock w1) final_path); [discriminate|].
    injection A as _ <-. unfold assembled. cbn [open_clips].
    apply close_all_perm. now rewrite C, P.
  - apply assemble_some in A as (_ & _ & _ & _ & T).
    exists (assembly_log (kept (fs w) files)). split; [exact T|].
    destruct (opened_in_assembly_log (kept (fs w) files)) as [-> ->]. auto.
Qed.

Lemma successful_assembly_closes_every_clip_witness :
  exists w',
    assemble (Stub.one "A") Stub.three_paths Stub.clips_on_disk
    = (inr (Some "final_video.mp4"), w') /\
    open_clips w' ≡ₚ open_clips Stub.clips_on_disk.
Proof.
  evaluate (assemble (Stub.one "A") Stub.three_paths Stub.clips_on_disk) A.
  eexists. split; [reflexivity|].
  exact (proj1 (successful_assembly_closes_every_clip _ _ _ _ _ A)).
Defined.

(** X5. The assembly never raises, and its last message tells how it
    went. It returns "final_video.mp4", with the success message last,
    exactly when some given path is still on disk, every such clip could
    be opened and the write returned. Otherwise it returns nothing: with
    the "no chapters" warning when it was given no path; with the "no
    clips" warning when no given path is on disk any more; and with the
    error report, carrying the text of the very exception raised, when
    opening a clip or writing the video raised it. In the two warned cases
    files and open clips are as before. *)
Theorem assembly_reports_its_outcome :
  forall env files w,
    exists r w',
      assemble env files w = (inr r, w') /\
      (is_Some r <-> kept (fs w) files <> [] /\ written_in_assembly env files w) /\
      ((r = Some final_path /\
        last (trace w') = Some (StSuccess "Video generation complete!"))
       \/
       (r = None /\ files = [] /\
        last (trace w') = Some no_chapters_warning /\
        fs w' = fs w /\ open_clips w' = open_clips w)
       \/
       (r = None /\ files <> [] /\ kept (fs w) files = [] /\
        last (trace w') = Some no_clips_warning /\
        fs w' = fs w /\ open_clips w' = open_clips w)
       \/
       (r = None /\ kept (fs w) files <> [] /\
        exists e, raised_in_assembly env files w e /\
                  last (trace w') = Some (combine_error env e))).
Proof.
  intros env files w. rewrite assemble_eq.
  unfold written_in_assembly, raised_in_assembly.
  destruct files as [|vf rest].
  - eexists _, _. split; [reflexivity|]. split.
    + split; [intros [x [=]]|]. intros [K _]. now destruct K.
    + right. left. repeat split. apply last_snoc.
  - destruct (open_existing env (vf :: rest) w) as [[e|clips] w1] eqn:O;
      rewrite (write_answer_eq _ _ _ _ _ O);
      apply open_existing_log in O as O'; destruct O' as (opened & F & C & T & R).
    + eexists _, _. split; [reflexivity|].
      assert (NK : kept (fs w) (vf :: rest) <> []).
      { intros K. rewrite K in R. simpl in R. lia. }
      split.
      * split; [intros [x [=]]|]. intros (_ & (clips & w2 & [=]) & _).
      * right. right. right. split; [reflexivity|]. split; [exact NK|].
        exists e. split; [left; eauto|].
        unfold log_to, combine_log. simpl. now rewrite last_app_cons.
    + destruct R as [-> P]. destruct clips as [|c cs].
      * eexists _, _. split; [reflexivity|].
        cbn [map] in P. rewrite <- P in C. rewrite app_nil_r in C.
        split.
        -- split; [intros [x [=]]|]. intros [K _]. now rewrite <- P in K.
        -- right. right. left. split; [reflexivity|]. split; [discriminate|].
           split; [now rewrite <- P|].
           split; [apply last_snoc|]. split; [exact F | exact C].
      * assert (NK : kept (fs w) (vf :: rest) <> []) by (rewrite <- P; discriminate).
        destruct (video_write env (clock w1) final_path) as [e part|written] eqn:V.
        -- eexists _, _. split; [reflexivity|]. split.
           ++ split; [intros [x [=]]|]. intros (_ & _ & written & [=]).
           ++ right. right. right. split; [reflexivity|]. split; [exact NK|].
              exists e. split; [right; eauto|].
              unfold write_failed, combine_log. simpl. now rewrite last_app_cons.
        -- eexists _, _. split; [reflexivity|]. split.
           ++ split; [|eauto]. intros _. split; [exact NK|]. eauto.
           ++ left. split; [reflexivity|].
              unfold assembled. cbn [trace]. rewrite !app_assoc. apply last_snoc.
Qed.

(** ** What can leave [generate_video] *)

Lemma chapters_loop_raises env chs : forall i files w e w',
  chapters_loop env i chs files w = (inl e, w') ->
  (exists t p, manim_agent env t p = inl e) \/
  (exists t p, code_fixer_agent env t p = inl e).
Proof.
  induction chs as [|chapter rest IH]; intros i files w e w'; simpl; [discriminate|].
  unfold bind. rewrite process_chapter_eq, generate_manim_code_eq.
  destruct (manim_agent env (clock w) (codegen_prompt chapter)) as [e0|c] eqn:G.
  - intros [= <- <-]. left. eauto.
  - destruct (attempts_loop env i 2 _ (codegen_world chapter w)) as [[e0|st] w1] eqn:L.
    + intros [= <- <-]. right.
      apply (attempts_loop_run _ _ _ _ _ 0) in L.
      inversion L as [|e1 w2 e2 w3 R1 F1| |]; subst.
      rewrite on_failure_first in F1.
      destruct (code_fixer_agent env (clock w2) _) eqn:F; [|discriminate].
      injection F1 as -> _. eauto.
    + apply IH.
Qed.

(** X6. Only a failing language-model backend can make [generate_video]
    raise: the exception it raises is the one the outline backend
    answered this call with, or one the code-generation or the code-fix
    backend answered with. Failures of the tool, of extraction and of the
    video library never leave it. *)
Theorem only_backend_failures_escape :
  forall env concept w e w',
    generate_video env concept w = (inl e, w') ->
    outline_agent env (clock w) concept = inl e \/
    (exists t p, manim_agent env t p = inl e) \/
    (exists t p, code_fixer_agent env t p = inl e).
Proof.
  intros env concept w e w'. rewrite generate_video_eq.
  destruct (outline_agent env (clock w) concept) as [e0|outline].
  - intros [= <- <-]. now left.
  - destruct (chapters_loop env 0 (chapters outline) [] (outline_world concept w))
      as [[e0|files] w1] eqn:L.
    + intros [= <- <-]. right. eapply chapters_loop_raises; eauto.
    + destruct (assemble_total env files w1) as (r & w2 & ->). discriminate.
Qed.

Lemma only_backend_failures_escape_witness :
  outline_agent Stub.fixer_down (clock Stub.w0) "concept" = inl Stub.backend_down \/
  (exists t p, manim_agent Stub.fixer_down t p = inl Stub.backend_down) \/
  (exists t p, code_fixer_agent Stub.fixer_down t p = inl Stub.backend_down).
Proof.
  evaluate (generate_video Stub.fixer_down "concept" Stub.w0) G.
  exact (only_backend_failures_escape _ _ _ _ _ G).
Defined.

(** ** The tally of a whole run *)





(** ** The warnings of the chapter loop *)

Lemma no_warning evs : st_warnings evs = 0 -> List.filter is_st_warning evs = [].
Proof.
  unfold st_warnings, count. destruct (List.filter is_st_warning evs); [auto|discriminate].
Qed.

Lemma process_chapter_warning env i chapter w l w1 :
  process_chapter env i chapter [] w = (inr l, w1) ->
  exists evs,
    since w w1 evs /\
    List.filter is_st_warning evs
    = match chapter_result env i chapter w with
      | None => [failure_warning i chapter]
      | Some _ => []
      end.
Proof.
  intros P. unfold chapter_result. rewrite P. revert P.
  rewrite process_chapter_eq, generate_manim_code_eq.
  set (head := [LogInfo ("Generating Manim code for: " +:+ chapter_title chapter);
                RunManim (codegen_prompt chapter)]).
  assert (S0 : since w (codegen_world chapter w) head) by reflexivity.
  destruct (manim_agent env (clock w) (codegen_prompt chapter)) as [e|c]; [discriminate|].
  destruct (attempts_loop env i 2 _ (codegen_world chapter w)) as [[e|st] w2] eqn:L;
    [discriminate|].
  pose proof (attempts_loop_run _ _ _ _ _ 0 _ _ L) as Run.
  destruct (chapter_run_log _ _ _ _ _ _ _ Run) as (evs & S & K & _).
  destruct (loop_kind_counts evs K) as (_ & _ & W). apply no_warning in W.
  apply chapter_run_files in Run as [[Su F]|(Su & name & src & _ & F)];
    rewrite Su, F; intros [= <- <-].
  - exists ((head ++ evs) ++ skip_log i chapter). split.
    + eapply since_trans; [eapply since_trans; eauto|reflexivity].
    + rewrite !List.filter_app, W. reflexivity.
  - exists (head ++ evs). split; [eapply since_trans; eauto|].
    rewrite List.filter_app, W. reflexivity.
Qed.

(** X8. Every chapter is accounted for. When the chapter loop returns,
    the warnings it showed are exactly the "Failed to generate chapter"
    warnings of the chapters that produced no clip, in outline order,
    each with the chapter's number (counted from 1) and title; and the
    clips it added and the warnings it showed are together as many as the
    chapters. *)
Theorem failed_chapters_are_reported :
  forall env chs i files w out w',
    chapters_loop env i chs files w = (inr out, w') ->
    exists evs,
      since w w' evs /\
      List.filter is_st_warning evs
      = failure_warnings i chs (chapter_results env i chs w) /\
      List.length out + st_warnings evs = List.length files + List.length chs.
Proof.
  intros env chs i files w out w' L.
  assert (Len : exists evs, since w w' evs /\
                  List.length out + st_warnings evs = List.length files + List.length chs).
  { destruct (chapters_loop_log _ _ _ _ _ _ _ L) as (evs & S & _ & _ & _ & _ & _ & _ & _ & E).
    eauto. }
  assert (War : exists evs, since w w' evs /\
                  List.filter is_st_warning evs
                  = failure_warnings i chs (chapter_results env i chs w)).
  { clear Len. revert i files w out w' L.
    induction chs as [|chapter rest IH]; intros i files w out w'; simpl.
    - intros [= <- <-]. exists []. split; [apply since_refl|reflexivity].
    - unfold bind. rewrite process_chapter_frame. unfold after_chapter.
      destruct (process_chapter env i chapter [] w) as [[e|l] w1] eqn:P; [discriminate|].
      intros L.
      destruct (process_chapter_warning _ _ _ _ _ _ P) as (a & Sa & Wa).
      destruct (IH _ _ _ _ _ L) as (b & Sb & Wb).
      exists (a ++ b). split; [eapply since_trans; eauto|].
      rewrite List.filter_app, Wa, Wb. simpl.
      destruct (chapter_result env i chapter w); reflexivity. }
  destruct Len as (evs & S & E), War as (evs' & S' & W).
  rewrite <- (since_inj _ _ _ _ S S') in W. eauto.
Qed.

Lemma failed_chapters_are_reported_witness :
  exists out w' evs,
    chapters_loop Stub.b_fails 0 Stub.abc [] Stub.w0 = (inr out, w') /\
    since Stub.w0 w' evs /\
    List.filter is_st_warning evs
    = failure_warnings 0 Stub.abc (chapter_results Stub.b_fails 0 Stub.abc Stub.w0).
Proof.
  evaluate (chapters_loop Stub.b_fails 0 Stub.abc [] Stub.w0) L.
  destruct (failed_chapters_are_reported _ _ _ _ _ _ _ L) as (evs & S & W & _).
  eexists _, _, evs. split; [reflexivity|]. split; [exact S | exact W].
Defined.

(** ** Where the clips come from *)

Lemma chapter_result_shaped env i chapter w p :
  chapter_result env i chapter w = Some p -> clip_shaped (re_classes env) p.
Proof.
  unfold chapter_result. rewrite process_chapter_eq, generate_manim_code_eq.
  destruct (manim_agent env (clock w) (codegen_prompt chapter)) as [e|c]; [discriminate|].
  destruct (attempts_loop env i 2 _ (codegen_world chapter w)) as [[e|st] w2] eqn:L;
    [discriminate|].
  apply (attempts_loop_run _ _ _ _ _ 0), chapter_run_files in L
    as [[_ ->]|(_ & name & src & E & ->)]; [discriminate|].
  intros [= <-]. apply extract_name_word in E as [N W].
  exists name. split; [now apply (clip_path_join (re_classes env))|]. auto.
Qed.

Lemma chapter_results_shaped env chs : forall i w,
  Forall (clip_shaped (re_classes env)) (omap id (chapter_results env i chs w)) /\
  List.length (omap id (chapter_results env i chs w)) <= List.length chs.
Proof.
  induction chs as [|chapter rest IH]; intros i w; simpl.
  - split; [constructor|lia].
  - destruct (IH (i + 1) (after_chapter env i chapter w)) as [F Len].
    destruct (chapter_result env i chapter w) as [p|] eqn:R; simpl.
    + split; [|apply le_n_S; exact Len].
      constructor; [|exact F]. eapply chapter_result_shaped; eauto.
    + split; [exact F|apply le_S; exact Len].
Qed.

Lemma video_file_clip_since env vf w r w2 :
  Py.video_file_clip env vf w = (r, w2) ->
  since w w2 (match r with inr _ => [ClipOpen vf] | inl _ => [] end).
Proof.
  unfold Py.video_file_clip, bind, tick, get_fs, get_clips, set_clips, emit, ret,
    raise, since. simpl.
  destruct (video_open env (clock w) vf); [|destruct (fs w !! vf)];
    intros [= <- <-]; simpl; auto using app_nil_r.
Qed.

Lemma open_existing_among env files : forall w r w1,
  open_existing env files w = (r, w1) ->
  exists opened, since w w1 (map ClipOpen opened) /\ incl opened files.
Proof.
  induction files as [|vf rest IH]; intros w r w1; simpl.
  - intros [= <- <-]. exists []. split; [apply since_refl|apply incl_nil_l].
  - unfold bind at 1, Py.path_exists at 1, bind at 1, get_fs at 1, ret at 1.
    destruct (bool_decide (is_Some (fs w !! vf))).
    + unfold bind at 1.
      destruct (Py.video_file_clip env vf w) as [[e|c] w2] eqn:V;
        apply video_file_clip_since in V.
      * intros [= <- <-]. exists []. split; [exact V|apply incl_nil_l].
      * unfold bind at 1.
        destruct (open_existing env rest w2) as [r0 w3] eqn:O.
        apply IH in O as (opened & T' & I).
        intros E. assert (w1 = w3) by (destruct r0; now injection E). subst w3.
        exists (vf :: opened). split.
        -- change (map ClipOpen (vf :: opened))
             with ([ClipOpen vf] ++ map ClipOpen opened).
           eapply since_trans; [exact V|exact T'].
        -- intros p [<-|Hin]; [now left|right; now apply I].
    + intros O. apply IH in O as (opened & T & I). exists opened. split; [exact T|].
      intros p Hin. right. now apply I.
Qed.

Lemma chapters_loop_opens_nothing env chs : forall i files w r w',
  chapters_loop env i chs files w = (r, w') ->
  exists evs, since w w' evs /\ forall p, ~ In (ClipOpen p) evs.
Proof.
  induction chs as [|chapter rest IH]; intros i files w r w'; simpl.
  - intros [= <- <-]. exists []. split; [apply since_refl|]. intros p [].
  - unfold bind. rewrite process_chapter_eq, generate_manim_code_eq.
    set (head := [LogInfo ("Generating Manim code for: " +:+ chapter_title chapter);
                  RunManim (codegen_prompt chapter)]).
    assert (S0 : since w (codegen_world chapter w) head) by reflexivity.
    assert (H0 : forall p, ~ In (ClipOpen p) head)
      by (intros p [|[|[]]]; discriminate).
    destruct (manim_agent env (clock w) (codegen_prompt chapter)) as [e|c].
    + intros [= <- <-]. exists head. auto.
    + destruct (attempts_loop env i 2 _ (codegen_world chapter w)) as [r1 w1] eqn:L.
      pose proof (attempts_loop_run _ _ _ _ _ 0 _ _ L) as Run.
      destruct (chapter_run_log _ _ _ _ _ _ _ Run) as (evs & S & K & _).
      assert (H1 : forall p, ~ In (ClipOpen p) evs).
      { intros p Hin. rewrite forallb_forall in K. now apply K in Hin. }
      destruct r1 as [e|st].
      * intros [= <- <-]. exists (head ++ evs). split; [eapply since_trans; eauto|].
        intros p Hin. apply in_app_iff in Hin as [Hin|Hin]; [eapply H0|eapply H1]; eauto.
      * intros Rest. apply IH in Rest as (b & Sb & Hb).
        destruct (success st).
        -- exists ((head ++ evs) ++ b). split.
           { eapply since_trans; [eapply since_trans; eauto|exact Sb]. }
           intros p Hin. rewrite !in_app_iff in Hin.
           destruct Hin as [[Hin|Hin]|Hin]; [eapply H0|eapply H1|eapply Hb]; eauto.
        -- exists (((head ++ evs) ++ skip_log i chapter) ++ b). split.
           { eapply since_trans; [|exact Sb].
             eapply since_trans; [eapply since_trans; eauto|reflexivity]. }
           intros p Hin. rewrite !in_app_iff in Hin.
           destruct Hin as [[[Hin|Hin]|Hin]|Hin];
             [eapply H0|eapply H1| |eapply Hb]; eauto.
           destruct Hin as [|[|[]]]; discriminate.
Qed.

Lemma assemble_opens env files w r w' :
  assemble env files w = (r, w') ->
  exists evs, since w w' evs /\ forall p, In (ClipOpen p) evs -> In p files.
Proof.
  assert (Op : forall l p, In (ClipOpen p) (map ClipOpen l) -> In p l).
  { intros l p Hin. apply in_map_iff in Hin as (x & [= ->] & Hx). exact Hx. }
  assert (Cl : forall l p, ~ In (ClipOpen p) (map ClipClose l)).
  { intros l p Hin. apply in_map_iff in Hin as (x & [=] & _). }
  rewrite assemble_eq. destruct files as [|vf rest].
  - intros [= <- <-]. exists [no_chapters_warning]. split; [reflexivity|].
    intros p [|[]]; discriminate.
  - destruct (open_existing env (vf :: rest) w) as [r1 w1] eqn:O.
    apply open_existing_among in O as (opened & T & I).
    assert (Fin : forall tail w2,
               since w1 w2 tail -> (forall p, ~ In (ClipOpen p) tail) ->
               exists evs, since w w2 evs /\
                           forall p, In (ClipOpen p) evs -> In p (vf :: rest)).
    { intros tail w2 S N. exists (map ClipOpen opened ++ tail).
      split; [eapply since_trans; eauto|].
      intros p Hin. apply in_app_iff in Hin as [Hin|Hin]; [|now apply N in Hin].
      apply I, Op, Hin. }
    destruct r1 as [e|clips].
    + intros [= <- <-]. apply (Fin (combine_log env e)); [reflexivity|].
      intros p [|[|[]]]; discriminate.
    + destruct clips as [|c cs].
      * intros [= <- <-]. apply (Fin [no_clips_warning]); [reflexivity|].
        intros p [|[]]; discriminate.
      * set (clips := c :: cs) in *.
        destruct (video_write env (clock w1) final_path) as [e|]; intros [= <- <-].
        -- apply (Fin (Concatenate (map Py.clip_path clips) :: combine_log env e));
             [reflexivity|].
           intros p [|[|[|[]]]]; discriminate.
        -- eapply Fin; [unfold since, assembled; cbn [trace]; reflexivity|].
           intros p Hin. rewrite !in_app_iff in Hin.
           destruct Hin as [[|[|[|[]]]]|[Hin|[|[]]]]; try discriminate.
           now apply Cl in Hin.
Qed.

(** X9. Only rendered clips are collected and opened. Every path the
    chapter loop adds to [video_files] is "./media/videos/temp/480p15/"
    followed by a name of word characters and ".mp4", at most one per
    chapter; and every file [generate_video] opens as a clip
    is of that shape: it never opens a file outside that directory. *)
Theorem only_rendered_clips_are_opened :
  (forall env chs i files w out w',
      chapters_loop env i chs files w = (inr out, w') ->
      exists added,
        out = files ++ added /\ Forall (clip_shaped (re_classes env)) added /\
        List.length added <= List.length chs) /\
  (forall env concept w r w',
      generate_video env concept w = (r, w') ->
      exists evs, since w w' evs /\
                  forall p, In (ClipOpen p) evs -> clip_shaped (re_classes env) p).
Proof.
  split.
  - intros env chs i files w out w' L. apply chapters_loop_results in L.
    exists (omap id (chapter_results env i chs w)). split; [exact L|].
    apply chapter_results_shaped.
  - intros env concept w r w'. rewrite generate_video_eq.
    set (head := [LogInfo ("Generating outline for: " +:+ concept); RunOutline concept]).
    assert (S0 : since w (outline_world concept w) head) by reflexivity.
    assert (H0 : forall p, ~ In (ClipOpen p) head)
      by (intros p [|[|[]]]; discriminate).
    destruct (outline_agent env (clock w) concept) as [e|outline].
    + intros [= <- <-]. exists head. split; [exact S0|].
      intros p Hin. now apply H0 in Hin.
    + destruct (chapters_loop env 0 (chapters outline) [] (outline_world concept w))
        as [r1 w1] eqn:L.
      destruct (chapters_loop_opens_nothing _ _ _ _ _ _ _ L) as (a & Sa & Na).
      destruct r1 as [e|files].
      * intros [= <- <-]. exists (head ++ a). split; [eapply since_trans; eauto|].
        intros p Hin. apply in_app_iff in Hin as [Hin|Hin];
          [now apply H0 in Hin|now apply Na in Hin].
      * intros A. apply assemble_opens in A as (b & Sb & Hb).
        apply chapters_loop_results in L. simpl in L.
        destruct (chapter_results_shaped env (chapters outline) 0
                    (outline_world concept w)) as [Sh _].
        rewrite <- L in Sh. rewrite List.Forall_forall in Sh.
        exists ((head ++ a) ++ b). split.
        { eapply since_trans; [eapply since_trans; eauto|exact Sb]. }
        intros p Hin. rewrite !in_app_iff in Hin.
        destruct Hin as [[Hin|Hin]|Hin];
          [now apply H0 in Hin|now apply Na in Hin|].
        apply Sh, Hb, Hin.
Qed.

Lemma only_rendered_clips_are_opened_witness :
  exists out w' added,
    chapters_loop Stub.b_fails 0 Stub.abc [] Stub.w0 = (inr out, w') /\
    out = [] ++ added /\ Forall (clip_shaped python) added /\
    List.length added <= 3.
Proof.
  evaluate (chapters_loop Stub.b_fails 0 Stub.abc [] Stub.w0) L.
  destruct (proj1 only_rendered_clips_are_opened _ _ _ _ _ _ _ L) as (added & E & F & N).
  eexists _, _, added. split; [reflexivity|]. split; [exact E|]. split; [exact F|exact N].
Defined.

(** ** The second attempt *)



(** ** A failed assembly *)

Lemma filter_opens l :
  List.filter is_clip_open (map ClipOpen l) = map ClipOpen l /\
  List.filter is_clip_close (map ClipOpen l) = [].
Proof.
  induction l as [|x l [I1 I2]]; simpl; [auto|]. now rewrite I1, I2.
Qed.

(** X11. An assembly that yields no video closes nothing. Whenever the
    assembly returns [None] (no paths, no clip left on disk, a clip that
    cannot be opened, or a failed write), it has closed no clip: every
    clip it opened is still open when it returns. *)
Theorem failed_assembly_closes_nothing :
  forall env files w w',
    assemble env files w = (inr None, w') ->
    exists opened evs,
      since w w' evs /\
      List.filter is_clip_open evs = map ClipOpen opened /\
      clips_closed evs = 0 /\
      open_clips w' = open_clips w ++ opened.
Proof.
  intros env files w w'. rewrite assemble_eq. destruct files as [|vf rest].
  - intros [= <-]. exists [], [no_chapters_warning].
    split; [reflexivity|]. split; [reflexivity|]. split; [reflexivity|].
    simpl. now rewrite app_nil_r.
  - destruct (open_existing env (vf :: rest) w) as [[e|clips] w1] eqn:O;
      apply open_existing_log in O as (opened & _ & C & T & _);
      destruct (filter_opens opened) as [F1 F2].
    + intros [= <-]. exists opened, (map ClipOpen opened ++ combine_log env e).
      split; [eapply since_trans; [exact T|reflexivity]|].
      unfold clips_closed. rewrite !List.filter_app, F1, F2. simpl.
      rewrite app_nil_r. auto.
    + destruct clips as [|c cs].
      * intros [= <-]. exists opened, (map ClipOpen opened ++ [no_clips_warning]).
        split; [eapply since_trans; [exact T|reflexivity]|].
        unfold clips_closed. rewrite !List.filter_app, F1, F2. simpl.
        rewrite app_nil_r. auto.
      * set (clips := c :: cs) in *.
        destruct (video_write env (clock w1) final_path) as [e|]; [|discriminate].
        intros [= <-].
        exists opened, (map ClipOpen opened
                        ++ Concatenate (map Py.clip_path clips) :: combine_log env e).
        split; [eapply since_trans; [exact T|reflexivity]|].
        unfold clips_closed. rewrite !List.filter_app, F1, F2. simpl.
        rewrite app_nil_r. auto.
Qed.

Lemma failed_assembly_closes_nothing_witness :
  exists w' opened evs,
    assemble Stub.write_fails Stub.three_paths Stub.clips_on_disk = (inr None, w') /\
    since Stub.clips_on_disk w' evs /\
    clips_closed evs = 0 /\
    open_clips w' = open_clips Stub.clips_on_disk ++ opened.
Proof.
  evaluate (assemble Stub.write_fails Stub.three_paths Stub.clips_on_disk) A.
  destruct (failed_assembly_closes_nothing _ _ _ _ A) as (opened & evs & S & _ & K & C).
  eexists _, opened, evs. split; [reflexivity|]. split; [exact S|]. split; [exact K|exact C].
Defined.

(** ** The page *)

Lemma truthy_iff s : truthy s = true <-> s <> "".
Proof.
  unfold truthy. destruct (String.eqb_spec s ""); simpl; split; congruence.
Qed.

(** X12. What [main] shows. Without a click it shows the title, the
    input and the button and does nothing else; a click with an empty
    input only adds the warning "Please enter a concept." and asks no
    backend. A click with a concept runs [generate_video] once on what
    was typed: an exception of the run leaves [main]; when the run
    returned a path, the video widget is shown, on "final_video.mp4", if
    a file of that name is on disk after the run, and the "no output
    video found" note if none is; when the run returned no path the note
    is shown. Both outcomes after a returned path occur: the note is
    shown when the video library returned from the write without leaving
    the file. *)
Theorem main_shows_the_outcome :
  (forall env typed w, main env typed false w = (inr page_head, w)) /\
  (forall env w,
      main env "" true w
      = (inr page_head, log_to w [StWarning "Please enter a concept."])) /\
  (forall env concept w,
      concept <> "" ->
      main env concept true w
      = match generate_video env concept w with
        | (inl e, w') => (inl e, w')
        | (inr (Some _), w') =>
            (inr (page_head
                  ++ [spinner;
                      if bool_decide (is_Some (fs w' !! "final_video.mp4"))
                      then Video "final_video.mp4" else no_output_info]), w')
        | (inr None, w') => (inr (page_head ++ [spinner; no_output_info]), w')
        end) /\
  (fst (generate_video (Stub.one "A") "concept" Stub.w0) = inr (Some "final_video.mp4") /\
   fst (main (Stub.one "A") "concept" true Stub.w0)
   = inr (page_head ++ [spinner; Video "final_video.mp4"])) /\
  (fst (generate_video Scenario.write_is_silent "concept" Stub.w0)
   = inr (Some "final_video.mp4") /\
   fst (main Scenario.write_is_silent "concept" true Stub.w0)
   = inr (page_head ++ [spinner; no_output_info])).
Proof.
  assert (Third : forall env concept w,
      concept <> "" ->
      main env concept true w
      = match generate_video env concept w with
        | (inl e, w') => (inl e, w')
        | (inr (Some _), w') =>
            (inr (page_head
                  ++ [spinner;
                      if bool_decide (is_Some (fs w' !! "final_video.mp4"))
                      then Video "final_video.mp4" else no_output_info]), w')
        | (inr None, w') => (inr (page_head ++ [spinner; no_output_info]), w')
        end).
  { intros env concept w Hc. apply truthy_iff in Hc. unfold main. rewrite Hc.
    unfold bind at 1.
    destruct (generate_video env concept w) as [[e|[p|]] w'] eqn:G;
      [reflexivity| |reflexivity].
    rewrite generate_video_eq in G.
    destruct (outline_agent env (clock w) concept) as [e|outline]; [discriminate|].
    destruct (chapters_loop env 0 (chapters outline) [] (outline_world concept w))
      as [[e|files] w1]; [discriminate|].
    apply assemble_some in G as (-> & _).
    unfold bind, Py.path_exists, get_fs, ret. simpl.
    destruct (bool_decide _); reflexivity. }
  split; [reflexivity|]. split; [reflexivity|]. split; [exact Third|].
  assert (Hc : "concept" <> "") by discriminate.
  split.
  - evaluate (generate_video (Stub.one "A") "concept" Stub.w0) G.
    rewrite (Third (Stub.one "A") "concept" Stub.w0 Hc), G. split; reflexivity.
  - evaluate (generate_video Scenario.write_is_silent "concept" Stub.w0) G.
    rewrite (Third Scenario.write_is_silent "concept" Stub.w0 Hc), G. split; reflexivity.
Qed.

Lemma main_shows_the_outcome_witness :
  fst (main Scenario.write_is_silent "concept" true Stub.w0)
  = inr (page_head ++ [spinner; no_output_info]).
Proof.
  evaluate (generate_video Scenario.write_is_silent "concept" Stub.w0) G.
  assert (Hc : "concept" <> "") by discriminate.
  rewrite (proj1 (proj2 (proj2 main_shows_the_outcome))
             Scenario.write_is_silent "concept" Stub.w0 Hc), G.
  reflexivity.
Defined.

(** ** What makes an attempt succeed *)

Lemma clip_is_not_the_script env w name :
  media_dir +:+ name +:+ ".mp4" <> temp_of env w.
Proof.
  unfold temp_of. intros E. apply (f_equal l_of) in E.
  rewrite !l_of_app in E. apply (f_equal (@last ascii)) in E.
  change (l_of ".mp4") with (["."%char; "m"%char; "p"%char] ++ ["4"%char]) in E.
  change (l_of ".py") with (["."%char; "p"%char] ++ ["y"%char]) in E.
  rewrite !app_assoc, !last_snoc in E. discriminate.
Qed.

(** X13. After the temporary file was written and the tool exited with
    status 0 and its output was read, on a source that declares a scene,
    the attempt succeeds exactly when a file is at the clip path among
    the files the tool left, and fails with "Video file not created."
    otherwise. Whether this run wrote that file is not looked at: when
    the tool writes nothing and a clip of that name is on disk from
    before, the attempt succeeds with the old clip. *)
Theorem attempt_succeeds_iff_clip_on_disk :
  (forall env i st w out err after name,
      temp_answer env (manim_code st) w = Written ->
      tool_answer env (manim_code st) w = Exits 0 out err after ->
      extract_class_name (re_classes env) (manim_code st) = inr name ->
      let p := media_dir +:+ name +:+ ".mp4" in
      render_attempt env i st w
      = (if bool_decide (is_Some (after !! p)) then inr (won st p)
         else inl (FileNotFoundError "Video file not created."),
         rendered env (manim_code st) w after [Communicate render_timeout])) /\
  (forall env i st w out err name d,
      temp_answer env (manim_code st) w = Written ->
      extract_class_name (re_classes env) (manim_code st) = inr name ->
      fs w !! (media_dir +:+ name +:+ ".mp4") = Some d ->
      tool_answer env (manim_code st) w
      = Exits 0 out err (<[temp_of env w := manim_code st]> (fs w)) ->
      fst (render_attempt env i st w)
      = inr (won st (media_dir +:+ name +:+ ".mp4"))).
Proof.
  assert (First : forall env i st w out err after name,
      temp_answer env (manim_code st) w = Written ->
      tool_answer env (manim_code st) w = Exits 0 out err after ->
      extract_class_name (re_classes env) (manim_code st) = inr name ->
      render_attempt env i st w
      = (if bool_decide (is_Some (after !! (media_dir +:+ name +:+ ".mp4")))
         then inr (won st (media_dir +:+ name +:+ ".mp4"))
         else inl (FileNotFoundError "Video file not created."),
         rendered env (manim_code st) w after [Communicate render_timeout])).
  { intros env i st w out err after name Wr T E.
    rewrite render_attempt_eq, create_video_from_code_eq, Wr, T, E.
    destruct (extract_name_word _ _ _ E) as [N W].
    rewrite (clip_path_join _ name N W). cbn [Z.eqb].
    assert (Lk : fs (rendered env (manim_code st) w after [Communicate render_timeout])
                 !! (media_dir +:+ name +:+ ".mp4")
                 = after !! (media_dir +:+ name +:+ ".mp4")).
    { unfold rendered. cbn [fs].
      apply lookup_delete_ne, not_eq_sym, clip_is_not_the_script. }
    rewrite Lk. destruct (bool_decide _); reflexivity. }
  split; [exact First|].
  intros env i st w out err name d Wr E D T.
  rewrite (First _ i _ _ _ _ _ _ Wr T E).
  rewrite lookup_insert_ne by (apply not_eq_sym, clip_is_not_the_script).
  rewrite D. rewrite bool_decide_true by eauto. reflexivity.
Qed.

Lemma attempt_succeeds_iff_clip_on_disk_witness :
  fst (render_attempt Scenario.tool_idle 0 (fresh_attempts "class A(Scene):" [])
                      Stub.clips_on_disk)
  = inr (won (fresh_attempts "class A(Scene):" []) (media_dir +:+ "A" +:+ ".mp4")).
Proof.
  apply (proj2 attempt_succeeds_iff_clip_on_disk Scenario.tool_idle 0
               (fresh_attempts "class A(Scene):" []) Stub.clips_on_disk "" "" "A" "A").
  - reflexivity.
  - vm_compute. reflexivity.
  - vm_compute. reflexivity.
  - reflexivity.
Defined.

(** ** Extraction and the text after the declaration *)

Ltac flatten_apps :=
  repeat first [rewrite <- app_assoc | rewrite <- app_comm_cons].

Lemma no_paren_in (p : ascii -> bool) (l : text) :
  p ")"%char = false -> forallb p l = true -> ~ In ")"%char l.
Proof.
  intros Hp Hl Hin. rewrite forallb_forall in Hl. apply Hl in Hin. congruence.
Qed.

(** A declaration ends in its only closing parenthesis and a colon. *)
Lemma decl_parts_body cls s name rest :
  decl_parts cls s name rest ->
  exists body, s = body ++ ")"%char :: ":"%char :: rest /\ ~ In ")"%char body.
Proof.
  intros (ws1 & ws2 & ws3 & base & ws4 & -> & _ & S1 & _ & Wn & S2 & S3 & Wb & S4).
  exists (kw_class ++ ws1 ++ name ++ ws2 ++ "("%char :: ws3 ++ base ++ kw_scene ++ ws4).
  split.
  - flatten_apps. reflexivity.
  - pose proof (no_paren_in (is_space cls) ws1 (delimiter_not_space cls ")"%char eq_refl) S1).
    pose proof (no_paren_in (is_word cls) name (delimiter_not_word cls ")"%char eq_refl) Wn).
    pose proof (no_paren_in (is_space cls) ws2 (delimiter_not_space cls ")"%char eq_refl) S2).
    pose proof (no_paren_in (is_space cls) ws3 (delimiter_not_space cls ")"%char eq_refl) S3).
    pose proof (no_paren_in (is_word cls) base (delimiter_not_word cls ")"%char eq_refl) Wb).
    pose proof (no_paren_in (is_space cls) ws4 (delimiter_not_space cls ")"%char eq_refl) S4).
    intros Hin.
    repeat (apply in_app_iff in Hin as [Hin|Hin]; [try tauto|]); try tauto.
    + vm_compute in Hin. intuition discriminate.
    + destruct Hin as [Hin|Hin]; [discriminate|].
      repeat (apply in_app_iff in Hin as [Hin|Hin]; [try tauto|]); try tauto.
      vm_compute in Hin. intuition discriminate.
Qed.

Lemma decl_parts_extend cls s name rest tail :
  decl_parts cls s name rest -> decl_parts cls (s ++ tail) name (rest ++ tail).
Proof.
  intros (ws1 & ws2 & ws3 & base & ws4 & -> & H).
  exists ws1, ws2, ws3, base, ws4. split; [|exact H].
  flatten_apps. reflexivity.
Qed.

(** A declaration found in [src ++ tl] that starts before one of [src]
    lies within [src]. *)
Lemma decl_parts_within cls (src tl P B R P' s' : text) name' rest' :
  src = P ++ B ++ ")"%char :: ":"%char :: R ->
  src ++ tl = P' ++ s' -> decl_parts cls s' name' rest' ->
  List.length P' < List.length P ->
  exists rest'', src = P' ++ firstn (List.length src - List.length P') s' /\
                 decl_parts cls (firstn (List.length src - List.length P') s') name' rest''.
Proof.
  intros ES E D Lt.
  destruct (decl_parts_body _ _ _ _ D) as (B' & Es' & NB').
  set (k := List.length P + List.length B).
  assert (Hk : nth_error (src ++ tl) k = Some ")"%char).
  { rewrite ES, <- !app_assoc. unfold k.
    rewrite nth_error_app2 by lia. rewrite nth_error_app2 by lia.
    replace (_ - _ - _) with 0 by lia. reflexivity. }
  assert (LS : List.length src = List.length P + List.length B + 2 + List.length R).
  { rewrite ES, !length_app. simpl. lia. }
  destruct (le_lt_dec (List.length P' + List.length B' + 2) (List.length src)) as [Le|Gt].
  - (* the declaration ends within src *)
    assert (Cut : firstn (List.length src - List.length P') s'
                  = B' ++ ")"%char :: ":"%char
                       :: firstn (List.length src - List.length P' - List.length B' - 2) rest').
    { rewrite Es'. rewrite firstn_app.
      rewrite firstn_all2 by lia. f_equal.
      set (n := List.length src - List.length P' - List.length B' - 2).
      replace (List.length src - List.length P' - List.length B')
        with (Datatypes.S (Datatypes.S n)) by (unfold n; lia).
      reflexivity. }
    assert (ES' : src = P' ++ firstn (List.length src - List.length P') s').
    { apply (f_equal (firstn (List.length src))) in E.
      rewrite firstn_app, firstn_all, Nat.sub_diag in E. simpl in E.
      rewrite app_nil_r in E. rewrite E at 1.
      rewrite firstn_app. rewrite firstn_all2 by lia. reflexivity. }
    exists (firstn (List.length src - List.length P' - List.length B' - 2) rest').
    split; [exact ES'|]. rewrite Cut.
    generalize (firstn (List.length src - List.length P' - List.length B' - 2) rest').
    intros r.
    destruct D as (ws1 & ws2 & ws3 & base & ws4 & Ed & H).
    exists ws1, ws2, ws3, base, ws4. split; [|exact H].
    rewrite Es' in Ed.
    assert (EB : B' = kw_class ++ ws1 ++ name' ++ ws2 ++ "("%char :: ws3 ++ base
                      ++ kw_scene ++ ws4).
    { assert (Ed' : B' ++ ")"%char :: ":"%char :: rest'
                    = (kw_class ++ ws1 ++ name' ++ ws2 ++ "("%char :: ws3 ++ base
                       ++ kw_scene ++ ws4) ++ ")"%char :: ":"%char :: rest').
      { rewrite Ed. flatten_apps. reflexivity. }
      now apply app_inv_tail in Ed'. }
    rewrite EB. flatten_apps. reflexivity.
  - (* it would hold the closing parenthesis of the other one *)
    exfalso. apply NB'. rewrite E, Es' in Hk.
    rewrite nth_error_app2 in Hk by (unfold k; lia).
    rewrite nth_error_app1 in Hk by (unfold k; lia).
    eapply nth_error_In; eauto.
Qed.

(** X14. Extraction does not read past the first declaration: when a
    source declares a scene, any text appended to it leaves the extracted
    class name unchanged, whatever the classes of space and word
    characters are. *)
Theorem extraction_ignores_what_follows :
  forall cls source name tail,
    extract_class_name cls source = inr name ->
    extract_class_name cls (source +:+ tail) = inr name.
Proof.
  intros cls source name tail H. apply extract_ok_iff in H as (pre & Hd & Hfirst).
  apply extract_ok_iff. exists pre.
  pose proof Hd as Hd0.
  apply declares_bridge in Hd as (s & rest & E & D). split.
  - apply declares_bridge. exists (s ++ l_of tail), (rest ++ l_of tail). split.
    + rewrite l_of_app, E, app_assoc. reflexivity.
    + now apply decl_parts_extend.
  - intros pre' name' (s' & rest' & E' & D')%declares_bridge.
    destruct (le_lt_dec (String.length pre) (String.length pre')) as [|Lt]; [assumption|].
    exfalso. rewrite l_of_app in E'. rewrite <- !l_of_length in Lt.
    destruct (decl_parts_body _ _ _ _ D) as (B & Es & _).
    rewrite Es in E.
    destruct (decl_parts_within _ _ _ _ _ _ _ _ _ _ E E' D' Lt) as (r'' & ES & D'').
    assert (Hd' : declares_scene_at cls source pre' name').
    { apply declares_bridge. eexists _, _. split; [exact ES|exact D'']. }
    apply Hfirst in Hd'. rewrite <- !l_of_length in Hd'. lia.
Qed.

Lemma extraction_ignores_what_follows_witness :
  extract_class_name python ("class Intro(Scene):" +:+ " class Outro(Scene):")
  = inr "Intro".
Proof.
  apply extraction_ignores_what_follows. vm_compute. reflexivity.
Defined.
